(** * Marseille Immobilier: ordered collections of the admin back office

    A shallow embedding of the Flask handlers of [routes.py] and
    [admin_routes.py] over the tables of [models.py].

    - A table is a finite map from the integer primary key to the row
      ([gmap Z row]); the [id] column is the key of the map.
    - A handler is a function from the request (its form fields, its
      uploaded files, its JSON body) and the database to a response and
      the database after the request.
    - What the environment decides is an argument of the handler: whether
      [db.session.commit()] succeeds ([commit_ok]), what
      [save_uploaded_file] returns for an upload ([Upload.saved_as]),
      whether [send_contact_email] returns [True].
    - The session is the one Flask-SQLAlchemy gives by default: a query
      flushes the pending rows before it runs, a relationship collection
      such as [agency.images] is loaded at its first read and kept on the
      object until the commit, and a bulk [update()] is applied to the
      loaded objects as well.
    - A new row gets the key after the largest key of its table; columns
      the handler leaves unset get the default of [models.py].
    - A Python string is the byte string of its UTF-8 encoding; [strip]
      removes the white space characters of Python, [lower] matters for
      the ASCII extensions of file names only. The price of a plan, a
      Python float, is a rational number: only its sign and its presence
      matter here.
    - Timestamps ([created_at], [updated_at]), the upload directory and the
      translation files are outside the model; [get_translation key lang]
      is represented by [key]. *)

From Stdlib Require Import ZArith QArith Ascii String Sorted.
From stdpp Require Import gmap strings list fin_maps pretty.

Local Open Scope string_scope.
Local Open Scope Z_scope.

(** ** Python strings *)

Module Py.

(** A character given by the bytes of its UTF-8 encoding. *)
Definition utf8 (bytes : list nat) : string :=
  foldr (λ n s, String (ascii_of_nat n) s) EmptyString bytes.

(** The white space of Python: the characters [str.strip] removes and
    [str.isspace] accepts. U+0009-000D, U+001C-001F, U+0020, U+0085,
    U+00A0, U+1680, U+2000-200A, U+2028, U+2029, U+202F, U+205F, U+3000,
    each as its UTF-8 encoding. *)
Definition WHITESPACE : list string :=
  utf8 <$> ([ [9]; [10]; [11]; [12]; [13];
             [28]; [29]; [30]; [31];
             [32];
             [194; 133];
             [194; 160];
             [225; 154; 128];
             [226; 128; 128]; [226; 128; 129]; [226; 128; 130];
             [226; 128; 131]; [226; 128; 132]; [226; 128; 133];
             [226; 128; 134]; [226; 128; 135]; [226; 128; 136];
             [226; 128; 137]; [226; 128; 138];
             [226; 128; 168]; [226; 128; 169];
             [226; 128; 175];
             [226; 129; 159];
             [227; 128; 128] ]%nat : list (list nat)).

(** [character.isspace()] for one character, of one, two or three bytes. *)
Definition isspace (character : string) : bool :=
  bool_decide (character ∈ WHITESPACE).

(** [s.lstrip()]: the white space characters at the start are dropped;
    a character is one to three bytes. *)
Fixpoint lstrip (s : string) : string :=
  match s with
  | EmptyString => EmptyString
  | String c1 r1 =>
      if isspace (String c1 EmptyString) then lstrip r1
      else
        match r1 with
        | EmptyString => s
        | String c2 r2 =>
            if isspace (String c1 (String c2 EmptyString)) then lstrip r2
            else
              match r2 with
              | EmptyString => s
              | String c3 r3 =>
                  if isspace (String c1 (String c2 (String c3 EmptyString)))
                  then lstrip r3
                  else s
              end
        end
  end.

(** The string is made of white space characters only (or is empty). *)
Fixpoint blank (s : string) : bool :=
  match s with
  | EmptyString => true
  | String c1 r1 =>
      if isspace (String c1 EmptyString) then blank r1
      else
        match r1 with
        | EmptyString => false
        | String c2 r2 =>
            if isspace (String c1 (String c2 EmptyString)) then blank r2
            else
              match r2 with
              | EmptyString => false
              | String c3 r3 =>
                  if isspace (String c1 (String c2 (String c3 EmptyString)))
                  then blank r3
                  else false
              end
        end
  end.

(** [s.rstrip()]: the string is cut where only white space follows. The
    walk is byte by byte: inside a character the rest starts with a
    continuation byte (128 to 191), which starts no white space character,
    so the cut falls between two characters. *)
Fixpoint rstrip (s : string) : string :=
  match s with
  | EmptyString => EmptyString
  | String c r => if blank s then EmptyString else String c (rstrip r)
  end.

(** [s.strip()] *)
Definition strip (s : string) : string := rstrip (lstrip s).

(** [s.startswith(p)] *)
Definition startswith (s p : string) : bool := String.prefix p s.

(** Truth value of a string: [bool(s)]. *)
Definition truthy (s : string) : bool :=
  match s with EmptyString => false | _ => true end.

(** [c.lower()] on ASCII letters. *)
Definition lower_ascii (c : ascii) : ascii :=
  let n := nat_of_ascii c in
  if ((65 <=? n)%nat && (n <=? 90)%nat) then ascii_of_nat (n + 32) else c.

Fixpoint lower (s : string) : string :=
  match s with
  | EmptyString => EmptyString
  | String c r => String (lower_ascii c) (lower r)
  end.

(** [s.rsplit('.', 1)[1]] when ['.' in s]: the text after the last dot;
    [None] when [s] has no dot. *)
Fixpoint after_last_dot (s : string) : option string :=
  match s with
  | EmptyString => None
  | String c r =>
      match after_last_dot r with
      | Some e => Some e
      | None => if Ascii.eqb c "."%char then Some r else None
      end
  end.

(** [x or 0] on the result of a scalar query. *)
Definition or_zero (x : option Z) : Z :=
  match x with
  | None => 0
  | Some v => if Z.eqb v 0 then 0 else v
  end.

End Py.

(** ** utils.py *)

Definition ALLOWED_EXTENSIONS : list string :=
  ["png"; "jpg"; "jpeg"; "gif"; "svg"; "webp"].

(** [allowed_file(filename)] *)
Definition allowed_file (filename : string) : bool :=
  match Py.after_last_dot filename with
  | None => false
  | Some ext => bool_decide (Py.lower ext ∈ ALLOWED_EXTENSIONS)
  end.

(** An uploaded file of [request.files]: the name the client sent and
    what [save_uploaded_file] returns for it (the generated file name, or
    [None] when saving raised). *)
Module Upload.
Record t := mk { filename : string; saved_as : option string }.
End Upload.

(** The test [f and f.filename and allowed_file(f.filename)] of the
    handlers; a [FileStorage] is true exactly when its file name is. *)
Definition valid_image (f : Upload.t) : bool :=
  Py.truthy (Upload.filename f) && allowed_file (Upload.filename f).

(** ** models.py *)

Module Plan.
Record t := mk {
  name : string;
  price : Q;
  billing_period : string;
  description : string;
  is_active : bool
}.
End Plan.

Module Agency.
Record t := mk {
  name : string;
  city : string;
  website : string;
  logo_filename : option string;
  cover_filename : option string;
  description : string;
  plan_id : option Z;
  is_active : bool;
  sort_order : Z
}.

Definition with_sort_order (v : Z) (a : t) : t :=
  mk (name a) (city a) (website a) (logo_filename a) (cover_filename a)
     (description a) (plan_id a) (is_active a) v.
End Agency.

Module ContactMessage.
Record t := mk {
  name : string;
  email : string;
  phone : string;
  subject : string;
  message : string;
  is_read : bool
}.
End ContactMessage.

Module CarouselItem.
Record t := mk {
  image_filename : string;
  link_url : string;
  alt_text : string;
  is_active : bool;
  sort_order : Z
}.

Definition with_sort_order (v : Z) (i : t) : t :=
  mk (image_filename i) (link_url i) (alt_text i) (is_active i) v.
End CarouselItem.

Module AgencyImage.
Record t := mk {
  agency_id : Z;
  image_filename : string;
  alt_text : string;
  is_primary : bool;
  sort_order : Z
}.

Definition with_is_primary (v : bool) (i : t) : t :=
  mk (agency_id i) (image_filename i) (alt_text i) v (sort_order i).
End AgencyImage.

(** The persisted state: one table per model. *)
Module DB.
Record t := mk {
  plans : gmap Z Plan.t;
  agencies : gmap Z Agency.t;
  contact_messages : gmap Z ContactMessage.t;
  carousel_items : gmap Z CarouselItem.t;
  agency_images : gmap Z AgencyImage.t
}.

Definition empty : t := mk ∅ ∅ ∅ ∅ ∅.

Definition with_plans (v : gmap Z Plan.t) (d : t) : t :=
  mk v (agencies d) (contact_messages d) (carousel_items d) (agency_images d).
Definition with_agencies (v : gmap Z Agency.t) (d : t) : t :=
  mk (plans d) v (contact_messages d) (carousel_items d) (agency_images d).
Definition with_contact_messages (v : gmap Z ContactMessage.t) (d : t) : t :=
  mk (plans d) (agencies d) v (carousel_items d) (agency_images d).
Definition with_carousel_items (v : gmap Z CarouselItem.t) (d : t) : t :=
  mk (plans d) (agencies d) (contact_messages d) v (agency_images d).
Definition with_agency_images (v : gmap Z AgencyImage.t) (d : t) : t :=
  mk (plans d) (agencies d) (contact_messages d) (carousel_items d) v.
End DB.

(** ** Queries *)

Section Queries.
Context {A : Type}.

(** The rows of a table, in the order the map enumerates them. *)
Definition rows (t : gmap Z A) : list (Z * A) := map_to_list t.

(** [query.filter(p).count()] *)
Definition count_where (p : A → bool) (t : gmap Z A) : nat :=
  length (List.filter (λ r, p r.2) (rows t)).

(** [query.filter(p).first()] *)
Definition first_where (p : A → bool) (t : gmap Z A) : option (Z * A) :=
  head (List.filter (λ r, p r.2) (rows t)).

(** [query.count()] *)
Definition count (t : gmap Z A) : nat := length (rows t).

(** [db.session.query(db.func.max(col)).scalar()]: [None] on an empty
    table. *)
Definition scalar_max (col : A → Z) (t : gmap Z A) : option Z :=
  match rows t with
  | [] => None
  | r :: rs => Some (foldr (λ x m, Z.max (col x.2) m) (col r.2) rs)
  end.

(** The primary key an INSERT gives the new row: one more than the largest
    key of the table, 1 on an empty table. *)
Definition next_id (t : gmap Z A) : Z :=
  1 + foldr (λ x m, Z.max x.1 m) 0 (rows t).

(** [db.session.add(row)] followed by the INSERT. *)
Definition add (row : A) (t : gmap Z A) : gmap Z A :=
  <[next_id t := row]> t.
End Queries.

(** ** Responses *)

(** What a handler answers: [abort(404)] of [get_or_404], a rendered
    template, a redirect or a JSON body with its status code; the flashed
    messages are pairs of message (the translation key, or the literal text)
    and category. *)
Inductive response :=
| Abort (code : Z)
| Render (template : string) (flashes : list (string * string))
| Redirect (endpoint : string) (flashes : list (string * string))
| Json (status : string) (code : Z).

(** ** Requests *)

(** [request.form.get(key, '')] *)
Definition form_get (form : gmap string string) (key : string) : string :=
  default "" (form !! key).

(** [request.files]: every key holds the list of the files sent under it.
    [key in request.files] holds when at least one file was sent. *)
Definition in_files (files : gmap string (list Upload.t)) (key : string) : bool :=
  match files !! key with
  | Some (_ :: _) => true
  | _ => false
  end.

(** [request.files[key]]: the first file of the key. *)
Definition files_get (files : gmap string (list Upload.t)) (key : string)
  : option Upload.t :=
  files !! key ≫= head.

(** [request.files.getlist(key)] *)
Definition files_getlist (files : gmap string (list Upload.t)) (key : string)
  : list Upload.t :=
  default [] (files !! key).

(** ** routes.py *)

(** *** index: the agencies of the homepage

    [Agency.query.join(Plan).filter(Agency.is_active == True)
       .order_by(Plan.name.desc(), Agency.sort_order.asc()).all()] *)

(** [Agency.query.join(Plan)]: an inner join on [Agency.plan_id == Plan.id];
    a row comes out for an agency only together with the plan its [plan_id]
    names. *)
Definition join_plan (db : DB.t) : list ((Z * Agency.t) * Plan.t) :=
  omap (λ r : Z * Agency.t,
          pid ← Agency.plan_id r.2;
          p ← DB.plans db !! pid;
          Some (r, p))
       (rows (DB.agencies db)).

(** [ORDER BY plan.name DESC, agency.sort_order ASC] as a comparison of two
    joined rows; names compare byte by byte. *)
Definition index_le (x y : (Z * Agency.t) * Plan.t) : bool :=
  match String.compare (Plan.name y.2) (Plan.name x.2) with
  | Lt => true
  | Gt => false
  | Eq => Z.leb (Agency.sort_order x.1.2) (Agency.sort_order y.1.2)
  end.

Section OrderBy.
Context {A : Type} (le : A → A → bool).

Fixpoint insert_by (x : A) (l : list A) : list A :=
  match l with
  | [] => [x]
  | y :: l' => if le x y then x :: l else y :: insert_by x l'
  end.

(** A stable sort: rows the ordering does not separate keep the order
    they had. *)
Definition order_by (l : list A) : list A := foldr insert_by [] l.
End OrderBy.

(** The joined rows of the query, filtered and ordered. *)
Definition index_rows (db : DB.t) : list ((Z * Agency.t) * Plan.t) :=
  order_by index_le
    (List.filter (λ r, Agency.is_active r.1.2) (join_plan db)).

(** [agencies] as the template receives it: the agency of every row. *)
Definition index_agencies (db : DB.t) : list (Z * Agency.t) :=
  fst <$> index_rows db.

(** *** contact *)

(** What the handler does outside its response, in order. *)
Inductive event :=
| Commit
| Rollback
| SendEmail (name email phone subject message : string).

Definition contact (method : string) (form : gmap string string)
    (commit_ok email_ok : bool) (db : DB.t)
  : response * DB.t * list event :=
  if String.eqb method "POST" then
    let name := Py.strip (form_get form "name") in
    let email := Py.strip (form_get form "email") in
    let phone := Py.strip (form_get form "phone") in
    let subject := Py.strip (form_get form "subject") in
    let message_text := Py.strip (form_get form "message") in
    if negb (Py.truthy name && Py.truthy email && Py.truthy subject
             && Py.truthy message_text) then
      (Render "contact.html" [("contact_error_required", "error")], db, [])
    else
      let contact_message :=
        ContactMessage.mk name email phone subject message_text false in
      if commit_ok then
        let db' :=
          DB.with_contact_messages
            (add contact_message (DB.contact_messages db)) db in
        let send := SendEmail name email phone subject message_text in
        if email_ok then
          (Redirect "main.contact" [("contact_success", "success")],
           db', [Commit; send])
        else
          (Redirect "main.contact" [("contact_email_error", "warning")],
           db', [Commit; send])
      else
        (Render "contact.html" [("contact_error_save", "error")],
         db, [Rollback])
  else
    (Render "contact.html" [], db, []).

(** ** admin_routes.py *)

(** *** Agencies *)

(** [# Ensure website has protocol] *)
Definition ensure_protocol (website : string) : string :=
  if negb (Py.startswith website "http://" || Py.startswith website "https://")
  then "https://" ++ website
  else website.

(** The logo and cover of [add_agency]: the saved name of the file of
    [key] when one was sent and it is an allowed image. *)
Definition new_upload (files : gmap string (list Upload.t)) (key : string)
  : option string :=
  if in_files files key then
    f ← files_get files key;
    if valid_image f then Upload.saved_as f else None
  else None.

Definition add_agency (method : string) (form : gmap string string)
    (plan_id : option Z) (files : gmap string (list Upload.t))
    (commit_ok : bool) (db : DB.t) : response * DB.t :=
  if String.eqb method "POST" then
    let name := Py.strip (form_get form "name") in
    let city := Py.strip (form_get form "city") in
    let website := Py.strip (form_get form "website") in
    let description := Py.strip (form_get form "description") in
    if negb (Py.truthy name && Py.truthy city && Py.truthy website) then
      (Render "admin/agency_form.html" [("agency_error_required", "error")], db)
    else
      let website := ensure_protocol website in
      let logo_filename := new_upload files "logo" in
      let cover_filename := new_upload files "cover" in
      let max_order :=
        Py.or_zero (scalar_max Agency.sort_order (DB.agencies db)) in
      let agency :=
        Agency.mk name city website logo_filename cover_filename description
                  plan_id true (max_order + 1) in
      if commit_ok then
        (Redirect "admin.agencies" [("agency_add_success", "success")],
         DB.with_agencies (add agency (DB.agencies db)) db)
      else
        (Render "admin/agency_form.html" [("agency_error_save", "error")], db)
  else
    (Render "admin/agency_form.html" [], db).

(** [agency.images]: the relationship is loaded from the table the first
    time the attribute is read and the loaded list is kept on the object
    for the rest of the request; rows inserted later through their
    [agency_id] column do not enter it. [cache] is the list kept on the
    object, [None] before the first read. *)
Definition agency_images_attr (cache : option (list (Z * AgencyImage.t)))
    (agency_id : Z) (table : gmap Z AgencyImage.t)
  : list (Z * AgencyImage.t) :=
  match cache with
  | Some l => l
  | None =>
      List.filter (λ r, Z.eqb (AgencyImage.agency_id r.2) agency_id) (rows table)
  end.

(** The logo and cover of [edit_agency]: replaced by what
    [save_uploaded_file] returns when an allowed image was sent. *)
Definition replace_upload (files : gmap string (list Upload.t)) (key : string)
    (old : option string) : option string :=
  if in_files files key then
    match files_get files key with
    | Some f => if valid_image f then Upload.saved_as f else old
    | None => old
    end
  else old.

(** The loop over [gallery_images] of [edit_agency]. *)
Fixpoint edit_agency_gallery (gallery_files : list Upload.t) (agency_id : Z)
    (name : string) (cache : option (list (Z * AgencyImage.t)))
    (table : gmap Z AgencyImage.t) : gmap Z AgencyImage.t :=
  match gallery_files with
  | [] => table
  | gallery_file :: rest =>
      if valid_image gallery_file then
        match Upload.saved_as gallery_file with
        | Some image_filename =>
            if Py.truthy image_filename then
              let images := agency_images_attr cache agency_id table in
              let agency_image :=
                AgencyImage.mk agency_id image_filename ("Imagen de " ++ name)
                               false (Z.of_nat (length images)) in
              edit_agency_gallery rest agency_id name (Some images)
                                  (add agency_image table)
            else edit_agency_gallery rest agency_id name cache table
        | None => edit_agency_gallery rest agency_id name cache table
        end
      else edit_agency_gallery rest agency_id name cache table
  end.

Definition edit_agency (agency_id : Z) (method : string)
    (form : gmap string string) (plan_id : option Z)
    (files : gmap string (list Upload.t)) (commit_ok : bool) (db : DB.t)
  : response * DB.t :=
  match DB.agencies db !! agency_id with
  | None => (Abort 404, db)
  | Some agency =>
      if String.eqb method "POST" then
        let name := Py.strip (form_get form "name") in
        let city := Py.strip (form_get form "city") in
        let website := Py.strip (form_get form "website") in
        let description := Py.strip (form_get form "description") in
        let is_active := bool_decide (is_Some (form !! "is_active")) in
        if negb (Py.truthy name && Py.truthy city && Py.truthy website) then
          (Render "admin/agency_form.html"
                  [("agency_error_required", "error")], db)
        else
          let website := ensure_protocol website in
          let logo_filename :=
            replace_upload files "logo" (Agency.logo_filename agency) in
          let cover_filename :=
            replace_upload files "cover" (Agency.cover_filename agency) in
          let images :=
            if in_files files "gallery_images" then
              edit_agency_gallery (files_getlist files "gallery_images")
                                  agency_id name None (DB.agency_images db)
            else DB.agency_images db in
          let agency' :=
            Agency.mk name city website logo_filename cover_filename
                      description plan_id is_active
                      (Agency.sort_order agency) in
          if commit_ok then
            (Redirect "admin.agencies" [("agency_edit_success", "success")],
             DB.with_agency_images images
               (DB.with_agencies (<[agency_id := agency']> (DB.agencies db)) db))
          else
            (Render "admin/agency_form.html"
                    [("agency_error_save", "error")], db)
      else
        (Render "admin/agency_form.html" [], db)
  end.

(** The loop [for index, id in enumerate(ids)] of the reorder handlers:
    [row = Model.query.get(id)], and [row.sort_order = index] when there is
    such a row. *)
Fixpoint reorder_loop {A : Type} (set_sort_order : Z → A → A) (index : nat)
    (ids : list Z) (table : gmap Z A) : gmap Z A :=
  match ids with
  | [] => table
  | id :: rest =>
      reorder_loop set_sort_order (S index) rest
        match table !! id with
        | Some row => <[id := set_sort_order (Z.of_nat index) row]> table
        | None => table
        end
  end.

(** [request.get_json()] is the JSON object of the body, a dictionary from
    keys to lists of ids, or [None] when the body holds none; [.get] on
    [None] raises, which the handler answers with status 500. *)
Definition reorder_agencies (json : option (gmap string (list Z)))
    (commit_ok : bool) (db : DB.t) : response * DB.t :=
  match json with
  | None => (Json "error" 500, db)
  | Some body =>
      let agency_ids := default [] (body !! "agency_ids") in
      let table :=
        reorder_loop Agency.with_sort_order 0 agency_ids (DB.agencies db) in
      if commit_ok then (Json "success" 200, DB.with_agencies table db)
      else (Json "error" 500, db)
  end.

(** *** Carousel *)

Definition add_carousel_item (form : gmap string string)
    (files : gmap string (list Upload.t)) (commit_ok : bool) (db : DB.t)
  : response * DB.t :=
  if negb (in_files files "image") then
    (Redirect "admin.carousel" [("No se seleccionó ninguna imagen", "error")], db)
  else
    match files_get files "image" with
    | None =>
        (Redirect "admin.carousel"
                  [("No se seleccionó ninguna imagen", "error")], db)
    | Some image_file =>
        if negb (Py.truthy (Upload.filename image_file)) then
          (Redirect "admin.carousel"
                    [("No se seleccionó ninguna imagen", "error")], db)
        else if negb (allowed_file (Upload.filename image_file)) then
          (Redirect "admin.carousel"
                    [("Formato de imagen no permitido", "error")], db)
        else
          match Upload.saved_as image_file with
          | None =>
              (Redirect "admin.carousel"
                        [("Error al guardar la imagen", "error")], db)
          | Some image_filename =>
              if negb (Py.truthy image_filename) then
                (Redirect "admin.carousel"
                          [("Error al guardar la imagen", "error")], db)
              else
                let item :=
                  CarouselItem.mk image_filename
                    (Py.strip (form_get form "link_url"))
                    (Py.strip (form_get form "alt_text"))
                    true
                    (Z.of_nat (count (DB.carousel_items db))) in
                if commit_ok then
                  (Redirect "admin.carousel"
                     [("Imagen agregada al carrusel exitosamente", "success")],
                   DB.with_carousel_items (add item (DB.carousel_items db)) db)
                else
                  (Redirect "admin.carousel"
                            [("Error al agregar la imagen", "error")], db)
          end
    end.

Definition delete_carousel_item (item_id : Z) (commit_ok : bool) (db : DB.t)
  : response * DB.t :=
  match DB.carousel_items db !! item_id with
  | None => (Abort 404, db)
  | Some item =>
      if commit_ok then
        (Redirect "admin.carousel"
                  [("Imagen eliminada del carrusel exitosamente", "success")],
         DB.with_carousel_items (delete item_id (DB.carousel_items db)) db)
      else
        (Redirect "admin.carousel" [("Error al eliminar la imagen", "error")], db)
  end.

Definition reorder_carousel (json : option (gmap string (list Z)))
    (commit_ok : bool) (db : DB.t) : response * DB.t :=
  match json with
  | None => (Json "error" 500, db)
  | Some body =>
      let item_ids := default [] (body !! "item_ids") in
      let table :=
        reorder_loop CarouselItem.with_sort_order 0 item_ids
                     (DB.carousel_items db) in
      if commit_ok then (Json "success" 200, DB.with_carousel_items table db)
      else (Json "error" 500, db)
  end.

(** *** Agency images *)

(** The loop over the uploaded [images] of [add_agency_images]. The count
    query flushes the rows added so far, so they are counted; the
    [agency.images] attribute is read once and kept (see
    [agency_images_attr]). *)
Fixpoint add_agency_images_loop (images : list Upload.t) (agency_id : Z)
    (alt_text : string) (cache : option (list (Z * AgencyImage.t)))
    (table : gmap Z AgencyImage.t) (added_count : nat)
  : gmap Z AgencyImage.t * nat :=
  match images with
  | [] => (table, added_count)
  | image_file :: rest =>
      if valid_image image_file then
        match Upload.saved_as image_file with
        | Some image_filename =>
            if Py.truthy image_filename then
              let sort_order :=
                count_where
                  (λ i, Z.eqb (AgencyImage.agency_id i) agency_id) table in
              let agency_images := agency_images_attr cache agency_id table in
              let is_primary :=
                match agency_images with [] => true | _ => false end in
              let agency_image :=
                AgencyImage.mk agency_id image_filename alt_text is_primary
                               (Z.of_nat sort_order) in
              add_agency_images_loop rest agency_id alt_text
                (Some agency_images) (add agency_image table) (S added_count)
            else
              add_agency_images_loop rest agency_id alt_text cache table
                                     added_count
        | None =>
            add_agency_images_loop rest agency_id alt_text cache table
                                   added_count
        end
      else
        add_agency_images_loop rest agency_id alt_text cache table added_count
  end.

Definition add_agency_images (agency_id : Z) (form : gmap string string)
    (files : gmap string (list Upload.t)) (commit_ok : bool) (db : DB.t)
  : response * DB.t :=
  match DB.agencies db !! agency_id with
  | None => (Abort 404, db)
  | Some agency =>
      if negb (in_files files "images") then
        (Redirect "admin.agency_images"
                  [("No se seleccionaron imágenes", "error")], db)
      else
        let alt_text :=
          default ("Imagen de " ++ Agency.name agency) (form !! "alt_text") in
        let '(table, added_count) :=
          add_agency_images_loop (files_getlist files "images") agency_id
                                 alt_text None (DB.agency_images db) 0 in
        if (0 <? added_count)%nat then
          if commit_ok then
            (Redirect "admin.agency_images"
               [(pretty added_count ++ " imagen(es) agregada(s) exitosamente",
                 "success")],
             DB.with_agency_images table db)
          else
            (Redirect "admin.agency_images"
                      [("Error al agregar las imágenes", "error")], db)
        else
          (Redirect "admin.agency_images"
                    [("No se agregaron imágenes válidas", "warning")], db)
  end.

Definition set_primary_agency_image (image_id : Z) (commit_ok : bool)
    (db : DB.t) : response * DB.t :=
  match DB.agency_images db !! image_id with
  | None => (Abort 404, db)
  | Some image =>
      let agency_id := AgencyImage.agency_id image in
      (* AgencyImage.query.filter_by(agency_id=agency_id)
           .update({'is_primary': False}) *)
      let cleared :=
        (λ i, if Z.eqb (AgencyImage.agency_id i) agency_id
              then AgencyImage.with_is_primary false i else i)
          <$> DB.agency_images db in
      (* image.is_primary = True *)
      let table := alter (AgencyImage.with_is_primary true) image_id cleared in
      if commit_ok then
        (Redirect "admin.agency_images"
                  [("Imagen principal actualizada", "success")],
         DB.with_agency_images table db)
      else
        (Redirect "admin.agency_images"
                  [("Error al establecer imagen principal", "error")], db)
  end.

(** *** Plans *)

(** [price] is [request.form.get('price', type=float)]: the number the
    field holds, [None] when the field is absent or is not a number. *)
Definition add_plan (method : string) (form : gmap string string)
    (price : option Q) (commit_ok : bool) (db : DB.t) : response * DB.t :=
  if String.eqb method "POST" then
    let name := Py.strip (form_get form "name") in
    let billing_period := default "monthly" (form !! "billing_period") in
    let description := Py.strip (form_get form "description") in
    match price with
    | None =>
        (Render "admin/plan_form.html" [("plan_error_required", "error")], db)
    | Some price =>
        if negb (Py.truthy name) then
          (Render "admin/plan_form.html" [("plan_error_required", "error")], db)
        else
          match first_where (λ p, String.eqb (Plan.name p) name)
                            (DB.plans db) with
          | Some existing_plan =>
              (Render "admin/plan_form.html"
                      [("plan_error_exists", "error")], db)
          | None =>
              let plan := Plan.mk name price billing_period description true in
              if commit_ok then
                (Redirect "admin.plans" [("plan_add_success", "success")],
                 DB.with_plans (add plan (DB.plans db)) db)
              else
                (Render "admin/plan_form.html"
                        [("plan_error_save", "error")], db)
          end
    end
  else
    (Render "admin/plan_form.html" [], db).

Definition delete_plan (plan_id : Z) (commit_ok : bool) (db : DB.t)
  : response * DB.t :=
  match DB.plans db !! plan_id with
  | None => (Abort 404, db)
  | Some plan =>
      let agencies_count :=
        count_where (λ a, bool_decide (Agency.plan_id a = Some plan_id))
                    (DB.agencies db) in
      if (0 <? agencies_count)%nat then
        (Redirect "admin.plans" [("plan_error_in_use", "error")], db)
      else if commit_ok then
        (Redirect "admin.plans" [("plan_delete_success", "success")],
         DB.with_plans (delete plan_id (DB.plans db)) db)
      else
        (Redirect "admin.plans" [("plan_error_delete", "error")], db)
  end.

(** ** More of utils.py *)

Definition ALLOWED_VIDEO_EXTENSIONS : list string := ["mp4"; "webm"; "ogg"].

(** [allowed_video_file(filename)] *)
Definition allowed_video_file (filename : string) : bool :=
  match Py.after_last_dot filename with
  | None => false
  | Some ext => bool_decide (Py.lower ext ∈ ALLOWED_VIDEO_EXTENSIONS)
  end.

(** The [translations] directory: a language code is a key when the file
    [<language>.json] exists; the value is the dictionary of the file, or
    [None] when reading it raises. *)
Definition read_translation (translations_dir : gmap string (option (gmap string string)))
    (key language : string) : option string :=
  match translations_dir !! language with
  | Some (Some translations) => Some (default key (translations !! key))
  | Some None => Some key
  | None => None
  end.

(** [get_translation(key, language)]. The source calls itself once, with
    ['fr'], when the file of [language] does not exist; that call cannot
    call again. *)
Definition get_translation (translations_dir : gmap string (option (gmap string string)))
    (key language : string) : string :=
  match read_translation translations_dir key language with
  | Some value => value
  | None =>
      if negb (String.eqb language "fr")
      then default key (read_translation translations_dir key "fr")
      else key
  end.

(** ** More of models.py *)

Module User.
Record t := mk {
  username : string;
  email : string;
  password_hash : string
}.

Definition with_password_hash (v : string) (u : t) : t :=
  mk (username u) (email u) v.
End User.

Module CarouselSettings.
Record t := mk {
  is_active : bool;
  interval_seconds : Z;
  video_filename : option string;
  show_video : bool
}.

(** [CarouselSettings()] once inserted: the defaults of the columns. *)
Definition default : t := mk true 5 None false.
End CarouselSettings.

(** The database together with the two tables the handlers above do not
    use. *)
Module Site.
Record t := mk {
  db : DB.t;
  users : gmap Z User.t;
  carousel_settings : gmap Z CarouselSettings.t
}.

Definition with_db (v : DB.t) (s : t) : t :=
  mk v (users s) (carousel_settings s).
Definition with_users (v : gmap Z User.t) (s : t) : t :=
  mk (db s) v (carousel_settings s).
Definition with_carousel_settings (v : gmap Z CarouselSettings.t) (s : t) : t :=
  mk (db s) (users s) v.
End Site.

(** Setters of single columns. *)
Definition image_with_sort_order (v : Z) (i : AgencyImage.t) : AgencyImage.t :=
  AgencyImage.mk (AgencyImage.agency_id i) (AgencyImage.image_filename i)
                 (AgencyImage.alt_text i) (AgencyImage.is_primary i) v.

Definition item_with_is_active (v : bool) (i : CarouselItem.t) : CarouselItem.t :=
  CarouselItem.mk (CarouselItem.image_filename i) (CarouselItem.link_url i)
                  (CarouselItem.alt_text i) v (CarouselItem.sort_order i).

Definition message_with_is_read (v : bool) (m : ContactMessage.t)
  : ContactMessage.t :=
  ContactMessage.mk (ContactMessage.name m) (ContactMessage.email m)
                    (ContactMessage.phone m) (ContactMessage.subject m)
                    (ContactMessage.message m) v.

(** [query.first()]: the first row of the table in the order it is
    enumerated. *)
Definition first {A : Type} (t : gmap Z A) : option (Z * A) := head (rows t).

(** ** More of routes.py: the other lists of the homepage *)

(** [ORDER BY plan.price ASC] *)
Definition plan_price_le (x y : Z * Plan.t) : bool :=
  Qle_bool (Plan.price x.2) (Plan.price y.2).

(** [Plan.query.filter_by(is_active=True).order_by(Plan.price.asc()).all()] *)
Definition index_plans (db : DB.t) : list (Z * Plan.t) :=
  order_by plan_price_le
    (List.filter (λ r, Plan.is_active r.2) (rows (DB.plans db))).

(** [ORDER BY carousel_item.sort_order ASC] *)
Definition item_order_le (x y : Z * CarouselItem.t) : bool :=
  Z.leb (CarouselItem.sort_order x.2) (CarouselItem.sort_order y.2).

(** [carousel_items] of [index]: the active items in their order when
    there are settings and they are active, nothing otherwise. *)
Definition index_carousel_items (site : Site.t) : list (Z * CarouselItem.t) :=
  match first (Site.carousel_settings site) with
  | Some (_, carousel_settings) =>
      if CarouselSettings.is_active carousel_settings then
        order_by item_order_le
          (List.filter (λ r, CarouselItem.is_active r.2)
                       (rows (DB.carousel_items (Site.db site))))
      else []
  | None => []
  end.

(** ** More of admin_routes.py *)

(** The [stats] of [dashboard]. *)
Module Stats.
Record t := mk {
  total_agencies : nat;
  active_agencies : nat;
  total_messages : nat;
  unread_messages : nat
}.
End Stats.

Definition dashboard (db : DB.t) : Stats.t :=
  Stats.mk (count (DB.agencies db))
           (count_where Agency.is_active (DB.agencies db))
           (count (DB.contact_messages db))
           (count_where (λ m, negb (ContactMessage.is_read m))
                        (DB.contact_messages db)).

(** [ORDER BY agency.sort_order ASC] *)
Definition agency_order_le (x y : Z * Agency.t) : bool :=
  Z.leb (Agency.sort_order x.2) (Agency.sort_order y.2).

(** [agencies]: [Agency.query.order_by(Agency.sort_order.asc()).all()] *)
Definition agencies (db : DB.t) : list (Z * Agency.t) :=
  order_by agency_order_le (rows (DB.agencies db)).

(** [delete_agency]. [try_ok]: nothing in the [try] block raises, neither
    the removal of the logo and cover files nor the commit. Deleting the
    agency deletes its images with it (the [images] relationship cascades
    [all, delete-orphan]). *)
Definition delete_agency (agency_id : Z) (try_ok : bool) (db : DB.t)
  : response * DB.t :=
  match DB.agencies db !! agency_id with
  | None => (Abort 404, db)
  | Some agency =>
      if try_ok then
        (Redirect "admin.agencies" [("agency_delete_success", "success")],
         DB.with_agency_images
           (filter (λ r : Z * AgencyImage.t,
                      AgencyImage.agency_id r.2 ≠ agency_id)
                   (DB.agency_images db))
           (DB.with_agencies (delete agency_id (DB.agencies db)) db))
      else
        (Redirect "admin.agencies" [("agency_error_delete", "error")], db)
  end.

Definition mark_message_read (message_id : Z) (commit_ok : bool) (db : DB.t)
  : response * DB.t :=
  match DB.contact_messages db !! message_id with
  | None => (Abort 404, db)
  | Some message =>
      if commit_ok then
        (Json "success" 200,
         DB.with_contact_messages
           (<[message_id := message_with_is_read true message]>
              (DB.contact_messages db)) db)
      else (Json "error" 500, db)
  end.

(** [carousel]: the settings are created when the table has none. The
    commit of the new row is not guarded: when it fails the request ends
    with status 500. *)
Definition carousel (commit_ok : bool) (site : Site.t) : response * Site.t :=
  match first (Site.carousel_settings site) with
  | Some settings => (Render "admin/carousel.html" [], site)
  | None =>
      if commit_ok then
        (Render "admin/carousel.html" [],
         Site.with_carousel_settings
           (add CarouselSettings.default (Site.carousel_settings site)) site)
      else (Abort 500, site)
  end.

(** The video of [update_carousel_settings]: replaced by what
    [save_uploaded_file] returns when a file with an allowed video
    extension was sent. *)
Definition replace_video (files : gmap string (list Upload.t))
    (old : option string) : option string :=
  if in_files files "video" then
    match files_get files "video" with
    | Some video_file =>
        if Py.truthy (Upload.filename video_file)
           && allowed_video_file (Upload.filename video_file)
        then Upload.saved_as video_file
        else old
    | None => old
    end
  else old.

(** [update_carousel_settings]. [interval_seconds] is
    [int(request.form.get('interval_seconds', 5))], [None] when [int]
    raises; nothing guards that call, the request then ends with status
    500. *)
Definition update_carousel_settings (form : gmap string string)
    (interval_seconds : option Z) (files : gmap string (list Upload.t))
    (commit_ok : bool) (site : Site.t) : response * Site.t :=
  let table := Site.carousel_settings site in
  let '(key, settings) :=
    match first table with
    | Some r => r
    | None => (next_id table, CarouselSettings.default)
    end in
  match interval_seconds with
  | None => (Abort 500, site)
  | Some interval =>
      let settings' :=
        CarouselSettings.mk
          (bool_decide (form !! "is_active" = Some "on"))
          interval
          (replace_video files (CarouselSettings.video_filename settings))
          (bool_decide (form !! "show_video" = Some "on")) in
      if commit_ok then
        (Redirect "admin.carousel"
           [("Configuración del carrusel actualizada exitosamente", "success")],
         Site.with_carousel_settings (<[key := settings']> table) site)
      else
        (Redirect "admin.carousel"
           [("Error al actualizar la configuración", "error")], site)
  end.

Definition toggle_carousel_item (item_id : Z) (commit_ok : bool) (db : DB.t)
  : response * DB.t :=
  match DB.carousel_items db !! item_id with
  | None => (Abort 404, db)
  | Some item =>
      let is_active := negb (CarouselItem.is_active item) in
      if commit_ok then
        (Redirect "admin.carousel"
           [("Imagen " ++ (if is_active then "activada" else "desactivada")
               ++ " exitosamente", "success")],
         DB.with_carousel_items
           (<[item_id := item_with_is_active is_active item]>
              (DB.carousel_items db)) db)
      else
        (Redirect "admin.carousel"
           [("Error al cambiar el estado de la imagen", "error")], db)
  end.

(** [agency_images]: the images of the agency in their order, [None] for
    the 404 of an unknown agency. *)
Definition image_order_le (x y : Z * AgencyImage.t) : bool :=
  Z.leb (AgencyImage.sort_order x.2) (AgencyImage.sort_order y.2).

Definition agency_images (agency_id : Z) (db : DB.t)
  : option (list (Z * AgencyImage.t)) :=
  match DB.agencies db !! agency_id with
  | None => None
  | Some agency =>
      Some (order_by image_order_le
              (List.filter
                 (λ r, Z.eqb (AgencyImage.agency_id r.2) agency_id)
                 (rows (DB.agency_images db))))
  end.

(** [delete_agency_image]. [try_ok]: nothing in the [try] block raises,
    neither the removal of the file nor the commit. *)
Definition delete_agency_image (image_id : Z) (try_ok : bool) (db : DB.t)
  : response * DB.t :=
  match DB.agency_images db !! image_id with
  | None => (Abort 404, db)
  | Some image =>
      if try_ok then
        (Redirect "admin.agency_images"
                  [("Imagen eliminada exitosamente", "success")],
         DB.with_agency_images (delete image_id (DB.agency_images db)) db)
      else
        (Redirect "admin.agency_images"
                  [("Error al eliminar la imagen", "error")], db)
  end.

(** The loop of [reorder_agency_images]: an image is moved only when it
    belongs to the agency of the request. *)
Fixpoint reorder_images_loop (agency_id : Z) (index : nat) (image_ids : list Z)
    (table : gmap Z AgencyImage.t) : gmap Z AgencyImage.t :=
  match image_ids with
  | [] => table
  | image_id :: rest =>
      reorder_images_loop agency_id (S index) rest
        match table !! image_id with
        | Some image =>
            if Z.eqb (AgencyImage.agency_id image) agency_id
            then <[image_id := image_with_sort_order (Z.of_nat index) image]>
                   table
            else table
        | None => table
        end
  end.

Definition reorder_agency_images (agency_id : Z)
    (json : option (gmap string (list Z))) (commit_ok : bool) (db : DB.t)
  : response * DB.t :=
  match json with
  | None => (Json "error" 500, db)
  | Some body =>
      let image_ids := default [] (body !! "image_ids") in
      let table :=
        reorder_images_loop agency_id 0 image_ids (DB.agency_images db) in
      if commit_ok then (Json "success" 200, DB.with_agency_images table db)
      else (Json "error" 500, db)
  end.

(** [plans]: [Plan.query.order_by(Plan.name.asc()).all()] *)
Definition plan_name_le (x y : Z * Plan.t) : bool :=
  String.leb (Plan.name x.2) (Plan.name y.2).

Definition plans (db : DB.t) : list (Z * Plan.t) :=
  order_by plan_name_le (rows (DB.plans db)).

Definition edit_plan (plan_id : Z) (method : string)
    (form : gmap string string) (price : option Q) (commit_ok : bool)
    (db : DB.t) : response * DB.t :=
  match DB.plans db !! plan_id with
  | None => (Abort 404, db)
  | Some plan =>
      if String.eqb method "POST" then
        let name := Py.strip (form_get form "name") in
        let billing_period := default "monthly" (form !! "billing_period") in
        let description := Py.strip (form_get form "description") in
        let is_active := bool_decide (is_Some (form !! "is_active")) in
        match price with
        | None =>
            (Render "admin/plan_form.html"
                    [("plan_error_required", "error")], db)
        | Some price =>
            if negb (Py.truthy name) then
              (Render "admin/plan_form.html"
                      [("plan_error_required", "error")], db)
            else
              (* Plan.query.filter(Plan.name == name,
                                   Plan.id != plan_id).first() *)
              match head (List.filter
                            (λ r : Z * Plan.t,
                               String.eqb (Plan.name r.2) name
                               && negb (Z.eqb r.1 plan_id))
                            (rows (DB.plans db))) with
              | Some existing_plan =>
                  (Render "admin/plan_form.html"
                          [("plan_error_exists", "error")], db)
              | None =>
                  let plan' :=
                    Plan.mk name price billing_period description is_active in
                  if commit_ok then
                    (Redirect "admin.plans" [("plan_edit_success", "success")],
                     DB.with_plans (<[plan_id := plan']> (DB.plans db)) db)
                  else
                    (Render "admin/plan_form.html"
                            [("plan_error_save", "error")], db)
              end
        end
      else
        (Render "admin/plan_form.html" [], db)
  end.

(** ** admin_routes.py: the password of the administrator *)

(** [len(s)] of a Python string held as UTF-8 bytes: the bytes that do not
    continue a character (those outside 128-191). *)
Fixpoint py_len (s : string) : nat :=
  match s with
  | EmptyString => 0
  | String c r =>
      let n := nat_of_ascii c in
      if ((128 <=? n)%nat && (n <=? 191)%nat) then py_len r else S (py_len r)
  end.

(** [not s] for the value of [request.form.get(key)]. *)
Definition form_blank (value : option string) : bool :=
  match value with
  | None => true
  | Some s => negb (Py.truthy s)
  end.

Section Passwords.
(** The two functions of [werkzeug.security]; [generate_password_hash] is
    the one of this request, its salt drawn. *)
Variable generate_password_hash : string → string.
Variable check_password_hash : string → string → bool.

(** [password_change]. [current_user] is the user of the session; without
    one, or when its row is gone, [login_required] sends the request to
    the login page. *)
Definition password_change (current_user : option Z) (method : string)
    (form : gmap string string) (commit_ok : bool) (site : Site.t)
  : response * Site.t :=
  match current_user ≫= (λ k, (k,.) <$> Site.users site !! k) with
  | None =>
      (Redirect "admin.login"
         [("Veuillez vous connecter pour accéder à cette page.", "message")],
       site)
  | Some (user_id, user) =>
      if String.eqb method "POST" then
        let current_password := form !! "current_password" in
        let new_password := form !! "new_password" in
        let confirm_password := form !! "confirm_password" in
        if form_blank current_password || form_blank new_password
           || form_blank confirm_password then
          (Render "admin/password_change.html"
                  [("Todos los campos son obligatorios", "error")], site)
        else if (py_len (default "" new_password) <? 6)%nat then
          (Render "admin/password_change.html"
             [("La nueva contraseña debe tener al menos 6 caracteres",
               "error")], site)
        else if negb (String.eqb (default "" new_password)
                                 (default "" confirm_password)) then
          (Render "admin/password_change.html"
                  [("Las contraseñas no coinciden", "error")], site)
        else if negb (check_password_hash (User.password_hash user)
                                          (default "" current_password)) then
          (Render "admin/password_change.html"
                  [("La contraseña actual es incorrecta", "error")], site)
        else if commit_ok then
          (Render "admin/password_change.html"
                  [("Contraseña actualizada exitosamente", "success")],
           Site.with_users
             (<[user_id :=
                  User.with_password_hash
                    (generate_password_hash (default "" new_password)) user]>
                (Site.users site)) site)
        else
          (Render "admin/password_change.html"
                  [("Error al actualizar la contraseña", "error")], site)
      else
        (Render "admin/password_change.html" [], site)
  end.
End Passwords.

(** ** auto_setup.py: the default rows *)

(** [create_default_plans]: two plans, when the table has none. *)
Definition create_default_plans (db : DB.t) : DB.t :=
  if (count (DB.plans db) =? 0)%nat then
    DB.with_plans
      (add (Plan.mk "Premium" (19 # 1) "monthly"
              "Fiche agence mise en avant
Logo et images personnalisés
Support prioritaire
Statistiques de visite" true)
         (add (Plan.mk "Basic" (9 # 1) "monthly"
                 "Fiche agence standard
Lien vers votre site
Support email" true)
              (DB.plans db)))
      db
  else db.

(** [Plan.query.filter_by(name=name).first()], then [.id] or [None]. *)
Definition plan_id_by_name (name : string) (db : DB.t) : option Z :=
  fst <$> first_where (λ p, String.eqb (Plan.name p) name) (DB.plans db).

(** [create_sample_agencies]: four agencies, when the table has none. *)
Definition create_sample_agencies (db : DB.t) : DB.t :=
  if (count (DB.agencies db) =? 0)%nat then
    let basic_plan := plan_id_by_name "Basic" db in
    let premium_plan := plan_id_by_name "Premium" db in
    let sample (name city website description : string) (plan_id : option Z)
               (sort_order : Z) : Agency.t :=
      Agency.mk name city website None None description plan_id true
                sort_order in
    DB.with_agencies
      (add (sample "Côte Bleue Immobilier" "Martigues"
              "https://example-agency4.com" "Spécialiste de la Côte Bleue"
              basic_plan 4)
         (add (sample "Provence Immobilier" "Aix-en-Provence"
                 "https://example-agency3.com"
                 "Immobilier de prestige en Provence" premium_plan 3)
            (add (sample "Agence du Vieux Port" "Marseille"
                    "https://example-agency2.com"
                    "Votre partenaire immobilier près du Vieux Port"
                    basic_plan 2)
               (add (sample "Immobilier Marseille Centre" "Marseille"
                       "https://example-agency1.com"
                       "Spécialiste de l'immobilier dans le centre de Marseille"
                       premium_plan 1)
                    (DB.agencies db)))))
      db
  else db.

(** The rows [initialize_application] creates in the tables above, in its
    order: plans, then agencies. *)
Definition initialize_application (db : DB.t) : DB.t :=
  create_sample_agencies (create_default_plans db).

(** * Vocabulary of the statements

    The conditions under which a request succeeds, the rows the handlers
    build, runs of requests, and the states and requests of the examples. *)

(** ** Contact form *)

(** The required fields of the form are there: what
    [all([name, email, subject, message_text])] tests. *)
Definition contact_valid (form : gmap string string) : Prop :=
  Py.truthy (Py.strip (form_get form "name")) = true
  ∧ Py.truthy (Py.strip (form_get form "email")) = true
  ∧ Py.truthy (Py.strip (form_get form "subject")) = true
  ∧ Py.truthy (Py.strip (form_get form "message")) = true.

(** The row the handler builds from the form; [is_read] is the default of
    the column. *)
Definition contact_row (form : gmap string string) : ContactMessage.t :=
  ContactMessage.mk (Py.strip (form_get form "name"))
                    (Py.strip (form_get form "email"))
                    (Py.strip (form_get form "phone"))
                    (Py.strip (form_get form "subject"))
                    (Py.strip (form_get form "message")) false.

(** The call of [send_contact_email] for the form. *)
Definition contact_email (form : gmap string string) : event :=
  SendEmail (Py.strip (form_get form "name"))
            (Py.strip (form_get form "email"))
            (Py.strip (form_get form "phone"))
            (Py.strip (form_get form "subject"))
            (Py.strip (form_get form "message")).

(** ** Agencies *)

(** The required fields of the agency form are there: what
    [all([name, city, website])] tests. *)
Definition agency_form_valid (form : gmap string string) : Prop :=
  Py.truthy (Py.strip (form_get form "name")) = true
  ∧ Py.truthy (Py.strip (form_get form "city")) = true
  ∧ Py.truthy (Py.strip (form_get form "website")) = true.

(** The agency [add_agency] builds. *)
Definition new_agency (form : gmap string string) (plan_id : option Z)
    (files : gmap string (list Upload.t)) (db : DB.t) : Agency.t :=
  Agency.mk (Py.strip (form_get form "name"))
            (Py.strip (form_get form "city"))
            (ensure_protocol (Py.strip (form_get form "website")))
            (new_upload files "logo") (new_upload files "cover")
            (Py.strip (form_get form "description"))
            plan_id true
            (Py.or_zero (scalar_max Agency.sort_order (DB.agencies db)) + 1).

(** A request of [add_agency]: the form, the converted [plan_id] and the
    uploaded files. *)
Definition agency_request : Type :=
  gmap string string * option Z * gmap string (list Upload.t).

(** Agency creations one after the other, each committed. *)
Definition add_agencies (requests : list agency_request) (db : DB.t) : DB.t :=
  foldl (λ d r, (add_agency "POST" r.1.1 r.1.2 r.2 true d).2) db requests.

(** The words of the specification, "the supplied value carries a scheme",
    read as: the value starts with a scheme name (a letter, then letters,
    digits, [+], [-] or [.]) followed by [://]. Not taken from the code. *)
Definition is_letter (c : ascii) : bool :=
  let n := nat_of_ascii c in
  ((65 <=? n)%nat && (n <=? 90)%nat) || ((97 <=? n)%nat && (n <=? 122)%nat).

Definition is_scheme_char (c : ascii) : bool :=
  let n := nat_of_ascii c in
  is_letter c || ((48 <=? n)%nat && (n <=? 57)%nat)
  || (n =? 43)%nat || (n =? 45)%nat || (n =? 46)%nat.

Fixpoint after_scheme_name (s : string) : string :=
  match s with
  | EmptyString => EmptyString
  | String c r => if is_scheme_char c then after_scheme_name r else s
  end.

Definition carries_scheme (s : string) : bool :=
  match s with
  | EmptyString => false
  | String c r => is_letter c && String.prefix "://" (after_scheme_name r)
  end.

(** ** Reordering *)

(** The last position of [k] in [ids]. *)
Fixpoint last_position (k : Z) (ids : list Z) : option nat :=
  match ids with
  | [] => None
  | id :: rest =>
      match last_position k rest with
      | Some i => Some (S i)
      | None => if decide (id = k) then Some 0%nat else None
      end
  end.

(** ** Carousel items *)

(** The request carries an image that passes every test of
    [add_carousel_item] and is saved as [image_filename]. *)
Definition carousel_upload_ok (files : gmap string (list Upload.t))
    (image_filename : string) : Prop :=
  ∃ image_file,
    files_get files "image" = Some image_file
    ∧ Py.truthy (Upload.filename image_file) = true
    ∧ allowed_file (Upload.filename image_file) = true
    ∧ Upload.saved_as image_file = Some image_filename
    ∧ Py.truthy image_filename = true.

(** The item [add_carousel_item] builds. *)
Definition new_carousel_item (form : gmap string string)
    (image_filename : string) (db : DB.t) : CarouselItem.t :=
  CarouselItem.mk image_filename
                  (Py.strip (form_get form "link_url"))
                  (Py.strip (form_get form "alt_text"))
                  true
                  (Z.of_nat (count (DB.carousel_items db))).

(** A request of [add_carousel_item]: the form and the uploaded files. *)
Definition carousel_request : Type :=
  gmap string string * gmap string (list Upload.t).

(** Carousel items added one after the other, each committed. *)
Definition add_carousel_items (requests : list carousel_request) (db : DB.t)
  : DB.t :=
  foldl (λ d r, (add_carousel_item r.1 r.2 true d).2) db requests.

(** ** Agency images *)

(** The images of one agency that are flagged primary:
    [filter_by(agency_id=agency_id, is_primary=True)]. *)
Definition primary_of (agency_id : Z) (i : AgencyImage.t) : bool :=
  Z.eqb (AgencyImage.agency_id i) agency_id && AgencyImage.is_primary i.

(** ** States and requests of the examples *)

(** An active agency created without a plan. *)
Definition agency_without_plan : Agency.t :=
  Agency.mk "Agence du Port" "Marseille" "https://port.example" None None ""
            None true 1.

(** The two plans of the initial setup and the agency without a plan. *)
Definition db_agency_without_plan : DB.t :=
  DB.with_agencies {[ 1 := agency_without_plan ]}
    (DB.with_plans
       {[ 1 := Plan.mk "Basic" (99 # 1) "yearly" "" true;
          2 := Plan.mk "Premium" (199 # 1) "yearly" "" true ]}
       DB.empty).

(** Two plans, and one agency on the second. *)
Definition db_plan_in_use : DB.t :=
  DB.with_agencies
    {[ 1 := Agency.mk "A" "Marseille" "https://a.example" None None ""
                      (Some 2) true 1 ]}
    (DB.with_plans
       {[ 1 := Plan.mk "Basic" (99 # 1) "yearly" "" true;
          2 := Plan.mk "Premium" (199 # 1) "yearly" "" true ]}
       DB.empty).

(** An agency form with the three required fields. *)
Definition agency_form_example (name website : string) : gmap string string :=
  {[ "name" := name; "city" := "Marseille"; "website" := website ]}.

(** Two images of agency 1, one of agency 2. *)
Definition db_two_agencies_images : DB.t :=
  DB.with_agency_images
    {[ 1 := AgencyImage.mk 1 "a.png" "" true 0;
       2 := AgencyImage.mk 1 "b.png" "" false 1;
       3 := AgencyImage.mk 2 "c.png" "" true 0 ]}
    DB.empty.

Definition carousel_item_example (image : string) (sort_order : Z)
  : CarouselItem.t :=
  CarouselItem.mk image "" "" true sort_order.

(** Three agencies in the order of their keys. *)
Definition db_three_agencies : DB.t :=
  DB.with_agencies
    {[ 1 := Agency.mk "Agence A" "Marseille" "https://a.example" None None ""
                      None true 0;
       2 := Agency.mk "Agence B" "Aix" "https://b.example" None None ""
                      None true 1;
       3 := Agency.mk "Agence C" "Cassis" "https://c.example" None None ""
                      None false 2 ]}
    DB.empty.

(** Four carousel items in the order of their keys. *)
Definition db_four_items : DB.t :=
  DB.with_carousel_items
    {[ 1 := carousel_item_example "a.png" 0;
       2 := carousel_item_example "b.png" 1;
       3 := carousel_item_example "c.png" 2;
       4 := carousel_item_example "d.png" 3 ]}
    DB.empty.

(** An upload of one allowed image for the carousel. *)
Definition carousel_upload_example : gmap string (list Upload.t) :=
  {[ "image" := [Upload.mk "photo.png" (Some "0f3c.png")] ]}.

(** The state after three items were added and the first two deleted. *)
Definition db_after_two_deletes : DB.t :=
  (delete_carousel_item 2 true
     (delete_carousel_item 1 true
        (add_carousel_items
           [(∅, carousel_upload_example); (∅, carousel_upload_example);
            (∅, carousel_upload_example)]
           DB.empty)).2).2.

(** Agency 1, which has no image. *)
Definition db_agency_no_images : DB.t :=
  DB.with_agencies
    {[ 1 := Agency.mk "Agence du Port" "Marseille" "https://port.example"
                      None None "" None true 1 ]}
    DB.empty.

(** One request that uploads two allowed images. *)
Definition two_images_upload : gmap string (list Upload.t) :=
  {[ "images" := [Upload.mk "front.png" (Some "a1.png");
                  Upload.mk "garden.jpg" (Some "b2.jpg")] ]}.

(** ** Vocabulary of the further properties *)

Definition db_one_message : DB.t :=
  DB.with_contact_messages
    {[ 1 := ContactMessage.mk "Ana" "ana@example.com" "" "Visite" "Bonjour"
                              false ]}
    DB.empty.

(** Every image belongs to an agency of the table. *)
Definition images_owned (db : DB.t) : Prop :=
  ∀ k i, DB.agency_images db !! k = Some i →
         is_Some (DB.agencies db !! AgencyImage.agency_id i).

Definition db_agency_with_images : DB.t :=
  DB.with_agencies
    {[ 1 := Agency.mk "A" "Marseille" "https://a.example" None None "" None
                      true 1;
       2 := Agency.mk "B" "Aix" "https://b.example" None None "" None true 2 ]}
    db_two_agencies_images.

(** What one step of the loop does to an image. *)
Definition move_owned (agency_id : Z) (v : Z) (i : AgencyImage.t)
  : AgencyImage.t :=
  if Z.eqb (AgencyImage.agency_id i) agency_id
  then image_with_sort_order v i else i.

(** No two plans have the same name. *)
Definition plan_names_unique (db : DB.t) : Prop :=
  ∀ k1 k2 p1 p2,
    DB.plans db !! k1 = Some p1 → DB.plans db !! k2 = Some p2 →
    Plan.name p1 = Plan.name p2 → k1 = k2.

(** Every [plan_id] of an agency names a plan of the table. *)
Definition plan_refs_valid (db : DB.t) : Prop :=
  ∀ k a pid,
    DB.agencies db !! k = Some a → Agency.plan_id a = Some pid →
    is_Some (DB.plans db !! pid).

(** The agency [edit_agency] writes back. *)
Definition edited_agency (form : gmap string string) (plan_id : option Z)
    (files : gmap string (list Upload.t)) (agency : Agency.t) : Agency.t :=
  Agency.mk (Py.strip (form_get form "name"))
            (Py.strip (form_get form "city"))
            (ensure_protocol (Py.strip (form_get form "website")))
            (replace_upload files "logo" (Agency.logo_filename agency))
            (replace_upload files "cover" (Agency.cover_filename agency))
            (Py.strip (form_get form "description"))
            plan_id
            (bool_decide (is_Some (form !! "is_active")))
            (Agency.sort_order agency).

(** The image table [edit_agency] writes back. *)
Definition edited_images (form : gmap string string)
    (files : gmap string (list Upload.t)) (agency_id : Z) (db : DB.t)
  : gmap Z AgencyImage.t :=
  if in_files files "gallery_images" then
    edit_agency_gallery (files_getlist files "gallery_images") agency_id
                        (Py.strip (form_get form "name")) None
                        (DB.agency_images db)
  else DB.agency_images db.

(** The test of [ensure_protocol]. *)
Definition has_protocol (website : string) : bool :=
  Py.startswith website "http://" || Py.startswith website "https://".

(** The website of every agency starts with [http://] or [https://]. *)
Definition websites_have_protocol (db : DB.t) : Prop :=
  ∀ k a, DB.agencies db !! k = Some a →
         has_protocol (Agency.website a) = true.

(** The string is empty or made of white space characters only. *)
Inductive all_space : string → Prop :=
| all_space_nil : all_space ""
| all_space_cons (w s : string) :
    w ∈ Py.WHITESPACE → all_space s → all_space (w ++ s).

(** The name under which an upload is saved, when it passes the tests of
    the loop: an allowed image that [save_uploaded_file] saved. *)
Definition usable_upload (f : Upload.t) : option string :=
  if valid_image f then
    match Upload.saved_as f with
    | Some image_filename =>
        if Py.truthy image_filename then Some image_filename else None
    | None => None
    end
  else None.

Definition saved_names (files : list Upload.t) : list string :=
  omap usable_upload files.

(** The settings [update_carousel_settings] writes from the form. *)
Definition updated_settings (form : gmap string string) (interval : Z)
    (files : gmap string (list Upload.t)) (old : CarouselSettings.t)
  : CarouselSettings.t :=
  CarouselSettings.mk (bool_decide (form !! "is_active" = Some "on"))
                      interval
                      (replace_video files (CarouselSettings.video_filename old))
                      (bool_decide (form !! "show_video" = Some "on")).

(** The name contains a dot: ['.' in filename]. *)
Fixpoint has_dot (s : string) : bool :=
  match s with
  | EmptyString => false
  | String c r => Ascii.eqb c "."%char || has_dot r
  end.

(** The two functions of [werkzeug.security] of the examples: a hash that
    can be read, and its check. *)
Definition example_hash (password : string) : string :=
  "pbkdf2:" ++ password.

Definition example_check (pwhash password : string) : bool :=
  String.eqb pwhash (example_hash password).

(** A site with its administrator. *)
Definition site_one_admin : Site.t :=
  Site.mk DB.empty
          {[ 1 := User.mk "admin" "admin@example.com"
                          (example_hash "admin123") ]}
          ∅.

(** The form of a password change. *)
Definition password_form (current_password new_password confirm_password : string)
  : gmap string string :=
  {[ "current_password" := current_password;
     "new_password" := new_password;
     "confirm_password" := confirm_password ]}.

(** * Properties of the queries *)

Section QueryFacts.
Context {A : Type}.
Implicit Types (t : gmap Z A) (k : Z) (row : A).

Lemma rows_lookup t k row : (k, row) ∈ rows t ↔ t !! k = Some row.
Proof. apply elem_of_map_to_list. Qed.

Lemma rows_nil t : rows t = [] ↔ t = ∅.
Proof.
  split; [apply map_to_list_empty_iff|].
  intros ->. apply map_to_list_empty.
Qed.

Lemma foldr_max_lower {B} (f : B → Z) b (l : list B) :
  b ≤ foldr (λ x m, Z.max (f x) m) b l.
Proof. induction l as [|y l IH]; simpl; lia. Qed.

Lemma foldr_max_upper {B} (f : B → Z) b (l : list B) x :
  x ∈ l → f x ≤ foldr (λ x m, Z.max (f x) m) b l.
Proof.
  induction l as [|y l IH]; simpl.
  - intros H. by apply elem_of_nil in H.
  - intros [->|H]%elem_of_cons; [lia|]. specialize (IH H). lia.
Qed.

Lemma foldr_max_attained {B} (f : B → Z) b (l : list B) :
  foldr (λ x m, Z.max (f x) m) b l = b
  ∨ ∃ x, x ∈ l ∧ foldr (λ x m, Z.max (f x) m) b l = f x.
Proof.
  induction l as [|y l IH]; simpl; [by left|].
  destruct (Z.max_spec (f y) (foldr (λ x m, Z.max (f x) m) b l))
    as [[_ ->]|[_ ->]].
  - destruct IH as [IH|(x & Hx & IH)]; [by left|].
    right. exists x. split; [by apply elem_of_cons; right|done].
  - right. exists y. split; [apply elem_of_cons; by left|done].
Qed.

(** Every key of the table is below the next key. *)
Lemma next_id_above t k row : t !! k = Some row → k < next_id t.
Proof.
  intros H%rows_lookup. unfold next_id.
  pose proof (foldr_max_upper (λ x : Z * A, x.1) 0 (rows t) _ H) as Hle.
  simpl in Hle. lia.
Qed.

Lemma next_id_fresh t : t !! next_id t = None.
Proof.
  destruct (t !! next_id t) as [row|] eqn:E; [|done].
  apply next_id_above in E. lia.
Qed.

Lemma next_id_positive t : 0 < next_id t.
Proof.
  unfold next_id.
  pose proof (foldr_max_lower (λ x : Z * A, x.1) 0 (rows t)). lia.
Qed.

Lemma lookup_add_new t row : add row t !! next_id t = Some row.
Proof. apply lookup_insert_eq. Qed.

Lemma lookup_add_old t row k r :
  t !! k = Some r → add row t !! k = Some r.
Proof.
  intros H. unfold add. rewrite lookup_insert_ne; [done|].
  apply next_id_above in H. lia.
Qed.

Lemma lookup_add t row k r :
  add row t !! k = Some r ↔ (k = next_id t ∧ r = row) ∨ t !! k = Some r.
Proof.
  unfold add. rewrite lookup_insert. case_decide as Hk.
  - subst k. rewrite next_id_fresh. split.
    + intros [= ->]. by left.
    + intros [[_ ->]|?]; [done|discriminate].
  - split; [by right|]. intros [[-> _]|?]; [congruence|done].
Qed.

Lemma count_size t : count t = size t.
Proof. unfold count, rows. by rewrite length_map_to_list. Qed.

Lemma count_add t row : count (add row t) = S (count t).
Proof.
  rewrite !count_size. apply map_size_insert_None, next_id_fresh.
Qed.

Lemma filter_nil_iff {B} (p : B → bool) (l : list B) :
  List.filter p l = [] ↔ ∀ x, x ∈ l → p x = false.
Proof.
  induction l as [|y l IH]; simpl.
  - split; [|done]. intros _ x H. by apply elem_of_nil in H.
  - destruct (p y) eqn:E.
    + split; [done|]. intros H. specialize (H y). rewrite E in H.
      discriminate H. apply elem_of_cons. by left.
    + rewrite IH. split.
      * intros H x [->|Hx]%elem_of_cons; auto.
      * intros H x Hx. apply H. apply elem_of_cons. by right.
Qed.

(** A counting query is zero exactly when no row passes the filter. *)
Lemma count_where_zero (p : A → bool) t :
  count_where p t = 0%nat ↔ ∀ k row, t !! k = Some row → p row = false.
Proof.
  unfold count_where. rewrite length_zero_iff_nil, filter_nil_iff. split.
  - intros H k row Hk. apply (H (k, row)). by apply rows_lookup.
  - intros H [k row] Hk. apply (H k). by apply rows_lookup.
Qed.

Lemma count_where_pos (p : A → bool) t :
  (0 < count_where p t)%nat ↔ ∃ k row, t !! k = Some row ∧ p row = true.
Proof.
  split.
  - intros Hpos.
    destruct (List.filter (λ r, p r.2) (rows t)) as [|[k row] l] eqn:E.
    { unfold count_where in Hpos. rewrite E in Hpos. simpl in Hpos. lia. }
    assert (In (k, row) (List.filter (λ r, p r.2) (rows t))) as Hin
      by (rewrite E; by left).
    apply filter_In in Hin as [Hin Hp]. exists k, row. split; [|done].
    by apply rows_lookup, list_elem_of_In.
  - intros (k & row & Hk & Hp).
    destruct (count_where p t) eqn:E; [|lia].
    apply count_where_zero with (k := k) (row := row) in E; congruence.
Qed.

Lemma first_where_None (p : A → bool) t :
  first_where p t = None ↔ ∀ k row, t !! k = Some row → p row = false.
Proof.
  rewrite <- count_where_zero. unfold first_where, count_where.
  by destruct (List.filter _ _).
Qed.

(** [MAX(col)] is [NULL] exactly on the empty table; otherwise it is the
    column of some row and no row has a larger one. *)
Lemma scalar_max_None (col : A → Z) t : scalar_max col t = None ↔ t = ∅.
Proof.
  unfold scalar_max. rewrite <- rows_nil. by destruct (rows t).
Qed.

Lemma scalar_max_Some (col : A → Z) t m :
  scalar_max col t = Some m →
  (∃ k row, t !! k = Some row ∧ col row = m)
  ∧ (∀ k row, t !! k = Some row → col row ≤ m).
Proof.
  unfold scalar_max. destruct (rows t) as [|[k0 r0] rs] eqn:E; [done|].
  intros [= <-]. simpl. split.
  - destruct (foldr_max_attained (λ x : Z * A, col x.2) (col r0) rs)
      as [->|([k row] & Hx & ->)].
    + exists k0, r0. split; [|done]. apply rows_lookup. rewrite E.
      apply elem_of_cons. by left.
    + exists k, row. split; [|done]. apply rows_lookup. rewrite E.
      apply elem_of_cons. by right.
  - intros k row H%rows_lookup. rewrite E in H.
    apply elem_of_cons in H as [[= -> ->]|H].
    + apply (foldr_max_lower (λ x : Z * A, col x.2)).
    + apply (foldr_max_upper (λ x : Z * A, col x.2) _ _ _ H).
Qed.
End QueryFacts.

(** * The homepage listing *)

Section OrderByFacts.
Context {A : Type} (le : A → A → bool).
Hypothesis le_total : ∀ x y, le x y = false → le y x = true.

Lemma insert_by_elem x y l : y ∈ insert_by le x l ↔ y = x ∨ y ∈ l.
Proof.
  induction l as [|z l IH]; simpl.
  - rewrite list_elem_of_singleton. split; [by left|].
    intros [?|H]; [done|]. by apply elem_of_nil in H.
  - destruct (le x z).
    + by rewrite elem_of_cons.
    + rewrite !elem_of_cons, IH. tauto.
Qed.

Lemma order_by_elem y l : y ∈ order_by le l ↔ y ∈ l.
Proof.
  induction l as [|z l IH]; simpl; [done|].
  by rewrite insert_by_elem, elem_of_cons, IH.
Qed.

Lemma insert_by_length x l : length (insert_by le x l) = S (length l).
Proof.
  induction l as [|z l IH]; simpl; [done|].
  destruct (le x z); simpl; by rewrite ?IH.
Qed.

Lemma insert_by_sorted x l :
  Sorted (λ a b, le a b = true) l →
  Sorted (λ a b, le a b = true) (insert_by le x l).
Proof.
  induction 1 as [|z l Hs IH Hhd]; simpl.
  - repeat constructor.
  - destruct (le x z) eqn:E.
    + constructor; [by constructor|by constructor].
    + constructor; [done|].
      destruct l as [|w l]; simpl.
      * constructor. by apply le_total.
      * inversion Hhd; subst. destruct (le x w); constructor;
          [by apply le_total|done].
Qed.

Lemma order_by_sorted l : Sorted (λ a b, le a b = true) (order_by le l).
Proof.
  induction l as [|z l IH]; simpl; [constructor|by apply insert_by_sorted].
Qed.
End OrderByFacts.

Lemma index_le_total x y : index_le x y = false → index_le y x = true.
Proof.
  unfold index_le.
  rewrite (String.compare_antisym (Plan.name y.2) (Plan.name x.2)).
  destruct (String.compare (Plan.name x.2) (Plan.name y.2)); simpl;
    try done.
  intros H%Z.leb_gt. apply Z.leb_le. lia.
Qed.

Lemma join_plan_elem db k a p :
  ((k, a), p) ∈ join_plan db ↔
  DB.agencies db !! k = Some a
  ∧ ∃ pid, Agency.plan_id a = Some pid ∧ DB.plans db !! pid = Some p.
Proof.
  unfold join_plan. rewrite list_elem_of_omap. split.
  - intros ([k' a'] & Hin%rows_lookup & Hj). simpl in Hj.
    destruct (Agency.plan_id a') as [pid|] eqn:Ep; [|done]. simpl in Hj.
    destruct (DB.plans db !! pid) as [p'|] eqn:El; [|done].
    simpl in Hj. injection Hj as -> -> ->. eauto.
  - intros (Hk & pid & Ep & El). exists (k, a). split; [by apply rows_lookup|].
    simpl. rewrite Ep. simpl. by rewrite El.
Qed.

(** The rows of the homepage query are the active agencies whose [plan_id]
    names a plan of the table, each with that plan. *)
Lemma index_rows_elem db k a p :
  ((k, a), p) ∈ index_rows db ↔
  DB.agencies db !! k = Some a ∧ Agency.is_active a = true
  ∧ ∃ pid, Agency.plan_id a = Some pid ∧ DB.plans db !! pid = Some p.
Proof.
  unfold index_rows.
  rewrite order_by_elem, list_elem_of_In, filter_In, <- list_elem_of_In.
  rewrite join_plan_elem. simpl. tauto.
Qed.

(** The agencies the homepage lists. *)
Lemma index_agencies_elem db k a :
  (k, a) ∈ index_agencies db ↔
  DB.agencies db !! k = Some a ∧ Agency.is_active a = true
  ∧ ∃ pid p, Agency.plan_id a = Some pid ∧ DB.plans db !! pid = Some p.
Proof.
  unfold index_agencies. rewrite list_elem_of_fmap. split.
  - intros ([[k' a'] p] & [= -> ->] & H%index_rows_elem).
    destruct H as (? & ? & pid & ? & ?). eauto 10.
  - intros (Hk & Ha & pid & p & Ep & El). exists ((k, a), p).
    split; [done|]. apply index_rows_elem. eauto 10.
Qed.

(** The listing is ordered: of two neighbours, the first has the greater
    plan name, or the same plan name and a [sort_order] that is not
    greater. *)
Lemma index_rows_sorted db :
  Sorted (λ x y, index_le x y = true) (index_rows db).
Proof. apply order_by_sorted, index_le_total. Qed.

(** An agency with no plan is on no homepage, active or not. *)
Lemma index_agencies_no_plan db k a :
  Agency.plan_id a = None → (k, a) ∉ index_agencies db.
Proof.
  intros Hn (_ & _ & pid & p & Hp & _)%index_agencies_elem. congruence.
Qed.

(** C1 (the code departs from the claim). The claim: the homepage lists
    exactly the active agencies, those without a plan included. On the
    state with the single active agency 1, which has no plan, the listing of
    [index] is empty: the agency is persisted and active, and it is not
    listed. *)
Theorem index_drops_agency_without_plan :
  DB.agencies db_agency_without_plan !! 1 = Some agency_without_plan
  ∧ Agency.is_active agency_without_plan = true
  ∧ Agency.plan_id agency_without_plan = None
  ∧ index_agencies db_agency_without_plan = [].
Proof. repeat split; vm_compute; reflexivity. Qed.

(** * The contact form *)

(** C10. A valid submission whose commit succeeds stores the message,
    unread, under a new key and keeps every older message, whatever the
    email send returns; the commit comes before the send in the order of
    effects; the send decides only the flashed message (success or
    warning), the response is the same redirect. When the commit fails no
    email is attempted. *)
Theorem contact_commit_precedes_email (form : gmap string string) (db : DB.t) :
  contact_valid form →
  let stored :=
    DB.with_contact_messages
      (add (contact_row form) (DB.contact_messages db)) db in
  (∀ email_ok,
     (contact "POST" form true email_ok db).1.2 = stored
     ∧ (contact "POST" form true email_ok db).2
       = [Commit; contact_email form])
  ∧ DB.contact_messages stored !! next_id (DB.contact_messages db)
    = Some (contact_row form)
  ∧ ContactMessage.is_read (contact_row form) = false
  ∧ (∀ k m, DB.contact_messages db !! k = Some m →
            DB.contact_messages stored !! k = Some m)
  ∧ (contact "POST" form true true db).1.1
    = Redirect "main.contact" [("contact_success", "success")]
  ∧ (contact "POST" form true false db).1.1
    = Redirect "main.contact" [("contact_email_error", "warning")]
  ∧ (∀ email_ok,
       contact "POST" form false email_ok db
       = (Render "contact.html" [("contact_error_save", "error")], db,
          [Rollback])).
Proof.
  intros (Hn & He & Hs & Hm). unfold contact. simpl.
  rewrite Hn, He, Hs, Hm. simpl. repeat split.
  - by destruct email_ok.
  - by destruct email_ok.
  - apply lookup_add_new.
  - intros k m. apply lookup_add_old.
Qed.

Lemma contact_commit_precedes_email_witness :
  let form : gmap string string :=
    {[ "name" := "Ana"; "email" := "ana@example.com";
       "subject" := "Visite"; "message" := " Bonjour " ]} in
  (contact "POST" form true false DB.empty).2
  = [Commit; contact_email form].
Proof.
  intros form.
  apply (contact_commit_precedes_email form DB.empty).
  repeat split; vm_compute; reflexivity.
Defined.

(** * The primary image of an agency *)

Lemma NoDup_all_equal_length {B} (l : list B) x :
  NoDup l → x ∈ l → (∀ y, y ∈ l → y = x) → length l = 1%nat.
Proof.
  intros Hnd Hin Hall. destruct l as [|a [|b l]].
  - by apply elem_of_nil in Hin.
  - done.
  - exfalso. assert (a = x) as -> by (apply Hall, elem_of_cons; by left).
    assert (b = x) as ->.
    { apply Hall. apply elem_of_cons. right. apply elem_of_cons. by left. }
    apply NoDup_cons in Hnd as [Hnot _]. apply Hnot, elem_of_cons. by left.
Qed.

(** A counting query answers 1 when one row, and no other, passes the
    filter. *)
Lemma count_where_one {A} (p : A → bool) (t : gmap Z A) k row :
  t !! k = Some row → p row = true →
  (∀ k' row', t !! k' = Some row' → p row' = true → k' = k) →
  count_where p t = 1%nat.
Proof.
  intros Hk Hp Huniq. unfold count_where.
  apply (NoDup_all_equal_length _ (k, row)).
  - apply NoDup_ListNoDup, List.NoDup_filter, NoDup_ListNoDup, NoDup_map_to_list.
  - apply list_elem_of_In, filter_In. split; [|done].
    by apply list_elem_of_In, rows_lookup.
  - intros [k' row'] [Hin Hp']%list_elem_of_In%filter_In.
    apply list_elem_of_In, rows_lookup in Hin. simpl in Hp'.
    assert (k' = k) as -> by eauto. congruence.
Qed.

(** The table after a committed [set_primary_agency_image]: the images of
    the agency of [image] are cleared, then the target is set. *)
Lemma set_primary_lookup image_id image db k :
  DB.agency_images db !! image_id = Some image →
  DB.agency_images (set_primary_agency_image image_id true db).2 !! k
  = (λ i, if decide (k = image_id) then AgencyImage.with_is_primary true i
          else if Z.eqb (AgencyImage.agency_id i) (AgencyImage.agency_id image)
               then AgencyImage.with_is_primary false i
               else i) <$> DB.agency_images db !! k.
Proof.
  intros Himg. unfold set_primary_agency_image. rewrite Himg. simpl.
  rewrite lookup_alter. case_decide as Hk.
  - subst k. rewrite lookup_fmap, Himg. simpl.
    rewrite decide_True by done. by rewrite Z.eqb_refl.
  - rewrite lookup_fmap. destruct (DB.agency_images db !! k); [|done].
    simpl. by rewrite decide_False by congruence.
Qed.

(** C2. After [set_primary_agency_image] on an existing image (commit
    succeeding): among the images of its agency the primary ones are exactly
    the target, so their count is one; the target is its old row with the
    flag set; every image of another agency is the row it was; no image
    appears or disappears. *)
Theorem set_primary_exactly_one (image_id : Z) (image : AgencyImage.t)
    (db : DB.t) :
  DB.agency_images db !! image_id = Some image →
  let table := DB.agency_images (set_primary_agency_image image_id true db).2 in
  (∀ k i, table !! k = Some i →
          AgencyImage.agency_id i = AgencyImage.agency_id image →
          (AgencyImage.is_primary i = true ↔ k = image_id))
  ∧ table !! image_id = Some (AgencyImage.with_is_primary true image)
  ∧ count_where (primary_of (AgencyImage.agency_id image)) table = 1%nat
  ∧ (∀ k i, DB.agency_images db !! k = Some i →
            AgencyImage.agency_id i ≠ AgencyImage.agency_id image →
            table !! k = Some i)
  ∧ (∀ k, is_Some (table !! k) ↔ is_Some (DB.agency_images db !! k)).
Proof.
  intros Himg table.
  assert (Hlook := λ k, set_primary_lookup image_id image db k Himg).
  fold table in Hlook.
  assert (∀ k i, table !! k = Some i →
                 AgencyImage.agency_id i = AgencyImage.agency_id image →
                 (AgencyImage.is_primary i = true ↔ k = image_id)) as Honly.
  { intros k i Hk Hag. rewrite Hlook in Hk.
    destruct (DB.agency_images db !! k) as [j|] eqn:Ej; [|done].
    simpl in Hk. injection Hk as <-. case_decide as Hd; [done|].
    destruct (Z.eqb_spec (AgencyImage.agency_id j)
                         (AgencyImage.agency_id image)) as [_|Hne].
    - simpl. split; [discriminate|done].
    - done. }
  assert (table !! image_id = Some (AgencyImage.with_is_primary true image))
    as Htarget.
  { rewrite Hlook, Himg. simpl. by rewrite decide_True. }
  split; [exact Honly|]. split; [exact Htarget|]. split; [|split].
  - apply (count_where_one _ _ image_id _ Htarget).
    + unfold primary_of. simpl. by rewrite Z.eqb_refl.
    + intros k i Hk [Hag Hp]%andb_true_iff. apply Z.eqb_eq in Hag.
      by apply (Honly k i).
  - intros k i Hk Hne. rewrite Hlook, Hk. simpl.
    rewrite decide_False by (intros ->; congruence).
    by destruct (Z.eqb_spec (AgencyImage.agency_id i)
                            (AgencyImage.agency_id image)).
  - intros k. rewrite Hlook. by rewrite fmap_is_Some.
Qed.

Lemma set_primary_exactly_one_witness :
  count_where (primary_of 1)
    (DB.agency_images
       (set_primary_agency_image 2 true db_two_agencies_images).2) = 1%nat
  ∧ DB.agency_images
      (set_primary_agency_image 2 true db_two_agencies_images).2 !! 3
    = Some (AgencyImage.mk 2 "c.png" "" true 0).
Proof.
  destruct (set_primary_exactly_one 2 (AgencyImage.mk 1 "b.png" "" false 1)
              db_two_agencies_images)
    as (_ & _ & Hone & Hother & _).
  - vm_compute. reflexivity.
  - split; [exact Hone|]. apply Hother.
    + vm_compute. reflexivity.
    + simpl. lia.
Defined.

(** * Plans *)

(** C3. [delete_plan] on an existing plan: when some agency has this
    [plan_id] the answer is the flash [plan_error_in_use] and the database
    is the one before the request, plans and agencies included; when no
    agency has it and the commit succeeds the plan is removed from the
    table, the other plans and all the other tables stay. *)
Theorem delete_plan_guard (plan_id : Z) (plan : Plan.t) (commit_ok : bool)
    (db : DB.t) :
  DB.plans db !! plan_id = Some plan →
  ((∃ k a, DB.agencies db !! k = Some a ∧ Agency.plan_id a = Some plan_id) →
   delete_plan plan_id commit_ok db
   = (Redirect "admin.plans" [("plan_error_in_use", "error")], db))
  ∧ ((∀ k a, DB.agencies db !! k = Some a → Agency.plan_id a ≠ Some plan_id) →
     delete_plan plan_id true db
     = (Redirect "admin.plans" [("plan_delete_success", "success")],
        DB.with_plans (delete plan_id (DB.plans db)) db)
     ∧ DB.plans (delete_plan plan_id true db).2 !! plan_id = None
     ∧ (∀ k, k ≠ plan_id →
             DB.plans (delete_plan plan_id true db).2 !! k = DB.plans db !! k)
     ∧ DB.agencies (delete_plan plan_id true db).2 = DB.agencies db).
Proof.
  intros Hplan. unfold delete_plan. rewrite Hplan. split.
  - intros (k & a & Hk & Ha).
    assert (0 < count_where
                  (λ a, bool_decide (Agency.plan_id a = Some plan_id))
                  (DB.agencies db))%nat as Hpos.
    { apply count_where_pos. exists k, a. split; [done|].
      by apply bool_decide_eq_true. }
    apply Nat.ltb_lt in Hpos. by rewrite Hpos.
  - intros Hnone.
    assert (count_where (λ a, bool_decide (Agency.plan_id a = Some plan_id))
                        (DB.agencies db) = 0%nat) as ->.
    { apply count_where_zero. intros k a Hk.
      apply bool_decide_eq_false. by apply (Hnone k). }
    simpl. repeat split.
    + apply lookup_delete_eq.
    + intros k Hk. by apply lookup_delete_ne.
Qed.

Lemma delete_plan_guard_witness :
  delete_plan 2 true db_plan_in_use
  = (Redirect "admin.plans" [("plan_error_in_use", "error")], db_plan_in_use)
  ∧ DB.plans (delete_plan 1 true db_plan_in_use).2 !! 1 = None.
Proof.
  split.
  - apply (delete_plan_guard 2 (Plan.mk "Premium" (199 # 1) "yearly" "" true)
             true db_plan_in_use).
    + vm_compute. reflexivity.
    + exists 1, (Agency.mk "A" "Marseille" "https://a.example" None None ""
                       (Some 2) true 1).
      split; vm_compute; reflexivity.
  - apply (delete_plan_guard 1 (Plan.mk "Basic" (99 # 1) "yearly" "" true)
             true db_plan_in_use).
    + vm_compute. reflexivity.
    + intros k a Hk. unfold db_plan_in_use, DB.with_agencies in Hk.
      simpl in Hk. apply lookup_singleton_Some in Hk as [_ <-].
      simpl. discriminate.
Defined.

(** C7 (as stated, it fails). The claim: a plan with a negative price is
    rejected and nothing is written. [add_plan] with the name [Basic] and
    the price [-5] on the empty database answers with the success flash and
    writes the plan, price [-5], as row 1. *)
Lemma add_plan_negative_price_stored :
  add_plan "POST" {[ "name" := "Basic" ]} (Some (-5 # 1)) true DB.empty
  = (Redirect "admin.plans" [("plan_add_success", "success")],
     DB.with_plans {[ 1 := Plan.mk "Basic" (-5 # 1) "monthly" "" true ]}
                   DB.empty)
  ∧ (Plan.price (Plan.mk "Basic" (-5 # 1) "monthly" "" true) < 0)%Q.
Proof. split; vm_compute; reflexivity. Qed.

(** C7, amended. Without a price (the field absent or not a number), or
    without a name, [add_plan] answers [plan_error_required] and the
    database is the one before; with a name no plan has yet and the commit
    succeeding, the plan is written with the price supplied, whatever its
    sign. *)
Theorem add_plan_price_required (form : gmap string string) (db : DB.t) :
  (∀ commit_ok,
     add_plan "POST" form None commit_ok db
     = (Render "admin/plan_form.html" [("plan_error_required", "error")], db))
  ∧ (∀ price commit_ok,
       Py.truthy (Py.strip (form_get form "name")) = false →
       add_plan "POST" form price commit_ok db
       = (Render "admin/plan_form.html" [("plan_error_required", "error")], db))
  ∧ (∀ price,
       Py.truthy (Py.strip (form_get form "name")) = true →
       (∀ k p, DB.plans db !! k = Some p →
               Plan.name p ≠ Py.strip (form_get form "name")) →
       add_plan "POST" form (Some price) true db
       = (Redirect "admin.plans" [("plan_add_success", "success")],
          DB.with_plans
            (add (Plan.mk (Py.strip (form_get form "name")) price
                          (default "monthly" (form !! "billing_period"))
                          (Py.strip (form_get form "description")) true)
                 (DB.plans db))
            db)).
Proof.
  unfold add_plan. simpl. repeat split.
  - intros [price|] commit_ok Hname; [|done]. by rewrite Hname.
  - intros price Hname Hfresh. rewrite Hname. simpl.
    assert (first_where
              (λ p, String.eqb (Plan.name p) (Py.strip (form_get form "name")))
              (DB.plans db) = None) as ->; [|done].
    apply first_where_None. intros k p Hk. apply String.eqb_neq.
    by apply (Hfresh k).
Qed.

Lemma add_plan_price_required_witness :
  DB.plans
    (add_plan "POST" {[ "name" := "Basic" ]} (Some (-5 # 1)) true DB.empty).2
  !! 1
  = Some (Plan.mk "Basic" (-5 # 1) "monthly" "" true)
  ∧ add_plan "POST" {[ "name" := "Basic" ]} None true DB.empty
    = (Render "admin/plan_form.html" [("plan_error_required", "error")],
       DB.empty).
Proof.
  destruct (add_plan_price_required {[ "name" := "Basic" ]} DB.empty)
    as (Hnone & _ & Hsome).
  split; [|apply Hnone].
  rewrite (Hsome (-5 # 1)).
  - vm_compute. reflexivity.
  - vm_compute. reflexivity.
  - intros k p Hk. unfold DB.empty in Hk. simpl in Hk.
    by rewrite lookup_empty in Hk.
Defined.

(** * Agencies: creation order *)

Lemma add_agency_valid form plan_id files db :
  agency_form_valid form →
  add_agency "POST" form plan_id files true db
  = (Redirect "admin.agencies" [("agency_add_success", "success")],
     DB.with_agencies
       (add (new_agency form plan_id files db) (DB.agencies db)) db).
Proof.
  intros (Hn & Hc & Hw). unfold add_agency. simpl.
  by rewrite Hn, Hc, Hw.
Qed.

Lemma or_zero_Some m : Py.or_zero (Some m) = m.
Proof. simpl. by destruct (Z.eqb_spec m 0). Qed.

(** The [sort_order] of the new agency against the table: 1 on the empty
    table; otherwise one more than the [sort_order] of some agency, and
    above that of every agency. *)
Lemma new_agency_sort_order form plan_id files db :
  (DB.agencies db = ∅ →
   Agency.sort_order (new_agency form plan_id files db) = 1)
  ∧ (DB.agencies db ≠ ∅ →
     ∃ k a, DB.agencies db !! k = Some a
            ∧ Agency.sort_order (new_agency form plan_id files db)
              = Agency.sort_order a + 1)
  ∧ (∀ k a, DB.agencies db !! k = Some a →
            Agency.sort_order a
            < Agency.sort_order (new_agency form plan_id files db)).
Proof.
  simpl.
  destruct (scalar_max Agency.sort_order (DB.agencies db)) as [m|] eqn:E.
  - rewrite or_zero_Some.
    destruct (scalar_max_Some _ _ _ E) as ((k & a & Hk & Ha) & Hmax).
    repeat split.
    + intros Hempty. rewrite Hempty in Hk. by rewrite lookup_empty in Hk.
    + intros _. exists k, a. split; [done|]. by rewrite Ha.
    + intros k' a' Hk'. specialize (Hmax k' a' Hk'). lia.
  - apply scalar_max_None in E. simpl. repeat split.
    + by intros [].
    + intros k a Hk. rewrite E in Hk. by rewrite lookup_empty in Hk.
Qed.

Lemma add_agencies_snoc requests r db :
  add_agencies (requests ++ [r])%list db
  = (add_agency "POST" r.1.1 r.1.2 r.2 true (add_agencies requests db)).2.
Proof. unfold add_agencies. by rewrite foldl_app. Qed.

Lemma next_id_mono {A} (t1 t2 : gmap Z A) :
  (∀ k row, t1 !! k = Some row → t2 !! k = Some row) →
  next_id t1 ≤ next_id t2.
Proof.
  intros Hsub. unfold next_id at 1.
  destruct (foldr_max_attained (λ x : Z * A, x.1) 0 (rows t1))
    as [->|([k row] & Hx & ->)].
  - pose proof (next_id_positive t2). lia.
  - apply rows_lookup, Hsub, next_id_above in Hx. simpl. lia.
Qed.

(** What a run of creations leaves in the table: the rows that were there,
    unchanged, and, in the order of their keys, rows whose [sort_order]
    grows strictly. *)
Lemma add_agencies_invariant requests db :
  Forall (λ r : agency_request, agency_form_valid r.1.1) requests →
  let table := DB.agencies (add_agencies requests db) in
  (∀ k a, DB.agencies db !! k = Some a → table !! k = Some a)
  ∧ (∀ k a, table !! k = Some a →
            DB.agencies db !! k = Some a
            ∨ (DB.agencies db !! k = None ∧ next_id (DB.agencies db) ≤ k))
  ∧ (∀ k1 k2 a1 a2,
       table !! k1 = Some a1 → table !! k2 = Some a2 → k1 < k2 →
       DB.agencies db !! k2 = None →
       Agency.sort_order a1 < Agency.sort_order a2)
  ∧ size table = (size (DB.agencies db) + length requests)%nat.
Proof.
  induction requests as [|r requests IH] using rev_ind; intros Hvalid.
  - simpl. split; [done|]. split; [by left|]. split; [|lia].
    intros k1 k2 a1 a2 _ H2 _ Hnone. congruence.
  - apply Forall_app in Hvalid as [Hvalid Hr%Forall_inv].
    destruct (IH Hvalid) as (Hold & Hnew & Hinc & Hsize). clear IH.
    intros table. subst table. rewrite add_agencies_snoc.
    rewrite (add_agency_valid _ _ _ _ Hr). simpl.
    set (d := add_agencies requests db) in *.
    set (a := new_agency r.1.1 r.1.2 r.2 d).
    destruct (new_agency_sort_order r.1.1 r.1.2 r.2 d) as (_ & _ & Habove).
    fold a in Habove.
    pose proof (next_id_mono _ _ Hold) as Hnext.
    split; [|split; [|split]].
    + intros k x Hk. apply lookup_add_old. by apply Hold.
    + intros k x [[-> ->]|Hk]%lookup_add.
      * right. split; [|done].
        destruct (DB.agencies db !! next_id (DB.agencies d)) as [y|] eqn:E;
          [|done].
        apply Hold, next_id_above in E. lia.
      * by apply Hnew.
    + intros k1 k2 a1 a2 [[-> ->]|H1]%lookup_add [[-> ->]|H2]%lookup_add
        Hlt Hnone.
      * lia.
      * apply next_id_above in H2. lia.
      * by apply (Habove k1).
      * by apply (Hinc k1 k2).
    + rewrite length_app. simpl. unfold add.
      rewrite map_size_insert_None by apply next_id_fresh. lia.
Qed.

(** C4. A successful [add_agency] (valid form, commit succeeding) writes
    the new agency under a key no agency had, with [sort_order] one more
    than the maximum of the existing agencies, the maximum of no agency
    being taken as 0 (the first agency gets 1); it is above the
    [sort_order] of every existing agency. After any run of successful
    creations, of two agencies of which the later one (the larger key) was
    created in the run, the later one has the strictly larger
    [sort_order]; the agencies of before the run are unchanged. *)
Theorem add_agency_sort_order_increases (form : gmap string string)
    (plan_id : option Z) (files : gmap string (list Upload.t))
    (requests : list agency_request) (db : DB.t) :
  agency_form_valid form →
  Forall (λ r : agency_request, agency_form_valid r.1.1) requests →
  (∃ agency,
     DB.agencies (add_agency "POST" form plan_id files true db).2
     = <[next_id (DB.agencies db) := agency]> (DB.agencies db)
     ∧ DB.agencies db !! next_id (DB.agencies db) = None
     ∧ (DB.agencies db = ∅ → Agency.sort_order agency = 1)
     ∧ (DB.agencies db ≠ ∅ →
        ∃ k a, DB.agencies db !! k = Some a
               ∧ Agency.sort_order agency = Agency.sort_order a + 1)
     ∧ (∀ k a, DB.agencies db !! k = Some a →
               Agency.sort_order a < Agency.sort_order agency))
  ∧ (∀ k1 k2 a1 a2,
       DB.agencies (add_agencies requests db) !! k1 = Some a1 →
       DB.agencies (add_agencies requests db) !! k2 = Some a2 →
       k1 < k2 → DB.agencies db !! k2 = None →
       Agency.sort_order a1 < Agency.sort_order a2)
  ∧ (∀ k a, DB.agencies db !! k = Some a →
            DB.agencies (add_agencies requests db) !! k = Some a)
  ∧ size (DB.agencies (add_agencies requests db))
    = (size (DB.agencies db) + length requests)%nat.
Proof.
  intros Hform Hvalid. split.
  - exists (new_agency form plan_id files db).
    rewrite (add_agency_valid _ _ _ _ Hform).
    split; [reflexivity|]. split; [apply next_id_fresh|].
    exact (new_agency_sort_order form plan_id files db).
  - destruct (add_agencies_invariant requests db Hvalid)
      as (Hold & _ & Hinc & Hsize).
    auto.
Qed.

Lemma add_agency_sort_order_increases_witness :
  let requests : list agency_request :=
    [(agency_form_example "A" "a.example", None, ∅);
     (agency_form_example "B" "b.example", None, ∅)] in
  Agency.sort_order
    <$> DB.agencies (add_agencies requests DB.empty) !! 1 = Some 1
  ∧ Agency.sort_order
    <$> DB.agencies (add_agencies requests DB.empty) !! 2 = Some 2
  ∧ size (DB.agencies (add_agencies requests DB.empty)) = 2%nat.
Proof.
  intros requests.
  destruct (add_agency_sort_order_increases
              (agency_form_example "A" "a.example") None ∅ requests DB.empty)
    as (_ & _ & _ & Hsize).
  - repeat split; vm_compute; reflexivity.
  - repeat constructor; vm_compute; reflexivity.
  - split; [vm_compute; reflexivity|]. split; [vm_compute; reflexivity|].
    exact Hsize.
Defined.

(** * Reordering *)

Lemma last_position_None k ids : last_position k ids = None ↔ k ∉ ids.
Proof.
  induction ids as [|id rest IH]; simpl.
  - split; [|done]. intros _ H. by apply elem_of_nil in H.
  - rewrite not_elem_of_cons. destruct (last_position k rest) as [i|].
    + split; [done|]. intros [_ H]. by apply IH in H.
    + case_decide as Hd.
      * split; [done|]. intros [H _]. congruence.
      * split; [|done]. intros _. split; [congruence|by apply IH].
Qed.

Lemma last_position_Some k ids i :
  last_position k ids = Some i →
  ids !! i = Some k ∧ ∀ j, (i < j)%nat → ids !! j ≠ Some k.
Proof.
  revert i. induction ids as [|id rest IH]; simpl; [done|].
  intros i. destruct (last_position k rest) as [i'|] eqn:E.
  - intros [= <-]. destruct (IH i' eq_refl) as [Hi Hafter].
    split; [done|]. intros [|j] Hj; [lia|]. simpl. apply Hafter. lia.
  - case_decide as Hd; [|done]. intros [= <-]. subst id. split; [done|].
    intros [|j] Hj; [lia|]. simpl. intros Hin.
    apply last_position_None in E. apply E.
    by apply list_elem_of_lookup_2 in Hin.
Qed.

(** Without repetition, the position of an id is its last position. *)
Lemma last_position_NoDup k ids i :
  NoDup ids → ids !! i = Some k → last_position k ids = Some i.
Proof.
  intros Hnd Hi. destruct (last_position k ids) as [j|] eqn:E.
  - apply last_position_Some in E as [Hj _].
    by rewrite (NoDup_lookup _ _ _ _ Hnd Hi Hj).
  - apply last_position_None in E. destruct E.
    by apply list_elem_of_lookup_2 in Hi.
Qed.

Section Reorder.
Context {A : Type} (set_sort_order : Z → A → A) (get_sort_order : A → Z).
Hypothesis set_twice :
  ∀ i j row, set_sort_order i (set_sort_order j row) = set_sort_order i row.
Hypothesis get_set :
  ∀ i row, get_sort_order (set_sort_order i row) = i.

(** The table after the loop, row by row. *)
Lemma reorder_loop_lookup ids index (table : gmap Z A) k :
  reorder_loop set_sort_order index ids table !! k
  = match last_position k ids with
    | Some i => set_sort_order (Z.of_nat (index + i)) <$> table !! k
    | None => table !! k
    end.
Proof.
  revert index table. induction ids as [|id rest IH]; intros index table;
    simpl; [done|].
  rewrite IH.
  assert (match table !! id with
          | Some row => <[id := set_sort_order (Z.of_nat index) row]> table
          | None => table
          end !! k
          = if decide (id = k)
            then set_sort_order (Z.of_nat index) <$> table !! k
            else table !! k) as ->.
  { case_decide as Hd.
    - subst id. destruct (table !! k) eqn:E; simpl.
      + by rewrite lookup_insert_eq.
      + done.
    - destruct (table !! id); [|done]. by rewrite lookup_insert_ne. }
  destruct (last_position k rest) as [i|].
  - replace (index + S i)%nat with (S index + i)%nat by lia.
    case_decide; [|done]. destruct (table !! k); simpl; [|done].
    by rewrite set_twice.
  - case_decide; [|done]. by rewrite Nat.add_0_r.
Qed.

(** What the loop of a reorder handler does to the table. *)
Lemma reorder_loop_spec ids (table : gmap Z A) :
  let table' := reorder_loop set_sort_order 0 ids table in
  (∀ k row, table !! k = Some row → k ∈ ids →
     ∃ i, ids !! i = Some k
          ∧ (∀ j, (i < j)%nat → ids !! j ≠ Some k)
          ∧ get_sort_order <$> table' !! k = Some (Z.of_nat i)
          ∧ table' !! k = Some (set_sort_order (Z.of_nat i) row))
  ∧ (NoDup ids →
     ∀ i k row, ids !! i = Some k → table !! k = Some row →
                get_sort_order <$> table' !! k = Some (Z.of_nat i)
                ∧ table' !! k = Some (set_sort_order (Z.of_nat i) row))
  ∧ (∀ k, k ∉ ids → table' !! k = table !! k)
  ∧ (∀ k, table !! k = None → table' !! k = None).
Proof.
  intros table'. subst table'. split; [|split; [|split]].
  - intros k row Hk Hin. rewrite reorder_loop_lookup.
    destruct (last_position k ids) as [i|] eqn:E.
    + destruct (last_position_Some _ _ _ E) as [Hi Hafter].
      exists i. rewrite Hk. simpl. by rewrite get_set.
    + by apply last_position_None in E.
  - intros Hnd i k row Hi Hk. rewrite reorder_loop_lookup.
    rewrite (last_position_NoDup _ _ _ Hnd Hi), Hk. simpl.
    by rewrite get_set.
  - intros k Hk. rewrite reorder_loop_lookup.
    by apply last_position_None in Hk as ->.
  - intros k Hk. rewrite reorder_loop_lookup, Hk.
    by destruct (last_position k ids).
Qed.
End Reorder.

Lemma agency_set_twice i j a :
  Agency.with_sort_order i (Agency.with_sort_order j a)
  = Agency.with_sort_order i a.
Proof. done. Qed.

Lemma agency_get_set i a :
  Agency.sort_order (Agency.with_sort_order i a) = i.
Proof. done. Qed.

Lemma carousel_set_twice i j a :
  CarouselItem.with_sort_order i (CarouselItem.with_sort_order j a)
  = CarouselItem.with_sort_order i a.
Proof. done. Qed.

Lemma carousel_get_set i a :
  CarouselItem.sort_order (CarouselItem.with_sort_order i a) = i.
Proof. done. Qed.

(** C5. For every list of ids sent to [reorder_agencies] or
    [reorder_carousel] (a JSON body, the commit succeeding) the answer is
    the success status, and in the table after: a listed id that has a row
    has a row whose [sort_order] is a position at which the id stands in
    the list, the last one when it stands at several (its position, when
    the list repeats no id), the other columns of the row being those of
    the row before; a row whose id is not listed is unchanged; an id
    without a row gets none. *)
Theorem reorder_assigns_index (body : gmap string (list Z)) (db : DB.t) :
  let agency_ids := default [] (body !! "agency_ids") in
  let item_ids := default [] (body !! "item_ids") in
  let agencies' := DB.agencies (reorder_agencies (Some body) true db).2 in
  let items' := DB.carousel_items (reorder_carousel (Some body) true db).2 in
  ((reorder_agencies (Some body) true db).1 = Json "success" 200
   ∧ (∀ k a, DB.agencies db !! k = Some a → k ∈ agency_ids →
        ∃ i, agency_ids !! i = Some k
             ∧ (∀ j, (i < j)%nat → agency_ids !! j ≠ Some k)
             ∧ Agency.sort_order <$> agencies' !! k = Some (Z.of_nat i)
             ∧ agencies' !! k = Some (Agency.with_sort_order (Z.of_nat i) a))
   ∧ (NoDup agency_ids →
      ∀ i k a, agency_ids !! i = Some k → DB.agencies db !! k = Some a →
               Agency.sort_order <$> agencies' !! k = Some (Z.of_nat i)
               ∧ agencies' !! k
                 = Some (Agency.with_sort_order (Z.of_nat i) a))
   ∧ (∀ k, k ∉ agency_ids → agencies' !! k = DB.agencies db !! k)
   ∧ (∀ k, DB.agencies db !! k = None → agencies' !! k = None))
  ∧ ((reorder_carousel (Some body) true db).1 = Json "success" 200
     ∧ (∀ k a, DB.carousel_items db !! k = Some a → k ∈ item_ids →
          ∃ i, item_ids !! i = Some k
               ∧ (∀ j, (i < j)%nat → item_ids !! j ≠ Some k)
               ∧ CarouselItem.sort_order <$> items' !! k = Some (Z.of_nat i)
               ∧ items' !! k
                 = Some (CarouselItem.with_sort_order (Z.of_nat i) a))
     ∧ (NoDup item_ids →
        ∀ i k a, item_ids !! i = Some k → DB.carousel_items db !! k = Some a →
                 CarouselItem.sort_order <$> items' !! k = Some (Z.of_nat i)
                 ∧ items' !! k
                   = Some (CarouselItem.with_sort_order (Z.of_nat i) a))
     ∧ (∀ k, k ∉ item_ids → items' !! k = DB.carousel_items db !! k)
     ∧ (∀ k, DB.carousel_items db !! k = None → items' !! k = None)).
Proof.
  intros agency_ids item_ids agencies' items'. split.
  - split; [done|].
    exact (reorder_loop_spec Agency.with_sort_order Agency.sort_order
             agency_set_twice agency_get_set agency_ids (DB.agencies db)).
  - split; [done|].
    exact (reorder_loop_spec CarouselItem.with_sort_order
             CarouselItem.sort_order carousel_set_twice carousel_get_set
             item_ids (DB.carousel_items db)).
Qed.

Lemma reorder_assigns_index_witness :
  let body : gmap string (list Z) :=
    {[ "agency_ids" := [3; 1; 7]; "item_ids" := [3; 99; 1; 2] ]} in
  let agencies' :=
    DB.agencies (reorder_agencies (Some body) true db_three_agencies).2 in
  let items' :=
    DB.carousel_items (reorder_carousel (Some body) true db_four_items).2 in
  (Agency.sort_order <$> agencies' !! 3 = Some 0
   ∧ agencies' !! 3
     = Some (Agency.mk "Agence C" "Cassis" "https://c.example" None None ""
                       None false 0)
   ∧ Agency.sort_order <$> agencies' !! 1 = Some 1
   ∧ agencies' !! 1
     = Some (Agency.mk "Agence A" "Marseille" "https://a.example" None None ""
                       None true 1)
   ∧ agencies' !! 2
     = Some (Agency.mk "Agence B" "Aix" "https://b.example" None None ""
                       None true 1)
   ∧ agencies' !! 7 = None)
  ∧ (CarouselItem.sort_order <$> items' !! 3 = Some 0
     ∧ items' !! 3 = Some (carousel_item_example "c.png" 0)
     ∧ CarouselItem.sort_order <$> items' !! 1 = Some 2
     ∧ items' !! 1 = Some (carousel_item_example "a.png" 2)
     ∧ items' !! 4 = Some (carousel_item_example "d.png" 3)
     ∧ items' !! 99 = None).
Proof.
  intros body agencies' items'.
  destruct (reorder_assigns_index body db_three_agencies)
    as ((_ & _ & Hagency & Hrest & Hnew) & _).
  destruct (reorder_assigns_index body db_four_items)
    as (_ & _ & _ & Hpos & Hkeep & Hnone).
  assert (NoDup [3; 1; 7]) as Hnd_agencies.
  { apply NoDup_ListNoDup.
    repeat (constructor; [simpl; intros H; repeat destruct H as [H|H]; lia|]).
    constructor. }
  assert (NoDup [3; 99; 1; 2]) as Hnd.
  { apply NoDup_ListNoDup.
    repeat (constructor; [simpl; intros H; repeat destruct H as [H|H]; lia|]).
    constructor. }
  destruct (Hagency Hnd_agencies 0%nat 3
              (Agency.mk "Agence C" "Cassis" "https://c.example" None None ""
                         None false 2) eq_refl eq_refl) as [Hc_order Hc].
  destruct (Hagency Hnd_agencies 1%nat 1
              (Agency.mk "Agence A" "Marseille" "https://a.example" None None
                         "" None true 0) eq_refl eq_refl) as [Ha_order Ha].
  destruct (Hpos Hnd 0%nat 3 (carousel_item_example "c.png" 2)
              eq_refl eq_refl) as [H3_order H3].
  destruct (Hpos Hnd 2%nat 1 (carousel_item_example "a.png" 0)
              eq_refl eq_refl) as [H1_order H1].
  split; [split; [|split; [|split; [|split; [|split]]]]
         |split; [|split; [|split; [|split; [|split]]]]].
  - exact Hc_order.
  - exact Hc.
  - exact Ha_order.
  - exact Ha.
  - transitivity (DB.agencies db_three_agencies !! 2); [|reflexivity].
    apply Hrest. intros H. apply list_elem_of_In in H. simpl in H.
    repeat destruct H as [H|H]; lia.
  - apply Hnew. reflexivity.
  - exact H3_order.
  - exact H3.
  - exact H1_order.
  - exact H1.
  - transitivity (DB.carousel_items db_four_items !! 4); [|reflexivity].
    apply Hkeep. intros H. apply list_elem_of_In in H. simpl in H.
    repeat destruct H as [H|H]; lia.
  - apply Hnone. reflexivity.
Defined.

(** * The website of an agency *)

(** C6 (as stated, it fails). The claim: [https://] is prefixed exactly
    when the value carries no scheme. [ftp://example.com] carries a scheme,
    and [add_agency] stores it with [https://] in front of it; so it is
    with [HTTP://example.com], the scheme written in upper case. *)
Lemma add_agency_prefixes_ftp_scheme :
  carries_scheme "ftp://example.com" = true
  ∧ Agency.website
      <$> DB.agencies
            (add_agency "POST" (agency_form_example "A" "ftp://example.com")
                        None ∅ true DB.empty).2 !! 1
    = Some "https://ftp://example.com"
  ∧ carries_scheme "HTTP://example.com" = true
  ∧ ensure_protocol "HTTP://example.com" = "https://HTTP://example.com".
Proof. repeat split; vm_compute; reflexivity. Qed.

Lemma edit_agency_valid agency_id agency form plan_id files db :
  DB.agencies db !! agency_id = Some agency →
  agency_form_valid form →
  ∃ images agency',
    edit_agency agency_id "POST" form plan_id files true db
    = (Redirect "admin.agencies" [("agency_edit_success", "success")],
       DB.with_agency_images images
         (DB.with_agencies (<[agency_id := agency']> (DB.agencies db)) db))
    ∧ Agency.website agency'
      = ensure_protocol (Py.strip (form_get form "website"))
    ∧ Agency.sort_order agency' = Agency.sort_order agency.
Proof.
  intros Hk (Hn & Hc & Hw). unfold edit_agency. rewrite Hk. simpl.
  rewrite Hn, Hc, Hw. simpl. do 2 eexists.
  split; [reflexivity|]. split; reflexivity.
Qed.

Lemma https_prefix_changes (w : string) : "https://" ++ w ≠ w.
Proof.
  intros H. apply (f_equal String.length) in H. simpl in H.
  change (String.append "" w) with w in H. lia.
Qed.

(** C6, amended. With a valid form and the commit succeeding, [add_agency]
    (on any database, the empty one included) and [edit_agency] (of an
    agency that exists) store the website field, stripped, with [https://]
    put in front exactly when it starts neither with [http://] nor with
    [https://] (as written, in lower case); [example.com] is stored as
    [https://example.com] and [http://example.com] as it is. *)
Theorem website_protocol_ensured (form : gmap string string)
    (plan_id : option Z) (files : gmap string (list Upload.t))
    (agency_id : Z) (db : DB.t) :
  agency_form_valid form →
  let website := Py.strip (form_get form "website") in
  let has_protocol :=
    Py.startswith website "http://" || Py.startswith website "https://" in
  Agency.website
    <$> DB.agencies (add_agency "POST" form plan_id files true db).2
        !! next_id (DB.agencies db)
  = Some (ensure_protocol website)
  ∧ (is_Some (DB.agencies db !! agency_id) →
     Agency.website
       <$> DB.agencies
             (edit_agency agency_id "POST" form plan_id files true db).2
           !! agency_id
     = Some (ensure_protocol website))
  ∧ (has_protocol = false ↔ ensure_protocol website = "https://" ++ website)
  ∧ (has_protocol = true ↔ ensure_protocol website = website)
  ∧ ensure_protocol "example.com" = "https://example.com"
  ∧ ensure_protocol "http://example.com" = "http://example.com".
Proof.
  intros Hform website has_protocol. split; [|split].
  - rewrite (add_agency_valid _ _ _ _ Hform). simpl.
    by rewrite lookup_add_new.
  - intros [agency Hk].
    destruct (edit_agency_valid _ _ _ plan_id files _ Hk Hform)
      as (images & agency' & -> & Hweb & _).
    simpl. rewrite lookup_insert_eq. simpl. by rewrite Hweb.
  - unfold ensure_protocol. fold website. fold has_protocol.
    destruct has_protocol; simpl; repeat split; try done.
    + intros H. symmetry in H. by apply https_prefix_changes in H.
    + intros H. by apply https_prefix_changes in H.
Qed.

Lemma website_protocol_ensured_witness :
  Agency.website
    <$> DB.agencies
          (add_agency "POST" (agency_form_example "B" " example.com ")
                      None ∅ true DB.empty).2 !! 1
  = Some "https://example.com"
  ∧ Agency.website
      <$> DB.agencies
            (edit_agency 1 "POST"
               (agency_form_example "B"
                  (Py.utf8 [194; 160]%nat ++ "http://example.com"))
               None ∅ true db_plan_in_use).2 !! 1
    = Some "http://example.com".
Proof.
  destruct (website_protocol_ensured
              (agency_form_example "B" " example.com ") None ∅ 1 DB.empty)
    as (Hadd & _).
  { repeat split; vm_compute; reflexivity. }
  destruct (website_protocol_ensured
              (agency_form_example "B"
                 (Py.utf8 [194; 160]%nat ++ "http://example.com"))
              None ∅ 1 db_plan_in_use)
    as (_ & Hedit & _).
  { repeat split; vm_compute; reflexivity. }
  split; [exact Hadd|].
  apply Hedit. eexists. vm_compute. reflexivity.
Defined.

(** * Carousel items: the order of a new item *)

Lemma files_get_in_files files key f :
  files_get files key = Some f → in_files files key = true.
Proof.
  unfold files_get, in_files. destruct (files !! key) as [[|x l]|]; done.
Qed.

Lemma add_carousel_item_valid form files image_filename db :
  carousel_upload_ok files image_filename →
  add_carousel_item form files true db
  = (Redirect "admin.carousel"
       [("Imagen agregada al carrusel exitosamente", "success")],
     DB.with_carousel_items
       (add (new_carousel_item form image_filename db) (DB.carousel_items db))
       db).
Proof.
  intros (image_file & Hget & Hname & Hallowed & Hsaved & Hfn).
  unfold add_carousel_item.
  rewrite (files_get_in_files _ _ _ Hget), Hget. simpl.
  by rewrite Hname, Hallowed, Hsaved, Hfn.
Qed.

Lemma next_id_add {A} (t : gmap Z A) row : next_id (add row t) = next_id t + 1.
Proof.
  pose proof (next_id_above (add row t) _ row (lookup_add_new t row)) as Hlt.
  pose proof (next_id_positive t) as Hpos.
  assert (∀ k x, add row t !! k = Some x → k ≤ next_id t) as Hkeys.
  { intros k x [[-> _]|Hk]%lookup_add; [lia|]. apply next_id_above in Hk. lia. }
  remember (next_id t) as n eqn:Hn. clear Hn.
  unfold next_id in *.
  destruct (foldr_max_attained (λ x : Z * A, x.1) 0 (rows (add row t)))
    as [H0|([k x] & Hx & H0)]; rewrite H0 in *.
  - lia.
  - simpl in *. apply rows_lookup, Hkeys in Hx. lia.
Qed.

Lemma add_carousel_items_snoc requests r db :
  add_carousel_items (requests ++ [r])%list db
  = (add_carousel_item r.1 r.2 true (add_carousel_items requests db)).2.
Proof. unfold add_carousel_items. by rewrite foldl_app. Qed.

(** Adding to an empty carousel only: the items have the keys 1 to n, and
    the item of key k has [sort_order] k - 1. *)
Lemma add_carousel_items_from_empty requests db :
  DB.carousel_items db = ∅ →
  Forall (λ r : carousel_request, ∃ fn, carousel_upload_ok r.2 fn) requests →
  let table := DB.carousel_items (add_carousel_items requests db) in
  (∀ k, is_Some (table !! k) ↔ 1 ≤ k ≤ Z.of_nat (length requests))
  ∧ (∀ k item, table !! k = Some item → CarouselItem.sort_order item = k - 1)
  ∧ next_id table = Z.of_nat (length requests) + 1
  ∧ size table = length requests.
Proof.
  intros Hempty.
  induction requests as [|r requests IH] using rev_ind; intros Hvalid table.
  - subst table. simpl. rewrite Hempty. split; [|split; [|split]].
    + intros k. rewrite lookup_empty. split; [by intros [x Hx]|lia].
    + intros k item Hk. by rewrite lookup_empty in Hk.
    + unfold next_id, rows. by rewrite map_to_list_empty.
    + apply map_size_empty.
  - apply Forall_app in Hvalid as [Hvalid [fn Hr]%Forall_inv].
    destruct (IH Hvalid) as (Hkeys & Hord & Hnext & Hsize). clear IH.
    subst table. rewrite add_carousel_items_snoc.
    set (d := add_carousel_items requests db) in *.
    rewrite (add_carousel_item_valid _ _ fn _ Hr). simpl.
    rewrite length_app, Nat2Z.inj_add. simpl.
    split; [|split; [|split]].
    + intros k. unfold add. rewrite lookup_insert. rewrite Hnext.
      case_decide as Hd.
      * subst k. split; [lia|eauto].
      * rewrite Hkeys. lia.
    + intros k item [[-> ->]|Hk]%lookup_add.
      * simpl. rewrite count_size, Hsize, Hnext. lia.
      * by apply Hord.
    + rewrite next_id_add, Hnext. lia.
    + unfold add. rewrite map_size_insert_None by apply next_id_fresh. lia.
Qed.

(** C9 (as stated, it fails). The claim: the new item, with [sort_order]
    the number of items, stands at the end of the order. After three items
    were added and the first two deleted, item 3 is left, with
    [sort_order] 2; the item added next is item 4 with [sort_order] 1, the
    number of items before the insert: it stands before item 3. *)
Lemma add_carousel_item_not_at_end :
  CarouselItem.sort_order <$> DB.carousel_items db_after_two_deletes !! 3
  = Some 2
  ∧ count (DB.carousel_items db_after_two_deletes) = 1%nat
  ∧ CarouselItem.sort_order
      <$> DB.carousel_items
            (add_carousel_item ∅ carousel_upload_example true
                               db_after_two_deletes).2 !! 4
    = Some 1
  ∧ CarouselItem.sort_order
      <$> DB.carousel_items
            (add_carousel_item ∅ carousel_upload_example true
                               db_after_two_deletes).2 !! 3
    = Some 2.
Proof. repeat split; vm_compute; reflexivity. Qed.

(** C9, amended. A successful [add_carousel_item] writes the new item under
    a key no item had, with [sort_order] the number of items before the
    insert, and leaves the other items as they were. In a carousel that was
    empty and to which items were only added, the item of key k has
    [sort_order] k - 1: three adds give 0, 1, 2, and every new item stands
    after all the items before it. *)
Theorem add_carousel_item_sort_order (form : gmap string string)
    (files : gmap string (list Upload.t)) (image_filename : string)
    (requests : list carousel_request) (db : DB.t) :
  carousel_upload_ok files image_filename →
  Forall (λ r : carousel_request, ∃ fn, carousel_upload_ok r.2 fn) requests →
  (∃ item,
     DB.carousel_items (add_carousel_item form files true db).2
     = <[next_id (DB.carousel_items db) := item]> (DB.carousel_items db)
     ∧ DB.carousel_items db !! next_id (DB.carousel_items db) = None
     ∧ CarouselItem.sort_order item
       = Z.of_nat (size (DB.carousel_items db)))
  ∧ (∀ k item,
       DB.carousel_items (add_carousel_items requests DB.empty) !! k
       = Some item →
       1 ≤ k ≤ Z.of_nat (length requests)
       ∧ CarouselItem.sort_order item = k - 1)
  ∧ (∀ k, 1 ≤ k ≤ Z.of_nat (length requests) →
          is_Some
            (DB.carousel_items (add_carousel_items requests DB.empty) !! k)).
Proof.
  intros Hok Hvalid. split; [|split].
  - exists (new_carousel_item form image_filename db).
    rewrite (add_carousel_item_valid _ _ _ _ Hok).
    split; [reflexivity|]. split; [apply next_id_fresh|].
    simpl. by rewrite count_size.
  - intros k item Hk.
    destruct (add_carousel_items_from_empty requests DB.empty eq_refl Hvalid)
      as (Hkeys & Hord & _).
    split; [apply Hkeys; eauto|by apply Hord].
  - intros k Hk.
    by apply (add_carousel_items_from_empty requests DB.empty eq_refl Hvalid).
Qed.

Lemma add_carousel_item_sort_order_witness :
  let requests : list carousel_request :=
    [(∅, carousel_upload_example); (∅, carousel_upload_example);
     (∅, carousel_upload_example)] in
  let table := DB.carousel_items (add_carousel_items requests DB.empty) in
  CarouselItem.sort_order <$> table !! 1 = Some 0
  ∧ CarouselItem.sort_order <$> table !! 2 = Some 1
  ∧ CarouselItem.sort_order <$> table !! 3 = Some 2.
Proof.
  intros requests table.
  assert (carousel_upload_ok carousel_upload_example "0f3c.png") as Hok.
  { exists (Upload.mk "photo.png" (Some "0f3c.png")).
    repeat split; vm_compute; reflexivity. }
  destruct (add_carousel_item_sort_order ∅ carousel_upload_example "0f3c.png"
              requests DB.empty Hok)
    as (_ & Hord & Hkeys).
  { repeat constructor; by exists "0f3c.png". }
  assert (∀ k, 1 ≤ k ≤ 3 →
               CarouselItem.sort_order <$> table !! k = Some (k - 1)) as H.
  { intros k Hk. destruct (Hkeys k Hk) as [item Hitem].
    destruct (Hord k item Hitem) as [_ Hso].
    fold table in Hitem. by rewrite Hitem, <- Hso. }
  split; [|split].
  - apply (H 1). lia.
  - apply (H 2). lia.
  - apply (H 3). lia.
Defined.

(** * Agency images: the first image *)

(** Every row the loop of [add_agency_images] adds carries the same flag:
    whether the [agency.images] attribute, as first read, is empty. *)
Lemma add_agency_images_loop_flag images agency_id alt_text cache table n :
  let flag :=
    match agency_images_attr cache agency_id table with
    | [] => true
    | _ => false
    end in
  ∀ k i,
    (add_agency_images_loop images agency_id alt_text cache table n).1 !! k
    = Some i →
    table !! k = Some i
    ∨ (table !! k = None ∧ AgencyImage.agency_id i = agency_id
       ∧ AgencyImage.is_primary i = flag).
Proof.
  revert cache table n.
  induction images as [|image_file rest IH]; intros cache table n flag k i;
    simpl; [by left|].
  destruct (valid_image image_file); [|by apply IH].
  destruct (Upload.saved_as image_file) as [image_filename|]; [|by apply IH].
  destruct (Py.truthy image_filename); [|by apply IH].
  intros Hk. apply IH in Hk. simpl in Hk.
  destruct Hk as [[[-> ->]|Hk]%lookup_add|(Hnone & Hag & Hflag)].
  - right. split; [apply next_id_fresh|]. by split.
  - by left.
  - right. split; [|by split].
    destruct (table !! k) as [x|] eqn:E; [|done].
    apply (lookup_add_old _
             (AgencyImage.mk agency_id image_filename alt_text flag
                (Z.of_nat
                   (count_where
                      (λ i, Z.eqb (AgencyImage.agency_id i) agency_id)
                      table)))) in E.
    unfold flag in E. congruence.
Qed.

(** What [add_agency_images] does to the flags: an image that the request
    adds is primary exactly when the agency had no image before the
    request, whichever its place among the images of the request. *)
Lemma add_agency_images_flags agency_id form files commit_ok db k i :
  DB.agency_images (add_agency_images agency_id form files commit_ok db).2 !! k
  = Some i →
  DB.agency_images db !! k = Some i
  ∨ (DB.agency_images db !! k = None
     ∧ AgencyImage.agency_id i = agency_id
     ∧ AgencyImage.is_primary i
       = (count_where (λ i, Z.eqb (AgencyImage.agency_id i) agency_id)
                      (DB.agency_images db) =? 0)%nat).
Proof.
  unfold add_agency_images.
  destruct (DB.agencies db !! agency_id) as [agency|]; [|by left].
  destruct (in_files files "images"); simpl; [|by left].
  pose proof (add_agency_images_loop_flag (files_getlist files "images")
                agency_id
                (default ("Imagen de " ++ Agency.name agency)
                         (form !! "alt_text"))
                None (DB.agency_images db) 0 k i) as Hloop.
  destruct (add_agency_images_loop _ _ _ _ _ _) as [table added_count].
  destruct (0 <? added_count)%nat; [|by left].
  destruct commit_ok; [|by left].
  simpl in *. intros Hk. destruct (Hloop Hk) as [?|(? & ? & ->)]; [by left|].
  right. repeat split; try done. unfold count_where.
  by destruct (List.filter _ _).
Qed.

(** C8 (the code departs from the claim). The claim: of the images added
    to an agency without images only the first is created primary. Two
    images uploaded in one request to agency 1, which has none: both rows
    are created with [is_primary] set, and the agency has two primary
    images. *)
Theorem add_agency_images_all_primary :
  let table :=
    DB.agency_images
      (add_agency_images 1 ∅ two_images_upload true db_agency_no_images).2 in
  count (DB.agency_images db_agency_no_images) = 0%nat
  ∧ table !! 1 = Some (AgencyImage.mk 1 "a1.png" "Imagen de Agence du Port"
                                      true 0)
  ∧ table !! 2 = Some (AgencyImage.mk 1 "b2.jpg" "Imagen de Agence du Port"
                                      true 1)
  ∧ count_where (primary_of 1) table = 2%nat.
Proof. repeat split; vm_compute; reflexivity. Qed.

(** * Further properties *)

(** ** Counting under insertion and deletion *)

Section CountFacts.
Context {A : Type}.
Implicit Types (t : gmap Z A) (p : A → bool).

Lemma filter_length_perm {B} (f : B → bool) (l1 l2 : list B) :
  l1 ≡ₚ l2 → length (List.filter f l1) = length (List.filter f l2).
Proof.
  induction 1 as [|x l1 l2 _ IH|x y l|l1 l2 l3 _ IH1 _ IH2]; simpl.
  - done.
  - destruct (f x); simpl; by rewrite IH.
  - by destruct (f x), (f y).
  - by rewrite IH1.
Qed.

Lemma count_where_insert_fresh p t k x :
  t !! k = None →
  count_where p (<[k := x]> t)
  = ((if p x then 1 else 0) + count_where p t)%nat.
Proof.
  intros Hk. unfold count_where, rows.
  rewrite (filter_length_perm _ _ _ (map_to_list_insert t k x Hk)). simpl.
  by destruct (p x).
Qed.

Lemma count_where_delete p t k x :
  t !! k = Some x →
  count_where p t
  = ((if p x then 1 else 0) + count_where p (delete k t))%nat.
Proof.
  intros Hk. unfold count_where, rows.
  rewrite <- (filter_length_perm _ _ _ (map_to_list_delete t k x Hk)). simpl.
  by destruct (p x).
Qed.

Lemma count_where_insert_existing p t k x y :
  t !! k = Some x →
  (count_where p (<[k := y]> t) + (if p x then 1 else 0)
   = count_where p t + (if p y then 1 else 0))%nat.
Proof.
  intros Hk. rewrite <- (insert_delete_eq t k y).
  rewrite count_where_insert_fresh by apply lookup_delete_eq.
  rewrite (count_where_delete p t k x Hk). lia.
Qed.

Lemma count_where_le_count p t : (count_where p t ≤ count t)%nat.
Proof. unfold count_where, count. apply List.filter_length_le. Qed.

Lemma count_insert_existing t k x y :
  t !! k = Some x → count (<[k := y]> t) = count t.
Proof.
  intros Hk. rewrite !count_size. apply map_size_insert_Some. eauto.
Qed.
End CountFacts.

(** ** The dashboard and the messages *)

Lemma contact_valid_commit form email_ok db :
  contact_valid form →
  (contact "POST" form true email_ok db).1.2
  = DB.with_contact_messages
      (add (contact_row form) (DB.contact_messages db)) db.
Proof.
  intros (Hn & He & Hs & Hm). unfold contact. simpl.
  rewrite Hn, He, Hs, Hm. simpl. by destruct email_ok.
Qed.

(** On every database the dashboard counts no more active agencies than
    agencies and no more unread messages than messages. *)
Lemma dashboard_bounds (db : DB.t) :
  (Stats.active_agencies (dashboard db) ≤ Stats.total_agencies (dashboard db))%nat
  ∧ (Stats.unread_messages (dashboard db)
     ≤ Stats.total_messages (dashboard db))%nat.
Proof. split; apply count_where_le_count. Qed.

(** X1. A valid contact submission whose commit succeeds raises both the
    number of messages and the number of unread messages of the dashboard
    by one, whatever the email send returns, and leaves the agency counts;
    an invalid submission or a failed commit leaves all four counts. *)
Theorem contact_raises_unread (form : gmap string string)
    (commit_ok email_ok : bool) (db : DB.t) :
  let db' := (contact "POST" form commit_ok email_ok db).1.2 in
  (contact_valid form → commit_ok = true →
   Stats.total_messages (dashboard db')
   = S (Stats.total_messages (dashboard db))
   ∧ Stats.unread_messages (dashboard db')
     = S (Stats.unread_messages (dashboard db))
   ∧ Stats.total_agencies (dashboard db')
     = Stats.total_agencies (dashboard db)
   ∧ Stats.active_agencies (dashboard db')
     = Stats.active_agencies (dashboard db))
  ∧ ((¬ contact_valid form ∨ commit_ok = false) → dashboard db' = dashboard db).
Proof.
  intros db'. split.
  - intros Hvalid ->.
    subst db'. rewrite (contact_valid_commit _ _ _ Hvalid).
    unfold dashboard. simpl.
    rewrite count_add. unfold add.
    rewrite count_where_insert_fresh by apply next_id_fresh. done.
  - intros Hbad. subst db'. unfold contact. simpl.
    destruct (Py.truthy (Py.strip (form_get form "name"))) eqn:Hn;
      destruct (Py.truthy (Py.strip (form_get form "email"))) eqn:He;
      destruct (Py.truthy (Py.strip (form_get form "subject"))) eqn:Hs;
      destruct (Py.truthy (Py.strip (form_get form "message"))) eqn:Hm;
      simpl; try done.
    destruct Hbad as [Hinv| ->]; [|done]. destruct Hinv. by repeat split.
Qed.

Lemma mark_message_read_ok message_id message db :
  DB.contact_messages db !! message_id = Some message →
  (mark_message_read message_id true db).2
  = DB.with_contact_messages
      (<[message_id := message_with_is_read true message]>
         (DB.contact_messages db)) db.
Proof. intros Hk. unfold mark_message_read. by rewrite Hk. Qed.

(** X2. [mark_message_read] on an existing message, the commit succeeding:
    the message keeps its fields and is read, the other messages are the
    rows they were, the number of messages stays and the number of unread
    ones drops by one exactly when the message was unread; marking it
    again changes nothing more. *)
Theorem mark_message_read_once (message_id : Z) (message : ContactMessage.t)
    (db : DB.t) :
  DB.contact_messages db !! message_id = Some message →
  let db' := (mark_message_read message_id true db).2 in
  DB.contact_messages db' !! message_id
  = Some (message_with_is_read true message)
  ∧ (∀ k, k ≠ message_id →
          DB.contact_messages db' !! k = DB.contact_messages db !! k)
  ∧ Stats.total_messages (dashboard db') = Stats.total_messages (dashboard db)
  ∧ (Stats.unread_messages (dashboard db')
     + (if ContactMessage.is_read message then 0 else 1)
     = Stats.unread_messages (dashboard db))%nat
  ∧ (mark_message_read message_id true db').2 = db'.
Proof.
  intros Hk db'. subst db'. rewrite (mark_message_read_ok _ _ _ Hk).
  split; [apply lookup_insert_eq|].
  split; [intros k Hne; by apply lookup_insert_ne|].
  split; [by apply count_insert_existing with (x := message)|].
  split.
  - pose proof (count_where_insert_existing
                  (λ m, negb (ContactMessage.is_read m))
                  (DB.contact_messages db) message_id message
                  (message_with_is_read true message) Hk) as H.
    unfold dashboard. simpl in *.
    destruct (ContactMessage.is_read message); simpl in *; lia.
  - rewrite (mark_message_read_ok _ (message_with_is_read true message))
      by apply lookup_insert_eq.
    unfold DB.with_contact_messages. simpl. f_equal.
    apply insert_insert_eq.
Qed.

Lemma mark_message_read_once_witness :
  DB.contact_messages (mark_message_read 1 true db_one_message).2 !! 1
  = Some (ContactMessage.mk "Ana" "ana@example.com" "" "Visite" "Bonjour"
                            true)
  ∧ (Stats.unread_messages
       (dashboard (mark_message_read 1 true db_one_message).2) + 1
     = Stats.unread_messages (dashboard db_one_message))%nat.
Proof.
  destruct (mark_message_read_once 1
              (ContactMessage.mk "Ana" "ana@example.com" "" "Visite" "Bonjour"
                                 false)
              db_one_message)
    as (Hrow & _ & _ & Hunread & _).
  - vm_compute. reflexivity.
  - split; [exact Hrow|exact Hunread].
Defined.

Lemma contact_raises_unread_witness :
  Stats.unread_messages
    (dashboard
       (contact "POST"
          {[ "name" := "Ana"; "email" := "ana@example.com";
             "subject" := "Visite"; "message" := "Bonjour" ]}
          true false db_one_message).1.2)
  = 2%nat.
Proof.
  destruct (contact_raises_unread
              {[ "name" := "Ana"; "email" := "ana@example.com";
                 "subject" := "Visite"; "message" := "Bonjour" ]}
              true false db_one_message)
    as [Hok _].
  destruct Hok as (_ & Hunread & _).
  - repeat split; vm_compute; reflexivity.
  - reflexivity.
  - rewrite Hunread. vm_compute. reflexivity.
Defined.

(** ** Carousel items: toggling *)

Lemma toggle_carousel_item_ok item_id item db :
  DB.carousel_items db !! item_id = Some item →
  (toggle_carousel_item item_id true db).2
  = DB.with_carousel_items
      (<[item_id := item_with_is_active (negb (CarouselItem.is_active item))
                                         item]>
         (DB.carousel_items db)) db.
Proof. intros Hk. unfold toggle_carousel_item. by rewrite Hk. Qed.

(** X3. [toggle_carousel_item] on an existing item, the commit succeeding:
    the item after has [is_active] negated and every other column as before
    (its [sort_order] stays), the flash names the new state, the other items
    are left, and toggling twice gives the database back. *)
Theorem toggle_carousel_item_twice (item_id : Z) (item : CarouselItem.t)
    (db : DB.t) :
  DB.carousel_items db !! item_id = Some item →
  let db' := (toggle_carousel_item item_id true db).2 in
  (∃ item', DB.carousel_items db' !! item_id = Some item'
            ∧ CarouselItem.is_active item' = negb (CarouselItem.is_active item)
            ∧ CarouselItem.image_filename item'
              = CarouselItem.image_filename item
            ∧ CarouselItem.link_url item' = CarouselItem.link_url item
            ∧ CarouselItem.alt_text item' = CarouselItem.alt_text item
            ∧ CarouselItem.sort_order item' = CarouselItem.sort_order item)
  ∧ (toggle_carousel_item item_id true db).1
    = Redirect "admin.carousel"
        [(if CarouselItem.is_active item
          then "Imagen desactivada exitosamente"
          else "Imagen activada exitosamente", "success")]
  ∧ DB.carousel_items db' !! item_id
    = Some (item_with_is_active (negb (CarouselItem.is_active item)) item)
  ∧ (∀ k, k ≠ item_id →
          DB.carousel_items db' !! k = DB.carousel_items db !! k)
  ∧ (toggle_carousel_item item_id true db').2 = db.
Proof.
  intros Hk db'. subst db'. rewrite (toggle_carousel_item_ok _ _ _ Hk).
  split.
  { eexists. split; [apply lookup_insert_eq|]. done. }
  split.
  { unfold toggle_carousel_item. rewrite Hk.
    by destruct (CarouselItem.is_active item). }
  split; [apply lookup_insert_eq|].
  split; [intros k Hne; by apply lookup_insert_ne|].
  rewrite (toggle_carousel_item_ok _
             (item_with_is_active (negb (CarouselItem.is_active item)) item))
    by apply lookup_insert_eq.
  destruct db as [p a m c i]. unfold DB.with_carousel_items. simpl in *.
  f_equal. rewrite insert_insert_eq, negb_involutive.
  apply insert_id. rewrite Hk. by destruct item.
Qed.

Lemma toggle_carousel_item_twice_witness :
  let db' := (toggle_carousel_item 2 true db_four_items).2 in
  (∃ item', DB.carousel_items db' !! 2 = Some item'
            ∧ CarouselItem.is_active item' = false
            ∧ CarouselItem.image_filename item' = "b.png"
            ∧ CarouselItem.sort_order item' = 1)
  ∧ (toggle_carousel_item 2 true db_four_items).1
    = Redirect "admin.carousel"
        [("Imagen desactivada exitosamente", "success")]
  ∧ (toggle_carousel_item 2 true db').2 = db_four_items.
Proof.
  intros db'.
  destruct (toggle_carousel_item_twice 2 (carousel_item_example "b.png" 1)
              db_four_items)
    as ((item' & Hrow & Hactive & Hfile & _ & _ & Horder)
        & Hflash & _ & _ & Hback).
  { vm_compute. reflexivity. }
  split; [|split; [exact Hflash|exact Hback]].
  exists item'. split; [exact Hrow|].
  split; [exact Hactive|]. split; [exact Hfile|exact Horder].
Defined.

(** ** Agencies and their images: deletion *)

Lemma delete_agency_ok agency_id agency db :
  DB.agencies db !! agency_id = Some agency →
  (delete_agency agency_id true db).2
  = DB.with_agency_images
      (filter (λ r : Z * AgencyImage.t, AgencyImage.agency_id r.2 ≠ agency_id)
              (DB.agency_images db))
      (DB.with_agencies (delete agency_id (DB.agencies db)) db).
Proof. intros Hk. unfold delete_agency. by rewrite Hk. Qed.

(** X4. [delete_agency] on an existing agency, nothing failing: the agency
    is gone and a second delete answers 404; the images left are exactly
    the images of the other agencies, unchanged; the other agencies, the
    plans, the carousel items and the messages are untouched. An unknown
    id answers 404, and neither it nor a failure changes the database. *)
Theorem delete_agency_cascades (agency_id : Z) (agency : Agency.t) (db : DB.t) :
  DB.agencies db !! agency_id = Some agency →
  let db' := (delete_agency agency_id true db).2 in
  DB.agencies db' !! agency_id = None
  ∧ delete_agency agency_id true db' = (Abort 404, db')
  ∧ (∀ k, k ≠ agency_id → DB.agencies db' !! k = DB.agencies db !! k)
  ∧ (∀ k i, DB.agency_images db' !! k = Some i ↔
            DB.agency_images db !! k = Some i
            ∧ AgencyImage.agency_id i ≠ agency_id)
  ∧ DB.plans db' = DB.plans db
  ∧ DB.carousel_items db' = DB.carousel_items db
  ∧ DB.contact_messages db' = DB.contact_messages db
  ∧ (delete_agency agency_id false db).2 = db.
Proof.
  intros Hk db'. subst db'. rewrite (delete_agency_ok _ _ _ Hk).
  split; [apply lookup_delete_eq|]. split.
  { unfold delete_agency. simpl. by rewrite lookup_delete_eq. }
  split; [intros k Hne; by apply lookup_delete_ne|].
  split; [|unfold delete_agency; by rewrite Hk].
  intros k i. simpl. by rewrite map_lookup_filter_Some.
Qed.

Lemma delete_agency_cascades_witness :
  DB.agency_images (delete_agency 1 true db_agency_with_images).2 !! 1 = None
  ∧ DB.agency_images (delete_agency 1 true db_agency_with_images).2 !! 3
    = Some (AgencyImage.mk 2 "c.png" "" true 0).
Proof.
  destruct (delete_agency_cascades 1
              (Agency.mk "A" "Marseille" "https://a.example" None None ""
                         None true 1)
              db_agency_with_images)
    as (_ & _ & _ & Himg & _).
  - vm_compute. reflexivity.
  - split.
    + destruct (DB.agency_images
                  (delete_agency 1 true db_agency_with_images).2 !! 1)
        as [i|] eqn:E; [|done].
      apply Himg in E as [E Hne]. vm_compute in E. injection E as <-.
      by destruct Hne.
    + apply Himg. split; [vm_compute; reflexivity|]. simpl. lia.
Defined.

Lemma delete_agency_image_ok image_id image db :
  DB.agency_images db !! image_id = Some image →
  (delete_agency_image image_id true db).2
  = DB.with_agency_images (delete image_id (DB.agency_images db)) db.
Proof. intros Hk. unfold delete_agency_image. by rewrite Hk. Qed.

(** X5. [delete_agency_image] on an existing image, nothing failing:
    the image is gone, every other image is the row it was (no other image
    becomes primary), and the number of primary images of its agency drops
    by one exactly when the deleted image was primary. So an agency whose
    only primary image is deleted has none, whatever images it keeps. *)
Theorem delete_agency_image_keeps_flags (image_id : Z) (image : AgencyImage.t)
    (db : DB.t) :
  DB.agency_images db !! image_id = Some image →
  let db' := (delete_agency_image image_id true db).2 in
  DB.agency_images db' !! image_id = None
  ∧ (∀ k, k ≠ image_id →
          DB.agency_images db' !! k = DB.agency_images db !! k)
  ∧ count_where (primary_of (AgencyImage.agency_id image))
                (DB.agency_images db)
    = ((if AgencyImage.is_primary image then 1 else 0)
       + count_where (primary_of (AgencyImage.agency_id image))
                     (DB.agency_images db'))%nat
  ∧ DB.agencies db' = DB.agencies db.
Proof.
  intros Hk db'. subst db'. rewrite (delete_agency_image_ok _ _ _ Hk).
  split; [apply lookup_delete_eq|].
  split; [intros k Hne; by apply lookup_delete_ne|].
  split; [|done]. simpl.
  rewrite (count_where_delete _ _ _ _ Hk). unfold primary_of at 1.
  by rewrite Z.eqb_refl.
Qed.

Lemma delete_agency_image_keeps_flags_witness :
  count_where (primary_of 1) (DB.agency_images db_two_agencies_images)
  = (1 + count_where (primary_of 1)
           (DB.agency_images
              (delete_agency_image 1 true db_two_agencies_images).2))%nat
  ∧ DB.agency_images (delete_agency_image 1 true db_two_agencies_images).2 !! 2
    = Some (AgencyImage.mk 1 "b.png" "" false 1).
Proof.
  destruct (delete_agency_image_keeps_flags 1
              (AgencyImage.mk 1 "a.png" "" true 0) db_two_agencies_images)
    as (_ & Hother & Hcount & _).
  - vm_compute. reflexivity.
  - split; [exact Hcount|].
    rewrite Hother by lia. vm_compute. reflexivity.
Defined.

(** ** Agency images: reordering inside one agency *)

Lemma move_owned_twice agency_id v w i :
  move_owned agency_id v (move_owned agency_id w i) = move_owned agency_id v i.
Proof.
  unfold move_owned.
  destruct (Z.eqb_spec (AgencyImage.agency_id i) agency_id) as [He|Hne];
    simpl.
  - by rewrite He, Z.eqb_refl.
  - by destruct (Z.eqb_spec (AgencyImage.agency_id i) agency_id).
Qed.

Lemma reorder_images_loop_lookup agency_id ids index
    (table : gmap Z AgencyImage.t) k :
  reorder_images_loop agency_id index ids table !! k
  = match last_position k ids with
    | Some n => move_owned agency_id (Z.of_nat (index + n)) <$> table !! k
    | None => table !! k
    end.
Proof.
  revert index table. induction ids as [|id rest IH]; intros index table;
    simpl; [done|].
  rewrite IH.
  assert (match table !! id with
          | Some image =>
              if Z.eqb (AgencyImage.agency_id image) agency_id
              then <[id := image_with_sort_order (Z.of_nat index) image]> table
              else table
          | None => table
          end !! k
          = if decide (id = k)
            then move_owned agency_id (Z.of_nat index) <$> table !! k
            else table !! k) as ->.
  { case_decide as Hd.
    - subst id. destruct (table !! k) as [image|] eqn:E; simpl; [|done].
      unfold move_owned.
      destruct (Z.eqb (AgencyImage.agency_id image) agency_id).
      + by rewrite lookup_insert_eq.
      + done.
    - destruct (table !! id) as [image|]; [|done].
      destruct (Z.eqb (AgencyImage.agency_id image) agency_id); [|done].
      by rewrite lookup_insert_ne. }
  destruct (last_position k rest) as [n|].
  - replace (index + S n)%nat with (S index + n)%nat by lia.
    case_decide; [|done]. destruct (table !! k); simpl; [|done].
    by rewrite move_owned_twice.
  - case_decide; [|done]. by rewrite Nat.add_0_r.
Qed.

(** X6. [reorder_agency_images] (a JSON body, the commit succeeding):
    a listed image of the agency of the request gets as [sort_order] its
    position in the list (the last one if it is listed several times); an
    image of another agency is the row it was even when its id is listed;
    unlisted images are unchanged and unknown ids create nothing. *)
Theorem reorder_agency_images_scoped (agency_id : Z)
    (body : gmap string (list Z)) (db : DB.t) :
  let image_ids := default [] (body !! "image_ids") in
  let images' :=
    DB.agency_images (reorder_agency_images agency_id (Some body) true db).2 in
  (reorder_agency_images agency_id (Some body) true db).1 = Json "success" 200
  ∧ (∀ k i, DB.agency_images db !! k = Some i →
            AgencyImage.agency_id i = agency_id → k ∈ image_ids →
       ∃ n, image_ids !! n = Some k
            ∧ (∀ j, (n < j)%nat → image_ids !! j ≠ Some k)
            ∧ images' !! k = Some (image_with_sort_order (Z.of_nat n) i))
  ∧ (∀ k i, DB.agency_images db !! k = Some i →
            AgencyImage.agency_id i ≠ agency_id → images' !! k = Some i)
  ∧ (∀ k, k ∉ image_ids → images' !! k = DB.agency_images db !! k)
  ∧ (∀ k, DB.agency_images db !! k = None → images' !! k = None).
Proof.
  intros image_ids images'. subst images'. simpl. fold image_ids.
  split; [done|]. split; [|split; [|split]].
  - intros k i Hk Hown Hin. rewrite reorder_images_loop_lookup.
    destruct (last_position k image_ids) as [n|] eqn:E.
    + destruct (last_position_Some _ _ _ E) as [Hn Hafter].
      exists n. rewrite Hk. simpl. unfold move_owned.
      apply Z.eqb_eq in Hown. by rewrite Hown.
    + by apply last_position_None in E.
  - intros k i Hk Hne. rewrite reorder_images_loop_lookup, Hk.
    apply Z.eqb_neq in Hne.
    destruct (last_position k image_ids); simpl; [|done].
    unfold move_owned. by rewrite Hne.
  - intros k Hk. rewrite reorder_images_loop_lookup.
    by apply last_position_None in Hk as ->.
  - intros k Hk. rewrite reorder_images_loop_lookup, Hk.
    by destruct (last_position k image_ids).
Qed.

Lemma reorder_agency_images_scoped_witness :
  let body : gmap string (list Z) := {[ "image_ids" := [3; 2; 1] ]} in
  let images' :=
    DB.agency_images
      (reorder_agency_images 1 (Some body) true db_two_agencies_images).2 in
  images' !! 3 = Some (AgencyImage.mk 2 "c.png" "" true 0)
  ∧ images' !! 2 = Some (AgencyImage.mk 1 "b.png" "" false 1)
  ∧ images' !! 1 = Some (AgencyImage.mk 1 "a.png" "" true 2).
Proof.
  intros body images'.
  destruct (reorder_agency_images_scoped 1 body db_two_agencies_images)
    as (_ & Hown & Hother & _).
  split; [|split].
  - apply Hother; [vm_compute; reflexivity|]. simpl. lia.
  - destruct (Hown 2 (AgencyImage.mk 1 "b.png" "" false 1))
      as (n & Hn & _ & Heq).
    + vm_compute. reflexivity.
    + reflexivity.
    + apply list_elem_of_In. vm_compute. auto.
    + etransitivity; [exact Heq|].
      destruct n as [|[|[|n]]]; simpl in Hn; try discriminate. reflexivity.
  - destruct (Hown 1 (AgencyImage.mk 1 "a.png" "" true 0))
      as (n & Hn & _ & Heq).
    + vm_compute. reflexivity.
    + reflexivity.
    + apply list_elem_of_In. vm_compute. auto.
    + etransitivity; [exact Heq|].
      destruct n as [|[|[|n]]]; simpl in Hn; try discriminate. reflexivity.
Defined.

(** ** Plans: names and references *)

Lemma head_filter_None {A} (f : Z * A → bool) (t : gmap Z A) :
  head (List.filter f (rows t)) = None ↔
  ∀ k row, t !! k = Some row → f (k, row) = false.
Proof.
  rewrite head_None, filter_nil_iff. split.
  - intros H k row Hk. apply H. by apply rows_lookup.
  - intros H [k row] Hk. apply H. by apply rows_lookup.
Qed.

Lemma head_filter_Some {A} (f : Z * A → bool) (t : gmap Z A) r :
  head (List.filter f (rows t)) = Some r →
  t !! r.1 = Some r.2 ∧ f r = true.
Proof.
  intros H. apply head_Some_elem_of, list_elem_of_In, filter_In in H
    as [Hin Hf].
  split; [|done]. destruct r. by apply rows_lookup, list_elem_of_In.
Qed.

Lemma edit_plan_cases plan_id method form price commit_ok db :
  (edit_plan plan_id method form price commit_ok db).2 = db
  ∨ ∃ plan q,
      DB.plans db !! plan_id = Some plan ∧ price = Some q
      ∧ Py.truthy (Py.strip (form_get form "name")) = true
      ∧ (∀ k p, DB.plans db !! k = Some p →
                Plan.name p = Py.strip (form_get form "name") → k = plan_id)
      ∧ (edit_plan plan_id method form price commit_ok db).2
        = DB.with_plans
            (<[plan_id :=
                 Plan.mk (Py.strip (form_get form "name")) q
                         (default "monthly" (form !! "billing_period"))
                         (Py.strip (form_get form "description"))
                         (bool_decide (is_Some (form !! "is_active")))]>
               (DB.plans db))
            db.
Proof.
  unfold edit_plan.
  destruct (DB.plans db !! plan_id) as [plan|] eqn:Hk; [|by left].
  destruct (String.eqb method "POST"); [|by left].
  destruct price as [q|]; [|by left].
  destruct (Py.truthy (Py.strip (form_get form "name"))) eqn:Hname;
    [|by left].
  simpl.
  destruct (head (List.filter _ (rows (DB.plans db)))) as [r|] eqn:Hhead;
    [by left|].
  destruct commit_ok; [|by left].
  right. exists plan, q. repeat split; try done.
  intros k p Hp Hn.
  pose proof (proj1 (head_filter_None _ _) Hhead k p Hp) as Hf. simpl in Hf.
  apply String.eqb_eq in Hn. rewrite Hn in Hf. simpl in Hf.
  apply negb_false_iff, Z.eqb_eq in Hf. done.
Qed.

Lemma add_plan_cases method form price commit_ok db :
  (add_plan method form price commit_ok db).2 = db
  ∨ ∃ plan,
      (∀ k p, DB.plans db !! k = Some p → Plan.name p ≠ Plan.name plan)
      ∧ (add_plan method form price commit_ok db).2
        = DB.with_plans (add plan (DB.plans db)) db.
Proof.
  unfold add_plan.
  destruct (String.eqb method "POST"); [|by left].
  destruct price as [q|]; [|by left].
  destruct (Py.truthy (Py.strip (form_get form "name"))); [|by left].
  simpl.
  destruct (first_where _ (DB.plans db)) as [r|] eqn:Hfirst; [by left|].
  destruct commit_ok; [|by left].
  right. eexists. split; [|reflexivity]. simpl.
  intros k p Hp. apply String.eqb_neq.
  by apply (proj1 (first_where_None _ _) Hfirst k).
Qed.

Lemma delete_plan_cases plan_id commit_ok db :
  (delete_plan plan_id commit_ok db).2 = db
  ∨ ((∀ k a, DB.agencies db !! k = Some a → Agency.plan_id a ≠ Some plan_id)
     ∧ (delete_plan plan_id commit_ok db).2
       = DB.with_plans (delete plan_id (DB.plans db)) db).
Proof.
  unfold delete_plan.
  destruct (DB.plans db !! plan_id) as [plan|]; [|by left].
  destruct (count_where _ (DB.agencies db)) as [|n] eqn:Hcount; [|by left].
  simpl. destruct commit_ok; [|by left].
  right. split; [|done]. intros k a Hk.
  eapply bool_decide_eq_false.
  exact (proj1 (count_where_zero _ _) Hcount k a Hk).
Qed.

(** X7. Whatever the request, [add_plan], [edit_plan] and [delete_plan]
    keep the names of the plans pairwise different: a table without two
    plans of one name has none after the request (one request at a time). *)
Theorem plan_names_stay_unique (plan_id : Z) (method : string)
    (form : gmap string string) (price : option Q) (commit_ok : bool)
    (db : DB.t) :
  plan_names_unique db →
  plan_names_unique (add_plan method form price commit_ok db).2
  ∧ plan_names_unique (edit_plan plan_id method form price commit_ok db).2
  ∧ plan_names_unique (delete_plan plan_id commit_ok db).2.
Proof.
  intros Huniq. split; [|split].
  - destruct (add_plan_cases method form price commit_ok db)
      as [->|(plan & Hfresh & ->)]; [done|].
    intros k1 k2 p1 p2. simpl.
    intros [[-> ->]|H1]%lookup_add [[-> ->]|H2]%lookup_add Hn.
    + done.
    + by destruct (Hfresh k2 p2 H2).
    + by destruct (Hfresh k1 p1 H1).
    + by apply (Huniq k1 k2 p1 p2).
  - destruct (edit_plan_cases plan_id method form price commit_ok db)
      as [->|(plan & q & Hk & _ & _ & Hfree & ->)]; [done|].
    intros k1 k2 p1 p2. simpl. rewrite !lookup_insert.
    destruct (decide (plan_id = k1)) as [<-|Hne1];
      destruct (decide (plan_id = k2)) as [<-|Hne2]; try done.
    + intros [= <-] H2 Hn. simpl in Hn. symmetry. by apply (Hfree k2 p2).
    + intros H1 [= <-] Hn. simpl in Hn. by apply (Hfree k1 p1).
    + intros H1 H2 Hn. by apply (Huniq k1 k2 p1 p2).
  - destruct (delete_plan_cases plan_id commit_ok db) as [->|[_ ->]]; [done|].
    intros k1 k2 p1 p2. simpl.
    intros [_ H1]%lookup_delete_Some [_ H2]%lookup_delete_Some Hn.
    by apply (Huniq k1 k2 p1 p2).
Qed.

Lemma db_plan_in_use_names_unique : plan_names_unique db_plan_in_use.
Proof.
  intros k1 k2 p1 p2 H1 H2 Hn. unfold db_plan_in_use in H1, H2.
  simpl in H1, H2.
  apply lookup_insert_Some in H1 as [[<- <-]|[_ [<- <-]%lookup_singleton_Some]];
    apply lookup_insert_Some in H2
      as [[<- <-]|[_ [<- <-]%lookup_singleton_Some]];
    done.
Qed.

Lemma plan_names_stay_unique_witness :
  plan_names_unique
    (edit_plan 1 "POST" {[ "name" := "Premium" ]} (Some (5 # 1)) true
               db_plan_in_use).2
  ∧ (edit_plan 1 "POST" {[ "name" := "Premium" ]} (Some (5 # 1)) true
               db_plan_in_use).1
    = Render "admin/plan_form.html" [("plan_error_exists", "error")].
Proof.
  split; [|vm_compute; reflexivity].
  apply (plan_names_stay_unique 1 "POST" {[ "name" := "Premium" ]}
           (Some (5 # 1)) true db_plan_in_use).
  apply db_plan_in_use_names_unique.
Defined.

(** X8. [edit_plan] on an existing plan with a price and a name: when no
    other plan has the name (the plan may keep its own) and the commit
    succeeds, the plan is rewritten from the form under the same key and
    the other plans stay; when another plan has the name the answer is
    [plan_error_exists] and the database is unchanged. *)
Theorem edit_plan_name_check (plan_id : Z) (plan : Plan.t)
    (form : gmap string string) (price : Q) (db : DB.t) :
  DB.plans db !! plan_id = Some plan →
  Py.truthy (Py.strip (form_get form "name")) = true →
  ((∀ k p, DB.plans db !! k = Some p →
           Plan.name p = Py.strip (form_get form "name") → k = plan_id) →
   (edit_plan plan_id "POST" form (Some price) true db).1
   = Redirect "admin.plans" [("plan_edit_success", "success")]
   ∧ DB.plans (edit_plan plan_id "POST" form (Some price) true db).2 !! plan_id
     = Some (Plan.mk (Py.strip (form_get form "name")) price
                     (default "monthly" (form !! "billing_period"))
                     (Py.strip (form_get form "description"))
                     (bool_decide (is_Some (form !! "is_active"))))
   ∧ (∀ k, k ≠ plan_id →
           DB.plans (edit_plan plan_id "POST" form (Some price) true db).2 !! k
           = DB.plans db !! k))
  ∧ (∀ commit_ok,
       (∃ k p, DB.plans db !! k = Some p ∧ k ≠ plan_id
               ∧ Plan.name p = Py.strip (form_get form "name")) →
       edit_plan plan_id "POST" form (Some price) commit_ok db
       = (Render "admin/plan_form.html" [("plan_error_exists", "error")], db)).
Proof.
  intros Hk Hname. unfold edit_plan. rewrite Hk. simpl. rewrite Hname. simpl.
  split.
  - intros Hfree.
    assert (head (List.filter
                    (λ r : Z * Plan.t,
                       String.eqb (Plan.name r.2)
                                  (Py.strip (form_get form "name"))
                       && negb (Z.eqb r.1 plan_id))
                    (rows (DB.plans db))) = None) as ->.
    { apply head_filter_None. intros k p Hp. simpl.
      destruct (String.eqb_spec (Plan.name p)
                                (Py.strip (form_get form "name")))
        as [Hn|]; [|done].
      simpl. apply negb_false_iff, Z.eqb_eq. by apply (Hfree k p). }
    simpl. split; [done|]. split; [apply lookup_insert_eq|].
    intros k Hne. by apply lookup_insert_ne.
  - intros commit_ok (k & p & Hp & Hne & Hn).
    destruct (head (List.filter _ (rows (DB.plans db)))) as [r|] eqn:Hhead;
      [done|].
    pose proof (proj1 (head_filter_None _ _) Hhead k p Hp) as Hf. simpl in Hf.
    rewrite Hn, String.eqb_refl in Hf. simpl in Hf.
    apply negb_false_iff, Z.eqb_eq in Hf. done.
Qed.

Lemma edit_plan_name_check_witness :
  DB.plans
    (edit_plan 1 "POST" {[ "name" := " Basic " ]} (Some (12 # 1)) true
               db_plan_in_use).2 !! 1
  = Some (Plan.mk "Basic" (12 # 1) "monthly" "" false).
Proof.
  destruct (edit_plan_name_check 1 (Plan.mk "Basic" (99 # 1) "yearly" "" true)
              {[ "name" := " Basic " ]} (12 # 1) db_plan_in_use)
    as [Hok _].
  - vm_compute. reflexivity.
  - vm_compute. reflexivity.
  - destruct Hok as (_ & Hrow & _); [|exact Hrow].
    intros k p Hp Hn. unfold db_plan_in_use in Hp. simpl in Hp.
    apply lookup_insert_Some in Hp
      as [[<- <-]|[_ [<- <-]%lookup_singleton_Some]]; [done|].
    vm_compute in Hn. discriminate.
Defined.

(** ** What a request can do to the agencies *)

Lemma add_agency_cases method form plan_id files commit_ok db :
  (add_agency method form plan_id files commit_ok db).2 = db
  ∨ (agency_form_valid form
     ∧ (add_agency method form plan_id files commit_ok db).2
       = DB.with_agencies
           (add (new_agency form plan_id files db) (DB.agencies db)) db).
Proof.
  unfold add_agency. destruct (String.eqb method "POST"); [|by left].
  destruct (Py.truthy (Py.strip (form_get form "name"))) eqn:Hn;
    destruct (Py.truthy (Py.strip (form_get form "city"))) eqn:Hc;
    destruct (Py.truthy (Py.strip (form_get form "website"))) eqn:Hw;
    simpl; try by left.
  destruct commit_ok; [|by left]. right. by split.
Qed.

Lemma edit_agency_cases agency_id method form plan_id files commit_ok db :
  (edit_agency agency_id method form plan_id files commit_ok db).2 = db
  ∨ ∃ agency,
      DB.agencies db !! agency_id = Some agency
      ∧ agency_form_valid form
      ∧ (edit_agency agency_id method form plan_id files commit_ok db).2
        = DB.with_agency_images (edited_images form files agency_id db)
            (DB.with_agencies
               (<[agency_id := edited_agency form plan_id files agency]>
                  (DB.agencies db)) db).
Proof.
  unfold edit_agency.
  destruct (DB.agencies db !! agency_id) as [agency|] eqn:Hk; [|by left].
  destruct (String.eqb method "POST"); [|by left].
  destruct (Py.truthy (Py.strip (form_get form "name"))) eqn:Hn;
    destruct (Py.truthy (Py.strip (form_get form "city"))) eqn:Hc;
    destruct (Py.truthy (Py.strip (form_get form "website"))) eqn:Hw;
    simpl; try by left.
  destruct commit_ok; [|by left]. right. exists agency. by repeat split.
Qed.

(** The gallery loop only adds rows, all of the edited agency and none
    primary. *)
Lemma edit_agency_gallery_rows files agency_id name cache table k i :
  edit_agency_gallery files agency_id name cache table !! k = Some i →
  table !! k = Some i
  ∨ (table !! k = None ∧ AgencyImage.agency_id i = agency_id
     ∧ AgencyImage.is_primary i = false).
Proof.
  revert cache table.
  induction files as [|f rest IH]; intros cache table; simpl; [by left|].
  destruct (valid_image f); [|by apply IH].
  destruct (Upload.saved_as f) as [fn|]; [|by apply IH].
  destruct (Py.truthy fn); [|by apply IH].
  intros Hk. apply IH in Hk.
  destruct Hk as [[[-> ->]|Hk]%lookup_add|(Hnone & Hag & Hp)].
  - right. split; [apply next_id_fresh|]. by split.
  - by left.
  - right. split; [|by split].
    destruct (table !! k) as [x|] eqn:E; [|done].
    eapply lookup_add_old in E. rewrite E in Hnone. discriminate.
Qed.

Lemma edited_images_rows form files agency_id db k i :
  edited_images form files agency_id db !! k = Some i →
  DB.agency_images db !! k = Some i
  ∨ (DB.agency_images db !! k = None ∧ AgencyImage.agency_id i = agency_id
     ∧ AgencyImage.is_primary i = false).
Proof.
  unfold edited_images. destruct (in_files files "gallery_images");
    [apply edit_agency_gallery_rows|by left].
Qed.

Lemma reorder_agencies_cases json commit_ok db :
  (reorder_agencies json commit_ok db).2 = db
  ∨ ∃ ids,
      (reorder_agencies json commit_ok db).2
      = DB.with_agencies
          (reorder_loop Agency.with_sort_order 0 ids (DB.agencies db)) db.
Proof.
  unfold reorder_agencies. destruct json as [body|]; [|by left].
  destruct commit_ok; [|by left]. right. by eexists.
Qed.

Lemma reorder_agencies_row ids (table : gmap Z Agency.t) k a :
  reorder_loop Agency.with_sort_order 0 ids table !! k = Some a →
  ∃ a0 v, table !! k = Some a0 ∧ a = Agency.with_sort_order v a0.
Proof.
  rewrite (reorder_loop_lookup _ agency_set_twice).
  destruct (last_position k ids) as [n|].
  - destruct (table !! k) as [a0|]; [|done]. intros [= <-]. eauto.
  - intros H. exists a, (Agency.sort_order a). split; [done|]. by destruct a.
Qed.

Lemma reorder_agencies_keys ids (table : gmap Z Agency.t) k :
  is_Some (reorder_loop Agency.with_sort_order 0 ids table !! k)
  ↔ is_Some (table !! k).
Proof.
  rewrite (reorder_loop_lookup _ agency_set_twice).
  destruct (last_position k ids); [|done]. by rewrite fmap_is_Some.
Qed.

Lemma set_primary_row image_id commit_ok db k i :
  DB.agency_images (set_primary_agency_image image_id commit_ok db).2 !! k
  = Some i →
  ∃ i0, DB.agency_images db !! k = Some i0
        ∧ AgencyImage.agency_id i = AgencyImage.agency_id i0.
Proof.
  unfold set_primary_agency_image.
  destruct (DB.agency_images db !! image_id) as [image|] eqn:Himg; [|eauto].
  destruct commit_ok; [|eauto]. simpl.
  rewrite lookup_alter. case_decide as Hd.
  - subst k. rewrite lookup_fmap, Himg. simpl. intros [= <-].
    exists image. split; [done|].
    by destruct (Z.eqb (AgencyImage.agency_id image)
                       (AgencyImage.agency_id image)).
  - rewrite lookup_fmap.
    destruct (DB.agency_images db !! k) as [i0|]; [|done]. simpl.
    intros [= <-]. exists i0. split; [done|].
    by destruct (Z.eqb (AgencyImage.agency_id i0)
                       (AgencyImage.agency_id image)).
Qed.

Lemma reorder_agency_images_row agency_id json commit_ok db k i :
  DB.agency_images (reorder_agency_images agency_id json commit_ok db).2 !! k
  = Some i →
  ∃ i0, DB.agency_images db !! k = Some i0
        ∧ AgencyImage.agency_id i = AgencyImage.agency_id i0.
Proof.
  unfold reorder_agency_images. destruct json as [body|]; [|eauto].
  destruct commit_ok; [|eauto]. simpl. rewrite reorder_images_loop_lookup.
  destruct (last_position k _) as [n|]; [|eauto].
  destruct (DB.agency_images db !! k) as [i0|]; [|done]. simpl.
  intros [= <-]. exists i0. split; [done|]. unfold move_owned.
  by destruct (Z.eqb (AgencyImage.agency_id i0) agency_id).
Qed.

(** X9. Whatever the request, the handlers of agencies and of their
    images leave no image without its agency: when every image belongs to
    an agency of the table before [add_agency], [edit_agency],
    [delete_agency], [reorder_agencies], [add_agency_images],
    [delete_agency_image], [set_primary_agency_image] or
    [reorder_agency_images], so it is after. *)
Theorem images_stay_owned (agency_id image_id : Z) (method : string)
    (form : gmap string string) (plan_id : option Z)
    (files : gmap string (list Upload.t))
    (json : option (gmap string (list Z))) (ok : bool) (db : DB.t) :
  images_owned db →
  images_owned (add_agency method form plan_id files ok db).2
  ∧ images_owned (edit_agency agency_id method form plan_id files ok db).2
  ∧ images_owned (delete_agency agency_id ok db).2
  ∧ images_owned (reorder_agencies json ok db).2
  ∧ images_owned (add_agency_images agency_id form files ok db).2
  ∧ images_owned (delete_agency_image image_id ok db).2
  ∧ images_owned (set_primary_agency_image image_id ok db).2
  ∧ images_owned (reorder_agency_images agency_id json ok db).2.
Proof.
  intros Hown. repeat split.
  - destruct (add_agency_cases method form plan_id files ok db)
      as [->|[_ ->]]; [done|].
    intros k i Hk. simpl in *. destruct (Hown k i Hk) as [a Ha].
    exists a. by apply lookup_add_old.
  - destruct (edit_agency_cases agency_id method form plan_id files ok db)
      as [->|(agency & Hag & _ & ->)]; [done|].
    intros k i Hk. simpl in *. apply lookup_insert_is_Some'.
    apply edited_images_rows in Hk as [Hk|(_ & -> & _)].
    + right. by apply (Hown k i).
    + by left.
  - unfold delete_agency.
    destruct (DB.agencies db !! agency_id) as [agency|] eqn:Hag; [|done].
    destruct ok; [|done]. intros k i. simpl.
    intros [Hk Hne]%map_lookup_filter_Some. simpl in Hne.
    rewrite lookup_delete_ne by done. by apply (Hown k i).
  - destruct (reorder_agencies_cases json ok db) as [->|[ids ->]]; [done|].
    intros k i Hk. simpl in *. apply reorder_agencies_keys.
    by apply (Hown k i).
  - intros k i Hk.
    destruct (DB.agencies db !! agency_id) as [agency|] eqn:Hag.
    + assert (DB.agencies (add_agency_images agency_id form files ok db).2
              = DB.agencies db) as ->.
      { unfold add_agency_images. rewrite Hag.
        destruct (in_files files "images"); simpl; [|done].
        destruct (add_agency_images_loop _ _ _ _ _ _) as [table n].
        destruct (0 <? n)%nat; [|done]. by destruct ok. }
      apply add_agency_images_flags in Hk as [Hk|(_ & -> & _)].
      * by apply (Hown k i).
      * by rewrite Hag.
    + unfold add_agency_images in Hk |- *. rewrite Hag in *. simpl in *.
      by apply (Hown k i).
  - unfold delete_agency_image.
    destruct (DB.agency_images db !! image_id) as [image|]; [|done].
    destruct ok; [|done]. intros k i. simpl.
    intros [_ Hk]%lookup_delete_Some. by apply (Hown k i).
  - intros k i Hk.
    assert (DB.agencies (set_primary_agency_image image_id ok db).2
            = DB.agencies db) as ->.
    { unfold set_primary_agency_image.
      destruct (DB.agency_images db !! image_id); [|done]. by destruct ok. }
    apply set_primary_row in Hk as (i0 & Hk & ->). by apply (Hown k i0).
  - intros k i Hk.
    assert (DB.agencies (reorder_agency_images agency_id json ok db).2
            = DB.agencies db) as ->.
    { unfold reorder_agency_images. destruct json; [|done]. by destruct ok. }
    apply reorder_agency_images_row in Hk as (i0 & Hk & ->).
    by apply (Hown k i0).
Qed.

Lemma db_agency_with_images_owned : images_owned db_agency_with_images.
Proof.
  intros k i Hk. unfold db_agency_with_images, db_two_agencies_images in *.
  simpl in *.
  repeat (apply lookup_insert_Some in Hk as [[<- <-]|[_ Hk]]; [by eexists|]).
  apply lookup_singleton_Some in Hk as [<- <-]. by eexists.
Qed.

Lemma images_stay_owned_witness :
  images_owned (delete_agency 1 true db_agency_with_images).2
  ∧ images_owned
      (add_agency_images 2 ∅ two_images_upload true db_agency_with_images).2.
Proof.
  destruct (images_stay_owned 1 1 "POST" ∅ None two_images_upload None true
              db_agency_with_images db_agency_with_images_owned)
    as (_ & _ & Hdel & _).
  destruct (images_stay_owned 2 1 "POST" ∅ None two_images_upload None true
              db_agency_with_images db_agency_with_images_owned)
    as (_ & _ & _ & _ & Hadd & _).
  by split.
Defined.

(** X10. The plan handlers and the deletion and reordering of agencies
    never leave an agency with the [plan_id] of a missing plan: when every
    [plan_id] names a plan of the table before [delete_plan], [add_plan],
    [edit_plan], [delete_agency] or [reorder_agencies], so it does after.
    [add_agency] and [edit_agency] store the [plan_id] of the form as it
    comes; they keep the property when that plan exists or none is given. *)
Theorem plan_refs_stay_valid (plan_id agency_id : Z) (method : string)
    (form : gmap string string) (price : option Q)
    (new_plan_id : option Z) (files : gmap string (list Upload.t))
    (json : option (gmap string (list Z))) (ok : bool) (db : DB.t) :
  plan_refs_valid db →
  plan_refs_valid (delete_plan plan_id ok db).2
  ∧ plan_refs_valid (add_plan method form price ok db).2
  ∧ plan_refs_valid (edit_plan plan_id method form price ok db).2
  ∧ plan_refs_valid (delete_agency agency_id ok db).2
  ∧ plan_refs_valid (reorder_agencies json ok db).2
  ∧ ((∀ pid, new_plan_id = Some pid → is_Some (DB.plans db !! pid)) →
     plan_refs_valid (add_agency method form new_plan_id files ok db).2
     ∧ plan_refs_valid
         (edit_agency agency_id method form new_plan_id files ok db).2).
Proof.
  intros Hvalid. split; [|split; [|split; [|split; [|split]]]].
  - destruct (delete_plan_cases plan_id ok db) as [->|[Hfree ->]]; [done|].
    intros k a pid Hk Hp. simpl in *.
    rewrite lookup_delete_ne; [by apply (Hvalid k a)|].
    intros <-. by apply (Hfree k a Hk).
  - destruct (add_plan_cases method form price ok db)
      as [->|(plan & _ & ->)]; [done|].
    intros k a pid Hk Hp. simpl in *.
    destruct (Hvalid k a pid Hk Hp) as [p Hpid]. exists p.
    by apply lookup_add_old.
  - destruct (edit_plan_cases plan_id method form price ok db)
      as [->|(plan & q & _ & _ & _ & _ & ->)]; [done|].
    intros k a pid Hk Hp. simpl in *. apply lookup_insert_is_Some'. right.
    by apply (Hvalid k a).
  - unfold delete_agency.
    destruct (DB.agencies db !! agency_id) as [agency|]; [|done].
    destruct ok; [|done]. intros k a pid. simpl.
    intros [_ Hk]%lookup_delete_Some. by apply (Hvalid k a).
  - destruct (reorder_agencies_cases json ok db) as [->|[ids ->]]; [done|].
    intros k a pid Hk Hp. simpl in *.
    apply reorder_agencies_row in Hk as (a0 & v & Hk & ->).
    by apply (Hvalid k a0).
  - intros Hnew. split.
    + destruct (add_agency_cases method form new_plan_id files ok db)
        as [->|[_ ->]]; [done|].
      intros k a pid. simpl. intros [[-> ->]|Hk]%lookup_add Hp.
      * by apply Hnew.
      * by apply (Hvalid k a).
    + destruct (edit_agency_cases agency_id method form new_plan_id files ok db)
        as [->|(agency & _ & _ & ->)]; [done|].
      intros k a pid. simpl. rewrite lookup_insert.
      case_decide; [intros [= <-] Hp; by apply Hnew|].
      intros Hk Hp. by apply (Hvalid k a).
Qed.

Lemma db_plan_in_use_refs_valid : plan_refs_valid db_plan_in_use.
Proof.
  intros k a pid Hk Hp. unfold db_plan_in_use in *. simpl in *.
  apply lookup_singleton_Some in Hk as [<- <-]. injection Hp as <-.
  by eexists.
Qed.

Lemma plan_refs_stay_valid_witness :
  plan_refs_valid (delete_plan 2 true db_plan_in_use).2
  ∧ plan_refs_valid (delete_plan 1 true db_plan_in_use).2.
Proof.
  destruct (plan_refs_stay_valid 2 1 "POST" ∅ None None ∅ None true
              db_plan_in_use db_plan_in_use_refs_valid) as (H2 & _).
  destruct (plan_refs_stay_valid 1 1 "POST" ∅ None None ∅ None true
              db_plan_in_use db_plan_in_use_refs_valid) as (H1 & _).
  by split.
Defined.

(** ** Websites *)

Lemma ensure_protocol_has_protocol w : has_protocol (ensure_protocol w) = true.
Proof.
  unfold ensure_protocol. fold (has_protocol w).
  destruct (has_protocol w) eqn:E; simpl; [done|].
  unfold has_protocol, Py.startswith. apply orb_true_iff. right.
  by destruct w.
Qed.

Lemma ensure_protocol_fixed w :
  has_protocol w = true → ensure_protocol w = w.
Proof. intros H. unfold ensure_protocol. fold (has_protocol w). by rewrite H. Qed.

(** X11. [ensure_protocol] always gives a value that starts with
    [http://] or [https://] and changes no such value, so applying it again
    changes nothing (an agency edited again and again keeps its website).
    Hence [add_agency], [edit_agency], [delete_agency] and
    [reorder_agencies] keep the property that every stored website starts
    with one of the two, and the sample agencies of the setup have it. *)
Theorem websites_keep_protocol (agency_id : Z) (method : string)
    (form : gmap string string) (plan_id : option Z)
    (files : gmap string (list Upload.t))
    (json : option (gmap string (list Z))) (ok : bool) (w : string)
    (db : DB.t) :
  (has_protocol (ensure_protocol w) = true
   ∧ ensure_protocol (ensure_protocol w) = ensure_protocol w)
  ∧ (websites_have_protocol db →
     websites_have_protocol (add_agency method form plan_id files ok db).2
     ∧ websites_have_protocol
         (edit_agency agency_id method form plan_id files ok db).2
     ∧ websites_have_protocol (delete_agency agency_id ok db).2
     ∧ websites_have_protocol (reorder_agencies json ok db).2
     ∧ websites_have_protocol (create_sample_agencies db)).
Proof.
  split.
  { split; [apply ensure_protocol_has_protocol|].
    apply ensure_protocol_fixed, ensure_protocol_has_protocol. }
  intros Hweb. split; [|split; [|split; [|split]]].
  - destruct (add_agency_cases method form plan_id files ok db)
      as [->|[_ ->]]; [done|].
    intros k a. simpl. intros [[-> ->]|Hk]%lookup_add.
    + apply ensure_protocol_has_protocol.
    + by apply (Hweb k).
  - destruct (edit_agency_cases agency_id method form plan_id files ok db)
      as [->|(agency & _ & _ & ->)]; [done|].
    intros k a. simpl. rewrite lookup_insert.
    case_decide; [intros [= <-]; apply ensure_protocol_has_protocol|].
    apply Hweb.
  - unfold delete_agency.
    destruct (DB.agencies db !! agency_id) as [agency|]; [|done].
    destruct ok; [|done]. intros k a. simpl.
    intros [_ Hk]%lookup_delete_Some. by apply (Hweb k).
  - destruct (reorder_agencies_cases json ok db) as [->|[ids ->]]; [done|].
    intros k a Hk. simpl in *.
    apply reorder_agencies_row in Hk as (a0 & v & Hk & ->).
    by apply (Hweb k a0).
  - unfold create_sample_agencies.
    destruct (count (DB.agencies db) =? 0)%nat; [|done].
    intros k a. simpl.
    intros [[-> ->]|[[-> ->]|[[-> ->]|[[-> ->]|Hk]%lookup_add]%lookup_add
             ]%lookup_add]%lookup_add; try done.
    by apply (Hweb k).
Qed.

Lemma websites_keep_protocol_witness :
  websites_have_protocol
    (add_agency "POST" (agency_form_example "B" "ftp://b.example") None ∅ true
                DB.empty).2.
Proof.
  apply (websites_keep_protocol 1 "POST"
           (agency_form_example "B" "ftp://b.example") None ∅ None true ""
           DB.empty).
  intros k a Hk. unfold DB.empty in Hk. simpl in Hk.
  by rewrite lookup_empty in Hk.
Defined.

(** ** Required fields *)

Lemma blank_app_space w s : w ∈ Py.WHITESPACE → Py.blank (w ++ s) = Py.blank s.
Proof.
  intros Hw. apply list_elem_of_In in Hw. vm_compute in Hw.
  repeat (destruct Hw as [<-|Hw]; [reflexivity|]). done.
Qed.

Lemma blank_all_space_le n s :
  (String.length s ≤ n)%nat → Py.blank s = true → all_space s.
Proof.
  revert s. induction n as [|n IH]; intros s Hn.
  { destruct s; [constructor|simpl in Hn; lia]. }
  destruct s as [|c1 r1]; [constructor|]. simpl in Hn.
  cbn [Py.blank].
  destruct (Py.isspace (String c1 "")) eqn:E1.
  { intros H. change (String c1 r1) with (String c1 "" ++ r1).
    apply all_space_cons; [by apply bool_decide_eq_true in E1|].
    apply IH; [lia|done]. }
  destruct r1 as [|c2 r2]; [done|]. simpl in Hn.
  destruct (Py.isspace (String c1 (String c2 ""))) eqn:E2.
  { intros H.
    change (String c1 (String c2 r2)) with (String c1 (String c2 "") ++ r2).
    apply all_space_cons; [by apply bool_decide_eq_true in E2|].
    apply IH; [lia|done]. }
  destruct r2 as [|c3 r3]; [done|]. simpl in Hn.
  destruct (Py.isspace (String c1 (String c2 (String c3 "")))) eqn:E3; [|done].
  intros H.
  change (String c1 (String c2 (String c3 r3)))
    with (String c1 (String c2 (String c3 "")) ++ r3).
  apply all_space_cons; [by apply bool_decide_eq_true in E3|].
  apply IH; [lia|done].
Qed.

(** [blank] decides [all_space]. *)
Lemma blank_all_space s : Py.blank s = true ↔ all_space s.
Proof.
  split; [by apply (blank_all_space_le (String.length s))|].
  induction 1 as [|w s Hw _ IH]; [done|]. by rewrite blank_app_space.
Qed.

Lemma blank_lstrip_le n s :
  (String.length s ≤ n)%nat → Py.blank (Py.lstrip s) = Py.blank s.
Proof.
  revert s. induction n as [|n IH]; intros s Hn.
  { destruct s; [done|simpl in Hn; lia]. }
  destruct s as [|c1 r1]; [done|]. simpl in Hn.
  cbn [Py.lstrip].
  destruct (Py.isspace (String c1 "")) eqn:E1.
  { cbn [Py.blank]. rewrite E1. apply IH. lia. }
  destruct r1 as [|c2 r2]; [done|]. simpl in Hn.
  destruct (Py.isspace (String c1 (String c2 ""))) eqn:E2.
  { cbn [Py.blank]. rewrite E1, E2. apply IH. lia. }
  destruct r2 as [|c3 r3]; [done|]. simpl in Hn.
  destruct (Py.isspace (String c1 (String c2 (String c3 "")))) eqn:E3; [|done].
  cbn [Py.blank]. rewrite E1, E2, E3. apply IH. lia.
Qed.

Lemma rstrip_empty_iff s : Py.rstrip s = "" ↔ Py.blank s = true.
Proof.
  destruct s as [|c r]; [done|]. cbn [Py.rstrip].
  by destruct (Py.blank (String c r)).
Qed.

(** [strip] gives the empty string exactly on the strings of white space. *)
Lemma strip_empty_iff s : Py.strip s = "" ↔ all_space s.
Proof.
  unfold Py.strip.
  rewrite rstrip_empty_iff, (blank_lstrip_le (String.length s)) by done.
  apply blank_all_space.
Qed.

(** [strip] on the white space outside ASCII: a no-break space and a
    space before the name, a line separator and a line feed after it. *)
Lemma strip_unicode_space :
  Py.strip (Py.utf8 [194; 160; 32]%nat ++ "Ana Roux"
            ++ Py.utf8 [226; 128; 168; 10]%nat)
  = "Ana Roux".
Proof. vm_compute. reflexivity. Qed.

Lemma truthy_strip s : all_space s → Py.truthy (Py.strip s) = false.
Proof. intros H%strip_empty_iff. by rewrite H. Qed.

(** X12. A required field that is missing, empty or made of white space
    only stops the request before anything is written: [add_agency] and
    [edit_agency] answer [agency_error_required] and [contact] answers
    [contact_error_required], each with the database unchanged, whatever
    the files and the commit would do; the contact form then sends no
    email. *)
Theorem blank_required_field_rejected (agency_id : Z) (agency : Agency.t)
    (form : gmap string string) (plan_id : option Z)
    (files : gmap string (list Upload.t)) (commit_ok email_ok : bool)
    (db : DB.t) :
  ((all_space (form_get form "name") ∨ all_space (form_get form "city")
    ∨ all_space (form_get form "website")) →
   add_agency "POST" form plan_id files commit_ok db
   = (Render "admin/agency_form.html" [("agency_error_required", "error")], db)
   ∧ (DB.agencies db !! agency_id = Some agency →
      edit_agency agency_id "POST" form plan_id files commit_ok db
      = (Render "admin/agency_form.html"
                [("agency_error_required", "error")], db)))
  ∧ ((all_space (form_get form "name") ∨ all_space (form_get form "email")
      ∨ all_space (form_get form "subject")
      ∨ all_space (form_get form "message")) →
     contact "POST" form commit_ok email_ok db
     = (Render "contact.html" [("contact_error_required", "error")], db, [])).
Proof.
  split.
  - intros Hblank. unfold add_agency, edit_agency. simpl.
    assert (Py.truthy (Py.strip (form_get form "name"))
            && Py.truthy (Py.strip (form_get form "city"))
            && Py.truthy (Py.strip (form_get form "website")) = false) as ->.
    { destruct Hblank as [H|[H|H]]; rewrite (truthy_strip _ H);
        by rewrite ?andb_false_r. }
    simpl. split; [done|]. by intros ->.
  - intros Hblank. unfold contact. simpl.
    assert (Py.truthy (Py.strip (form_get form "name"))
            && Py.truthy (Py.strip (form_get form "email"))
            && Py.truthy (Py.strip (form_get form "subject"))
            && Py.truthy (Py.strip (form_get form "message")) = false) as ->.
    { destruct Hblank as [H|[H|[H|H]]]; rewrite (truthy_strip _ H);
        by rewrite ?andb_false_r. }
    done.
Qed.

Lemma blank_required_field_rejected_witness :
  add_agency "POST"
             {[ "name" := Py.utf8 [32; 194; 160; 9]%nat; "city" := "Aix";
                "website" := "a.fr" ]}
             None ∅ true DB.empty
  = (Render "admin/agency_form.html" [("agency_error_required", "error")],
     DB.empty)
  ∧ contact "POST" {[ "name" := "Ana"; "email" := "ana@example.com";
                      "message" := "Bonjour" ]} true true DB.empty
    = (Render "contact.html" [("contact_error_required", "error")],
       DB.empty, []).
Proof.
  destruct (blank_required_field_rejected 1
              (Agency.mk "" "" "" None None "" None true 0)
              {[ "name" := Py.utf8 [32; 194; 160; 9]%nat; "city" := "Aix";
                 "website" := "a.fr" ]}
              None ∅ true true DB.empty) as [Hagency _].
  destruct (blank_required_field_rejected 1
              (Agency.mk "" "" "" None None "" None true 0)
              {[ "name" := "Ana"; "email" := "ana@example.com";
                 "message" := "Bonjour" ]}
              None ∅ true true DB.empty) as [_ Hcontact].
  split.
  - apply Hagency. left. apply blank_all_space. vm_compute. reflexivity.
  - apply Hcontact. right. right. left. apply blank_all_space.
    vm_compute. reflexivity.
Defined.

(** ** Carousel items: what a request can write *)


(** ** Agency images: the rows of one upload *)

Lemma saved_names_cons f rest :
  saved_names (f :: rest)
  = match usable_upload f with
    | Some image_filename => image_filename :: saved_names rest
    | None => saved_names rest
    end.
Proof. done. Qed.

Lemma add_agency_images_loop_cons f rest agency_id alt_text cache table n :
  add_agency_images_loop (f :: rest) agency_id alt_text cache table n
  = match usable_upload f with
    | Some image_filename =>
        add_agency_images_loop rest agency_id alt_text
          (Some (agency_images_attr cache agency_id table))
          (add (AgencyImage.mk agency_id image_filename alt_text
                  match agency_images_attr cache agency_id table with
                  | [] => true
                  | _ => false
                  end
                  (Z.of_nat
                     (count_where
                        (λ i, Z.eqb (AgencyImage.agency_id i) agency_id)
                        table)))
               table)
          (S n)
    | None => add_agency_images_loop rest agency_id alt_text cache table n
    end.
Proof.
  simpl. unfold usable_upload. destruct (valid_image f); [|done].
  destruct (Upload.saved_as f) as [fn|]; [|done]. by destruct (Py.truthy fn).
Qed.

Lemma add_agency_images_loop_rows images agency_id alt_text cache table n :
  (∀ j fn, saved_names images !! j = Some fn →
     ∃ i, (add_agency_images_loop images agency_id alt_text cache table n).1
          !! (next_id table + Z.of_nat j) = Some i
          ∧ AgencyImage.image_filename i = fn
          ∧ AgencyImage.agency_id i = agency_id
          ∧ AgencyImage.alt_text i = alt_text
          ∧ AgencyImage.sort_order i
            = Z.of_nat
                (count_where (λ i, Z.eqb (AgencyImage.agency_id i) agency_id)
                             table + j))
  ∧ (∀ k, k < next_id table →
          (add_agency_images_loop images agency_id alt_text cache table n).1
          !! k = table !! k)
  ∧ size (add_agency_images_loop images agency_id alt_text cache table n).1
    = (size table + length (saved_names images))%nat
  ∧ (add_agency_images_loop images agency_id alt_text cache table n).2
    = (n + length (saved_names images))%nat.
Proof.
  revert cache table n.
  induction images as [|f rest IH]; intros cache table n.
  { simpl. repeat split; try lia. intros j fn Hj. by rewrite lookup_nil in Hj. }
  rewrite add_agency_images_loop_cons, saved_names_cons.
  destruct (usable_upload f) as [fn0|]; [|apply IH].
  set (img := AgencyImage.mk agency_id fn0 alt_text _ _).
  destruct (IH (Some (agency_images_attr cache agency_id table))
               (add img table) (S n))
    as (Hrows & Hold & Hsize & Hcount).
  rewrite next_id_add in Hrows, Hold.
  assert (count_where (λ i, Z.eqb (AgencyImage.agency_id i) agency_id)
                      (add img table)
          = S (count_where (λ i, Z.eqb (AgencyImage.agency_id i) agency_id)
                           table)) as Hown.
  { unfold add. rewrite count_where_insert_fresh by apply next_id_fresh.
    simpl. by rewrite Z.eqb_refl. }
  rewrite Hown in Hrows.
  split; [|split; [|split]].
  - intros [|j] fn Hj; simpl in Hj.
    + injection Hj as <-. exists img. rewrite Z.add_0_r, Nat.add_0_r.
      rewrite Hold by lia. by rewrite lookup_add_new.
    + destruct (Hrows j fn Hj) as (i & Hi & Hfn & Hag & Halt & Hso).
      exists i. split.
      * rewrite <- Hi. f_equal. lia.
      * repeat split; try done. rewrite Hso. f_equal. lia.
  - intros k Hk. rewrite Hold by lia. unfold add.
    apply lookup_insert_ne. lia.
  - rewrite Hsize. unfold add.
    rewrite map_size_insert_None by apply next_id_fresh. simpl. lia.
  - rewrite Hcount. simpl. lia.
Qed.

(** X14. [add_agency_images] for an existing agency, the commit
    succeeding: the uploads that are allowed images and were saved become
    rows, in their order, under consecutive new keys; the j-th of them
    (from 0) has the saved name, the agency of the request, the
    [alt_text] of the form or [Imagen de <name>], and as [sort_order] the
    number of images the agency had plus j. The other uploads give no
    row, the rows of before are unchanged, and without any such upload the
    database is unchanged. *)
Theorem add_agency_images_rows (agency_id : Z) (agency : Agency.t)
    (form : gmap string string) (files : gmap string (list Upload.t))
    (db : DB.t) :
  DB.agencies db !! agency_id = Some agency →
  let names := saved_names (files_getlist files "images") in
  let images' :=
    DB.agency_images (add_agency_images agency_id form files true db).2 in
  let owned :=
    count_where (λ i, Z.eqb (AgencyImage.agency_id i) agency_id)
                (DB.agency_images db) in
  (∀ j fn, names !! j = Some fn →
     ∃ i, images' !! (next_id (DB.agency_images db) + Z.of_nat j) = Some i
          ∧ AgencyImage.image_filename i = fn
          ∧ AgencyImage.agency_id i = agency_id
          ∧ AgencyImage.alt_text i
            = default ("Imagen de " ++ Agency.name agency)
                      (form !! "alt_text")
          ∧ AgencyImage.sort_order i = Z.of_nat (owned + j))
  ∧ (∀ k i, DB.agency_images db !! k = Some i → images' !! k = Some i)
  ∧ size images' = (size (DB.agency_images db) + length names)%nat
  ∧ (names = [] →
     ∀ commit_ok, (add_agency_images agency_id form files commit_ok db).2 = db).
Proof.
  intros Hag names images' owned.
  pose proof (add_agency_images_loop_rows (files_getlist files "images")
                agency_id
                (default ("Imagen de " ++ Agency.name agency)
                         (form !! "alt_text"))
                None (DB.agency_images db) 0) as Hloop.
  fold names in Hloop. fold owned in Hloop.
  destruct Hloop as (Hrows & Hold & Hsize & Hcount).
  assert (names ≠ [] → in_files files "images" = true) as Hin.
  { unfold names, files_getlist, in_files.
    by destruct (files !! "images") as [[|f l]|]. }
  subst images'. unfold add_agency_images. rewrite Hag.
  destruct (decide (names = [])) as [Hnil|Hne].
  - destruct (in_files files "images"); simpl.
    + destruct (add_agency_images_loop _ _ _ _ _ _) as [table added].
      simpl in *. rewrite Hnil in *. simpl in *. subst added. simpl.
      split; [intros j fn Hj; by rewrite lookup_nil in Hj|].
      split; [done|]. split; [lia|done].
    + rewrite Hnil. simpl.
      split; [intros j fn Hj; by rewrite lookup_nil in Hj|].
      split; [done|]. split; [lia|done].
  - rewrite (Hin Hne). simpl.
    destruct (add_agency_images_loop _ _ _ _ _ _) as [table added].
    simpl in *.
    assert ((0 <? added)%nat = true) as ->.
    { apply Nat.ltb_lt. subst added. destruct names; [done|simpl; lia]. }
    simpl. split; [exact Hrows|]. split; [|split; [exact Hsize|done]].
    intros k i Hk. rewrite Hold; [done|]. by apply next_id_above in Hk.
Qed.

Lemma add_agency_images_rows_witness :
  let upload : gmap string (list Upload.t) :=
    {[ "images" := [Upload.mk "notes.txt" (Some "n.txt");
                    Upload.mk "roof.PNG" (Some "r1.PNG");
                    Upload.mk "hall.webp" None;
                    Upload.mk "door.gif" (Some "d2.gif")] ]} in
  let images' :=
    DB.agency_images
      (add_agency_images 1 ∅ upload true db_agency_with_images).2 in
  size images' = 5%nat
  ∧ AgencyImage.sort_order <$> images' !! 4 = Some 2
  ∧ AgencyImage.sort_order <$> images' !! 5 = Some 3.
Proof.
  intros upload images'.
  destruct (add_agency_images_rows 1
              (Agency.mk "A" "Marseille" "https://a.example" None None ""
                         None true 1)
              ∅ upload db_agency_with_images)
    as (Hrows & _ & Hsize & _).
  - vm_compute. reflexivity.
  - split; [exact Hsize|]. split.
    + destruct (Hrows 0%nat "r1.PNG" eq_refl) as (i & Hi & _ & _ & _ & Hso).
      change (images' !! 4 = Some i) in Hi. rewrite Hi. simpl. rewrite Hso.
      vm_compute. reflexivity.
    + destruct (Hrows 1%nat "d2.gif" eq_refl) as (i & Hi & _ & _ & _ & Hso).
      change (images' !! 5 = Some i) in Hi. rewrite Hi. simpl. rewrite Hso.
      vm_compute. reflexivity.
Defined.

(** ** Reordering again *)

Lemma reorder_loop_again {A} (set_sort_order : Z → A → A)
    (set_twice : ∀ i j row,
        set_sort_order i (set_sort_order j row) = set_sort_order i row)
    ids (table : gmap Z A) :
  reorder_loop set_sort_order 0 ids (reorder_loop set_sort_order 0 ids table)
  = reorder_loop set_sort_order 0 ids table.
Proof.
  apply map_eq. intros k. rewrite !(reorder_loop_lookup _ set_twice).
  destruct (last_position k ids); [|done].
  destruct (table !! k); simpl; [|done]. by rewrite set_twice.
Qed.

(** X15. Sending the same list to [reorder_agencies] or
    [reorder_carousel] a second time changes nothing more. A request
    without a JSON body, or whose commit fails, answers status 500 and
    leaves the database as it was. When the list repeats no id, two
    different listed agencies never end with the same [sort_order]. *)
Theorem reorder_again (body : gmap string (list Z)) (db : DB.t) :
  (reorder_agencies (Some body) true
     (reorder_agencies (Some body) true db).2).2
  = (reorder_agencies (Some body) true db).2
  ∧ (reorder_carousel (Some body) true
       (reorder_carousel (Some body) true db).2).2
    = (reorder_carousel (Some body) true db).2
  ∧ (∀ commit_ok,
       reorder_agencies None commit_ok db = (Json "error" 500, db)
       ∧ reorder_carousel None commit_ok db = (Json "error" 500, db))
  ∧ reorder_agencies (Some body) false db = (Json "error" 500, db)
  ∧ reorder_carousel (Some body) false db = (Json "error" 500, db)
  ∧ (NoDup (default [] (body !! "agency_ids")) →
     ∀ k1 k2 a1 a2,
       k1 ∈ default [] (body !! "agency_ids") →
       k2 ∈ default [] (body !! "agency_ids") → k1 ≠ k2 →
       DB.agencies (reorder_agencies (Some body) true db).2 !! k1 = Some a1 →
       DB.agencies (reorder_agencies (Some body) true db).2 !! k2 = Some a2 →
       Agency.sort_order a1 ≠ Agency.sort_order a2).
Proof.
  split; [|split; [|split; [|split; [|split]]]]; try done.
  - unfold reorder_agencies. simpl. unfold DB.with_agencies. simpl. f_equal.
    apply reorder_loop_again, agency_set_twice.
  - unfold reorder_carousel. simpl. unfold DB.with_carousel_items. simpl.
    f_equal. apply reorder_loop_again, carousel_set_twice.
  - intros Hnd k1 k2 a1 a2 Hin1 Hin2 Hne. simpl.
    rewrite !(reorder_loop_lookup _ agency_set_twice).
    apply list_elem_of_lookup in Hin1 as [n1 Hn1].
    apply list_elem_of_lookup in Hin2 as [n2 Hn2].
    rewrite (last_position_NoDup _ _ _ Hnd Hn1).
    rewrite (last_position_NoDup _ _ _ Hnd Hn2).
    destruct (DB.agencies db !! k1) as [b1|]; [|done].
    destruct (DB.agencies db !! k2) as [b2|]; [|done]. simpl.
    intros [= <-] [= <-]. simpl. intros Heq.
    assert (n1 = n2) as -> by lia. congruence.
Qed.

Lemma reorder_again_witness :
  let body : gmap string (list Z) := {[ "agency_ids" := [2; 1] ]} in
  Agency.sort_order
    <$> DB.agencies (reorder_agencies (Some body) true db_agency_with_images).2
        !! 1
  ≠ Agency.sort_order
      <$> DB.agencies
            (reorder_agencies (Some body) true db_agency_with_images).2 !! 2.
Proof.
  intros body.
  destruct (reorder_again body db_agency_with_images)
    as (_ & _ & _ & _ & _ & Hdistinct).
  destruct (DB.agencies
              (reorder_agencies (Some body) true db_agency_with_images).2 !! 1)
    as [a1|] eqn:E1; [|vm_compute in E1; discriminate].
  destruct (DB.agencies
              (reorder_agencies (Some body) true db_agency_with_images).2 !! 2)
    as [a2|] eqn:E2; [|vm_compute in E2; discriminate].
  simpl. intros [= Heq]. revert Heq.
  apply (Hdistinct) with (k1 := 1) (k2 := 2); try done.
  - apply NoDup_ListNoDup. vm_compute.
    repeat (constructor; [simpl; intros H; repeat destruct H as [H|H]; lia|]).
    constructor.
  - apply list_elem_of_In. vm_compute. auto.
  - apply list_elem_of_In. vm_compute. auto.
Defined.

(** ** Carousel settings *)

Lemma first_None {A} (t : gmap Z A) : first t = None ↔ t = ∅.
Proof. unfold first. by rewrite head_None, rows_nil. Qed.

Lemma first_lookup {A} (t : gmap Z A) k x :
  first t = Some (k, x) → t !! k = Some x.
Proof.
  unfold first. intros H%head_Some_elem_of. by apply rows_lookup.
Qed.

(** Rewriting the first row leaves it the first row. *)
Lemma first_insert_same {A} (t : gmap Z A) k x y :
  first t = Some (k, x) → first (<[k := y]> t) = Some (k, y).
Proof.
  intros Hfirst. pose proof (first_lookup _ _ _ Hfirst) as Hk.
  assert (map_first_key t k) as Hkey.
  { exists x. unfold first, rows in Hfirst. by rewrite <- head_lookup. }
  apply (map_first_key_dom_L (<[k := y]> t) t) in Hkey as [y' Hy'].
  - rewrite <- head_lookup in Hy'. unfold first, rows. rewrite Hy'.
    apply head_Some_elem_of, elem_of_map_to_list in Hy'.
    rewrite lookup_insert_eq in Hy'. by injection Hy' as <-.
  - apply dom_insert_lookup_L. by eexists.
Qed.

Lemma first_singleton {A} k (x : A) : first ({[k := x]} : gmap Z A) = Some (k, x).
Proof. unfold first, rows. by rewrite map_to_list_singleton. Qed.

(** X16. [carousel] creates the settings only when the table has none:
    with a row in the table the site is unchanged; on the empty table a
    committed request leaves exactly one row, the defaults (active, 5
    seconds, no video); a second request changes nothing more, and when
    the commit fails the answer is status 500 with the site unchanged. *)
Theorem carousel_settings_created_once (site : Site.t) :
  (Site.carousel_settings site ≠ ∅ →
   ∀ commit_ok,
     carousel commit_ok site = (Render "admin/carousel.html" [], site))
  ∧ (Site.carousel_settings site = ∅ →
     Site.carousel_settings (carousel true site).2
     = {[ 1 := CarouselSettings.default ]}
     ∧ carousel false site = (Abort 500, site))
  ∧ (carousel true (carousel true site).2).2 = (carousel true site).2
  ∧ Site.db (carousel true site).2 = Site.db site.
Proof.
  unfold carousel.
  destruct (first (Site.carousel_settings site)) as [r|] eqn:Hfirst.
  - assert (Site.carousel_settings site ≠ ∅) as Hne.
    { intros H%first_None. congruence. }
    simpl. rewrite Hfirst. repeat split; try done.
  - apply first_None in Hfirst. rewrite Hfirst. simpl.
    assert (add CarouselSettings.default (∅ : gmap Z CarouselSettings.t)
            = {[ 1 := CarouselSettings.default ]}) as Hadd.
    { unfold add, next_id, rows. rewrite map_to_list_empty. simpl.
      by rewrite insert_empty. }
    rewrite Hadd, first_singleton. repeat split; try done.
Qed.

Lemma carousel_settings_created_once_witness :
  Site.carousel_settings (carousel true (Site.mk DB.empty ∅ ∅)).2
  = {[ 1 := CarouselSettings.default ]}.
Proof.
  destruct (carousel_settings_created_once (Site.mk DB.empty ∅ ∅))
    as (_ & Hempty & _).
  by apply Hempty.
Defined.

Lemma update_carousel_settings_first form interval files site :
  ∃ old,
    first (Site.carousel_settings
             (update_carousel_settings form (Some interval) files true site).2)
    = Some (default 1 (fst <$> first (Site.carousel_settings site)),
            updated_settings form interval files old)
    ∧ old = default CarouselSettings.default
                    (snd <$> first (Site.carousel_settings site))
    ∧ size (Site.carousel_settings
              (update_carousel_settings form (Some interval) files true site).2)
      = Nat.max 1 (size (Site.carousel_settings site)).
Proof.
  unfold update_carousel_settings.
  destruct (first (Site.carousel_settings site)) as [[k old]|] eqn:Hfirst;
    simpl.
  - exists old. split; [by apply first_insert_same with (x := old)|].
    split; [done|].
    pose proof (first_lookup _ _ _ Hfirst) as Hk.
    rewrite map_size_insert_Some by eauto.
    assert (size (Site.carousel_settings site) ≠ 0%nat); [|lia].
    intros H%map_size_empty_iff. rewrite H in Hk.
    by rewrite lookup_empty in Hk.
  - apply first_None in Hfirst. rewrite Hfirst.
    exists CarouselSettings.default.
    assert (next_id (∅ : gmap Z CarouselSettings.t) = 1) as ->.
    { unfold next_id, rows. by rewrite map_to_list_empty. }
    rewrite insert_empty, first_singleton, map_size_singleton, map_size_empty.
    done.
Qed.

(** X17. [update_carousel_settings] with a numeric interval and a
    successful commit rewrites the first settings row (or writes the one
    row of an empty table) and never adds a second one; the row holds the
    flags and the interval of the form, whatever its sign. The homepage
    follows at once: without [is_active = on] in the form it shows no
    carousel item, with it the active items. Without a numeric interval
    the request ends with status 500 and nothing is written; a failed
    commit writes nothing either. *)
Theorem update_carousel_settings_effect (form : gmap string string)
    (interval : Z) (files : gmap string (list Upload.t)) (site : Site.t) :
  let site' :=
    (update_carousel_settings form (Some interval) files true site).2 in
  size (Site.carousel_settings site')
  = Nat.max 1 (size (Site.carousel_settings site))
  ∧ (∃ key settings,
       first (Site.carousel_settings site') = Some (key, settings)
       ∧ CarouselSettings.interval_seconds settings = interval
       ∧ CarouselSettings.is_active settings
         = bool_decide (form !! "is_active" = Some "on")
       ∧ CarouselSettings.show_video settings
         = bool_decide (form !! "show_video" = Some "on"))
  ∧ Site.db site' = Site.db site
  ∧ (form !! "is_active" ≠ Some "on" → index_carousel_items site' = [])
  ∧ (form !! "is_active" = Some "on" →
     index_carousel_items site'
     = order_by item_order_le
         (List.filter (λ r, CarouselItem.is_active r.2)
                      (rows (DB.carousel_items (Site.db site)))))
  ∧ (∀ commit_ok,
       update_carousel_settings form None files commit_ok site
       = (Abort 500, site))
  ∧ (update_carousel_settings form (Some interval) files false site).2 = site.
Proof.
  intros site'.
  destruct (update_carousel_settings_first form interval files site)
    as (old & Hfirst & _ & Hsize).
  fold site' in Hfirst, Hsize.
  assert (Site.db site' = Site.db site) as Hdb.
  { subst site'. unfold update_carousel_settings.
    by destruct (first (Site.carousel_settings site)) as [[k o]|]. }
  split; [exact Hsize|]. split; [by eexists _, _|]. split; [exact Hdb|].
  split; [|split; [|split]].
  - intros Hoff. unfold index_carousel_items. rewrite Hfirst. simpl.
    by rewrite bool_decide_eq_false_2.
  - intros Hon. unfold index_carousel_items. rewrite Hfirst. simpl.
    by rewrite bool_decide_eq_true_2, Hdb.
  - intros commit_ok. unfold update_carousel_settings.
    by destruct (first (Site.carousel_settings site)) as [[k o]|].
  - unfold update_carousel_settings.
    by destruct (first (Site.carousel_settings site)) as [[k o]|].
Qed.

Lemma update_carousel_settings_effect_witness :
  index_carousel_items
    (update_carousel_settings {[ "show_video" := "on" ]} (Some 0) ∅ true
       (Site.mk db_four_items ∅ {[ 7 := CarouselSettings.default ]})).2
  = [].
Proof.
  destruct (update_carousel_settings_effect {[ "show_video" := "on" ]} 0 ∅
              (Site.mk db_four_items ∅ {[ 7 := CarouselSettings.default ]}))
    as (_ & _ & _ & Hoff & _).
  apply Hoff. vm_compute. discriminate.
Defined.

(** ** The lists of the pages *)

Lemma Sorted_weaken {A} (R S : A → A → Prop) (l : list A) :
  (∀ x y, R x y → S x y) → Sorted R l → Sorted S l.
Proof.
  intros HRS. induction 1 as [|x l Hs IH Hhd]; constructor; [done|].
  destruct Hhd; constructor. by apply HRS.
Qed.

Lemma order_by_length {A} (le : A → A → bool) (l : list A) :
  length (order_by le l) = length l.
Proof.
  induction l as [|x l IH]; simpl; [done|].
  by rewrite insert_by_length, IH.
Qed.

Lemma plan_price_le_total x y :
  plan_price_le x y = false → plan_price_le y x = true.
Proof.
  unfold plan_price_le. intros H. apply Qle_bool_iff.
  apply Qlt_le_weak, Qnot_le_lt. intros Hle. apply Qle_bool_iff in Hle.
  congruence.
Qed.

Lemma plan_name_le_total x y :
  plan_name_le x y = false → plan_name_le y x = true.
Proof.
  unfold plan_name_le, String.leb.
  rewrite (String.compare_antisym (Plan.name x.2) (Plan.name y.2)).
  by destruct (String.compare (Plan.name y.2) (Plan.name x.2)).
Qed.

Lemma leb_total_by {A} (f : A → Z) x y :
  Z.leb (f x) (f y) = false → Z.leb (f y) (f x) = true.
Proof. intros H%Z.leb_gt. apply Z.leb_le. lia. Qed.

(** X18. The other lists. The plans of the homepage are exactly the active
    plans, cheapest first. The agencies of the admin page are all the
    agencies, inactive ones and those without a plan included, by
    [sort_order]; its plans are all the plans, by name. The image page of
    an agency lists exactly its images, by [sort_order], and answers 404
    (no list) for an unknown agency. *)
Theorem page_lists (agency_id : Z) (db : DB.t) :
  ((∀ k p, (k, p) ∈ index_plans db ↔
           DB.plans db !! k = Some p ∧ Plan.is_active p = true)
   ∧ Sorted (λ x y, (Plan.price x.2 <= Plan.price y.2)%Q) (index_plans db))
  ∧ ((∀ k a, (k, a) ∈ agencies db ↔ DB.agencies db !! k = Some a)
     ∧ length (agencies db) = size (DB.agencies db)
     ∧ Sorted (λ x y, Agency.sort_order x.2 ≤ Agency.sort_order y.2)
              (agencies db))
  ∧ ((∀ k p, (k, p) ∈ plans db ↔ DB.plans db !! k = Some p)
     ∧ Sorted (λ x y, String.leb (Plan.name x.2) (Plan.name y.2) = true)
              (plans db))
  ∧ (DB.agencies db !! agency_id = None → agency_images agency_id db = None)
  ∧ (is_Some (DB.agencies db !! agency_id) →
     ∃ images,
       agency_images agency_id db = Some images
       ∧ (∀ k i, (k, i) ∈ images ↔
                 DB.agency_images db !! k = Some i
                 ∧ AgencyImage.agency_id i = agency_id)
       ∧ Sorted (λ x y, AgencyImage.sort_order x.2 ≤ AgencyImage.sort_order y.2)
                images).
Proof.
  split; [|split; [|split; [|split]]].
  - split.
    + intros k p. unfold index_plans.
      rewrite order_by_elem, list_elem_of_In, filter_In, <- list_elem_of_In.
      by rewrite rows_lookup.
    + eapply Sorted_weaken; [|apply (order_by_sorted plan_price_le),
                                plan_price_le_total].
      intros x y H. by apply Qle_bool_iff.
  - split; [|split].
    + intros k a. unfold agencies. by rewrite order_by_elem, rows_lookup.
    + unfold agencies. rewrite order_by_length. apply length_map_to_list.
    + eapply Sorted_weaken; [|apply (order_by_sorted agency_order_le)].
      * intros x y H. by apply Z.leb_le.
      * intros x y. apply (leb_total_by (λ r : Z * Agency.t,
                                            Agency.sort_order r.2)).
  - split.
    + intros k p. unfold plans. by rewrite order_by_elem, rows_lookup.
    + apply (order_by_sorted plan_name_le), plan_name_le_total.
  - intros Hnone. unfold agency_images. by rewrite Hnone.
  - intros [agency Hag]. unfold agency_images. rewrite Hag.
    eexists. split; [done|]. split.
    + intros k i.
      rewrite order_by_elem, list_elem_of_In, filter_In, <- list_elem_of_In.
      rewrite rows_lookup. simpl. by rewrite Z.eqb_eq.
    + eapply Sorted_weaken; [|apply (order_by_sorted image_order_le)].
      * intros x y H. by apply Z.leb_le.
      * intros x y. apply (leb_total_by (λ r : Z * AgencyImage.t,
                                            AgencyImage.sort_order r.2)).
Qed.

Lemma page_lists_witness :
  agency_images 9 db_agency_with_images = None
  ∧ fst <$> default [] (agency_images 1 db_agency_with_images) = [1; 2].
Proof.
  destruct (page_lists 9 db_agency_with_images) as (_ & _ & _ & Hnone & _).
  split; [apply Hnone; vm_compute; reflexivity|].
  vm_compute. reflexivity.
Defined.

(** ** File names *)

Lemma after_last_dot_None s : Py.after_last_dot s = None ↔ has_dot s = false.
Proof.
  induction s as [|c r IH]; simpl; [done|].
  destruct (Py.after_last_dot r) as [e|].
  - split; [done|]. intros [_ H]%orb_false_iff. by apply IH in H.
  - destruct (Ascii.eqb c "."%char); simpl; [done|].
    split; [intros _; by apply IH|done].
Qed.

Lemma append_cons c s t : String c s ++ t = String c (s ++ t).
Proof. done. Qed.

Lemma after_last_dot_app name ext :
  has_dot ext = false → Py.after_last_dot (name ++ "." ++ ext) = Some ext.
Proof.
  intros Hext. apply after_last_dot_None in Hext.
  induction name as [|c r IH].
  - change ("" ++ "." ++ ext) with (String "."%char ext). simpl.
    by rewrite Hext.
  - rewrite append_cons. simpl. by rewrite IH.
Qed.

(** X19. [allowed_file] and [allowed_video_file] look only at the text
    after the last dot, without regard to case: a name ending in
    [.<ext>], [ext] without a dot, is allowed exactly when [ext] in lower
    case is in the list, whatever stands before; a name without a dot is
    never allowed; and no name is both an allowed image and an allowed
    video. *)
Theorem allowed_file_last_extension (name ext : string) :
  (has_dot ext = false →
   allowed_file (name ++ "." ++ ext)
   = bool_decide (Py.lower ext ∈ ALLOWED_EXTENSIONS)
   ∧ allowed_video_file (name ++ "." ++ ext)
     = bool_decide (Py.lower ext ∈ ALLOWED_VIDEO_EXTENSIONS))
  ∧ (has_dot name = false →
     allowed_file name = false ∧ allowed_video_file name = false)
  ∧ (allowed_file name = true → allowed_video_file name = false).
Proof.
  split; [|split].
  - intros Hext. unfold allowed_file, allowed_video_file.
    by rewrite (after_last_dot_app _ _ Hext).
  - intros Hname. apply after_last_dot_None in Hname.
    unfold allowed_file, allowed_video_file. by rewrite Hname.
  - unfold allowed_file, allowed_video_file.
    destruct (Py.after_last_dot name) as [e|]; [|done].
    intros Himg%bool_decide_eq_true. apply bool_decide_eq_false.
    intros Hvid. apply list_elem_of_In in Himg, Hvid. simpl in Himg, Hvid.
    repeat (destruct Himg as [Himg|Himg];
            [rewrite <- Himg in Hvid;
             repeat (destruct Hvid as [Hvid|Hvid]; [discriminate|]); done|]).
    done.
Qed.

Lemma allowed_file_last_extension_witness :
  allowed_file "photo.tar.GIF" = true ∧ allowed_file "photo.png.exe" = false
  ∧ allowed_video_file "clip.WebM" = true.
Proof.
  destruct (allowed_file_last_extension "photo.tar" "GIF") as [Hgif _].
  destruct (allowed_file_last_extension "photo.png" "exe") as [Hexe _].
  destruct (allowed_file_last_extension "clip" "WebM") as [Hwebm _].
  split; [|split].
  - etransitivity; [exact (proj1 (Hgif eq_refl))|vm_compute; reflexivity].
  - etransitivity; [exact (proj1 (Hexe eq_refl))|vm_compute; reflexivity].
  - etransitivity; [exact (proj2 (Hwebm eq_refl))|vm_compute; reflexivity].
Defined.

(** ** Translations *)

(** X20. [get_translation]: when the file of the language exists and can
    be read, the answer is the value of the key in it, or the key itself
    when the file has no such key; the French file is not looked at. Only
    when the file of the language does not exist is the answer that of
    French. A file that cannot be read gives the key. The call always
    answers: with nothing to read, the key. *)
Theorem get_translation_fallback
    (translations_dir : gmap string (option (gmap string string)))
    (key language : string) :
  (∀ translations,
     translations_dir !! language = Some (Some translations) →
     get_translation translations_dir key language
     = default key (translations !! key))
  ∧ (translations_dir !! language = Some None →
     get_translation translations_dir key language = key)
  ∧ (translations_dir !! language = None →
     get_translation translations_dir key language
     = get_translation translations_dir key "fr")
  ∧ (translations_dir !! language = None →
     translations_dir !! "fr" = None →
     get_translation translations_dir key language = key).
Proof.
  unfold get_translation, read_translation. repeat split.
  - by intros translations ->.
  - by intros ->.
  - intros Hnone. rewrite Hnone.
    destruct (String.eqb_spec language "fr") as [->|Hne]; simpl.
    + by rewrite Hnone.
    + by destruct (translations_dir !! "fr") as [[d|]|].
  - intros -> ->. by destruct (negb _).
Qed.

Lemma get_translation_fallback_witness :
  let translations_dir : gmap string (option (gmap string string)) :=
    {[ "fr" := Some {[ "nav_home" := "Accueil"; "nav_contact" := "Contact" ]};
       "en" := Some {[ "nav_home" := "Home" ]} ]} in
  get_translation translations_dir "nav_contact" "en" = "nav_contact"
  ∧ get_translation translations_dir "nav_contact" "de" = "Contact".
Proof.
  intros translations_dir.
  destruct (get_translation_fallback translations_dir "nav_contact" "en")
    as (Hen & _).
  destruct (get_translation_fallback translations_dir "nav_contact" "de")
    as (_ & _ & Hde & _).
  split.
  - rewrite (Hen {[ "nav_home" := "Home" ]}); vm_compute; reflexivity.
  - rewrite Hde; vm_compute; reflexivity.
Defined.

(** ** The initial rows *)

Lemma create_default_plans_count db :
  count (DB.plans (create_default_plans db)) ≠ 0%nat
  ∧ DB.agencies (create_default_plans db) = DB.agencies db.
Proof.
  unfold create_default_plans.
  destruct (Nat.eqb_spec (count (DB.plans db)) 0) as [H0|Hne]; [|done].
  simpl. by rewrite count_add.
Qed.

Lemma create_sample_agencies_count db :
  count (DB.agencies (create_sample_agencies db)) ≠ 0%nat
  ∧ DB.plans (create_sample_agencies db) = DB.plans db.
Proof.
  unfold create_sample_agencies.
  destruct (Nat.eqb_spec (count (DB.agencies db)) 0) as [H0|Hne]; [|done].
  simpl. by rewrite count_add.
Qed.

Lemma create_default_plans_skip db :
  count (DB.plans db) ≠ 0%nat → create_default_plans db = db.
Proof.
  intros H. unfold create_default_plans.
  by destruct (Nat.eqb_spec (count (DB.plans db)) 0).
Qed.

Lemma create_sample_agencies_skip db :
  count (DB.agencies db) ≠ 0%nat → create_sample_agencies db = db.
Proof.
  intros H. unfold create_sample_agencies.
  by destruct (Nat.eqb_spec (count (DB.agencies db)) 0).
Qed.

(** X21. The setup of the database can run at every start: on a database
    that has plans and agencies it changes nothing, running it twice is
    running it once, and after it there is a plan and an agency. On the
    empty database it leaves the two default plans and the four sample
    agencies, each on its plan, and the homepage lists the four, those of
    the plan Premium first. *)
Theorem initialize_application_again (db : DB.t) :
  (DB.plans db ≠ ∅ → DB.agencies db ≠ ∅ → initialize_application db = db)
  ∧ initialize_application (initialize_application db)
    = initialize_application db
  ∧ DB.plans (initialize_application db) ≠ ∅
  ∧ DB.agencies (initialize_application db) ≠ ∅
  ∧ fst <$> index_agencies (initialize_application DB.empty) = [1; 3; 2; 4].
Proof.
  assert (∀ {A} (t : gmap Z A), count t ≠ 0%nat ↔ t ≠ ∅) as Hcount.
  { intros A t. rewrite count_size. by rewrite map_size_empty_iff. }
  unfold initialize_application.
  destruct (create_default_plans_count db) as [Hp Hpa].
  destruct (create_sample_agencies_count (create_default_plans db))
    as [Ha Hap].
  split; [|split; [|split; [|split]]].
  - intros Hplans Hagencies.
    rewrite (create_default_plans_skip db) by by apply Hcount.
    apply create_sample_agencies_skip. by apply Hcount.
  - rewrite (create_default_plans_skip (create_sample_agencies _))
      by by rewrite Hap.
    by apply create_sample_agencies_skip.
  - rewrite Hap. by apply Hcount.
  - by apply Hcount.
  - vm_compute. reflexivity.
Qed.

Lemma initialize_application_again_witness :
  initialize_application db_plan_in_use = db_plan_in_use.
Proof.
  destruct (initialize_application_again db_plan_in_use) as [Hskip _].
  apply Hskip.
  - intros H. apply (f_equal (λ t, t !! 1)) in H. vm_compute in H.
    discriminate.
  - intros H. apply (f_equal (λ t, t !! 1)) in H. vm_compute in H.
    discriminate.
Defined.

(** ** The password of the administrator *)

Lemma py_len_truthy s : (6 ≤ py_len s)%nat → Py.truthy s = true.
Proof. destruct s; simpl; [lia|done]. Qed.

(** X22. [password_change], a POST of a logged-in user whose three fields
    are filled, the new password of at least six characters and equal to
    its confirmation, the current password checking against the stored
    hash: when the commit succeeds the answer is the success flash and the
    stored hash of that user is the hash generated for the new password,
    its name and email, the other users, the tables and the carousel
    settings being as before; when the commit fails nothing changes.
    And a request changes the site only under these conditions: for every
    request, either the site after is the site before, or the request is
    such a POST (current password filled and checking, new password long
    enough and confirmed, commit succeeding). *)
Theorem password_change_guarded (generate_password_hash : string → string)
    (check_password_hash : string → string → bool)
    (current_user : option Z) (method : string) (form : gmap string string)
    (commit_ok : bool) (site : Site.t) :
  (∀ user_id user current_password new_password,
     current_user = Some user_id →
     Site.users site !! user_id = Some user →
     form !! "current_password" = Some current_password →
     form !! "new_password" = Some new_password →
     form !! "confirm_password" = Some new_password →
     Py.truthy current_password = true →
     (6 ≤ py_len new_password)%nat →
     check_password_hash (User.password_hash user) current_password = true →
     let result :=
       password_change generate_password_hash check_password_hash
                       current_user "POST" form true site in
     result.1 = Render "admin/password_change.html"
                     [("Contraseña actualizada exitosamente", "success")]
     ∧ User.password_hash <$> Site.users result.2 !! user_id
       = Some (generate_password_hash new_password)
     ∧ User.username <$> Site.users result.2 !! user_id
       = Some (User.username user)
     ∧ User.email <$> Site.users result.2 !! user_id = Some (User.email user)
     ∧ (∀ k, k ≠ user_id → Site.users result.2 !! k = Site.users site !! k)
     ∧ Site.db result.2 = Site.db site
     ∧ Site.carousel_settings result.2 = Site.carousel_settings site
     ∧ password_change generate_password_hash check_password_hash
                       current_user "POST" form false site
       = (Render "admin/password_change.html"
                 [("Error al actualizar la contraseña", "error")], site))
  ∧ ((password_change generate_password_hash check_password_hash current_user
                      method form commit_ok site).2 = site
     ∨ ∃ user_id user current_password new_password,
         current_user = Some user_id
         ∧ Site.users site !! user_id = Some user
         ∧ method = "POST" ∧ commit_ok = true
         ∧ form !! "current_password" = Some current_password
         ∧ form !! "new_password" = Some new_password
         ∧ form !! "confirm_password" = Some new_password
         ∧ Py.truthy current_password = true
         ∧ (6 ≤ py_len new_password)%nat
         ∧ check_password_hash (User.password_hash user) current_password
           = true
         ∧ (password_change generate_password_hash check_password_hash
                            current_user method form commit_ok site).2
           = Site.with_users
               (<[user_id :=
                    User.with_password_hash
                      (generate_password_hash new_password) user]>
                  (Site.users site)) site).
Proof.
  split.
  - intros user_id user cur new -> Huser Hcur Hnew Hconf Hfilled Hlen Hcheck.
    unfold password_change. simpl. rewrite Huser. simpl.
    rewrite Hcur, Hnew, Hconf. simpl.
    rewrite Hfilled, (py_len_truthy _ Hlen). simpl.
    destruct (Nat.ltb_spec (py_len new) 6) as [|_]; [lia|].
    rewrite String.eqb_refl, Hcheck. simpl.
    rewrite lookup_insert_eq. simpl.
    repeat split; try done.
    intros k Hne. by apply lookup_insert_ne.
  - unfold password_change.
    destruct current_user as [user_id|]; simpl; [|by left].
    destruct (Site.users site !! user_id) as [user|] eqn:Huser; simpl;
      [|by left].
    destruct (String.eqb_spec method "POST") as [->|]; [|by left].
    destruct (form !! "current_password") as [cur|]; simpl; [|by left].
    destruct (form !! "new_password") as [new|]; simpl;
      [|destruct (negb (Py.truthy cur)); by left].
    destruct (form !! "confirm_password") as [conf|]; simpl;
      [|destruct (negb (Py.truthy cur)), (negb (Py.truthy new)); by left].
    destruct (Py.truthy cur) eqn:Hfilled; simpl; [|by left].
    destruct (negb (Py.truthy new) || negb (Py.truthy conf)); [by left|].
    destruct (Nat.ltb_spec (py_len new) 6) as [|Hlen]; [by left|].
    destruct (String.eqb_spec new conf) as [<-|]; simpl; [|by left].
    destruct (check_password_hash (User.password_hash user) cur) eqn:Hcheck;
      simpl; [|by left].
    destruct commit_ok; [|by left].
    right. exists user_id, user, cur, new. by repeat split.
Qed.

Lemma password_change_guarded_witness :
  let form := password_form "admin123" "nouveau1" "nouveau1" in
  let result :=
    password_change example_hash example_check (Some 1) "POST" form true
                    site_one_admin in
  result.1 = Render "admin/password_change.html"
                  [("Contraseña actualizada exitosamente", "success")]
  ∧ User.password_hash <$> Site.users result.2 !! 1 = Some "pbkdf2:nouveau1"
  ∧ User.username <$> Site.users result.2 !! 1 = Some "admin"
  ∧ password_change example_hash example_check (Some 1) "POST" form false
                    site_one_admin
    = (Render "admin/password_change.html"
              [("Error al actualizar la contraseña", "error")],
       site_one_admin).
Proof.
  intros form result.
  destruct (password_change_guarded example_hash example_check (Some 1)
              "POST" form true site_one_admin) as [Hsuccess _].
  destruct (Hsuccess 1 (User.mk "admin" "admin@example.com"
                                (example_hash "admin123"))
                     "admin123" "nouveau1")
    as (Hflash & Hhash & Hname & _ & _ & _ & _ & Hfail).
  - reflexivity.
  - vm_compute. reflexivity.
  - vm_compute. reflexivity.
  - vm_compute. reflexivity.
  - vm_compute. reflexivity.
  - reflexivity.
  - vm_compute. lia.
  - vm_compute. reflexivity.
  - split; [exact Hflash|]. split; [exact Hhash|].
    split; [exact Hname|exact Hfail].
Defined.
